(** * The operator node of the multi-prover AVS

    A shallow embedding of the two operator variants of the repository:

    - [OperatorV1]: [operator/operator.go], the simplified operator
      (no checkpoint persistence, block-number based proof lookup);
    - [OperatorV2]: the operator that follows the storage contract in
      [contracts/src/core/MultiProverServiceManagerStorage.sol] (offset
      file, live and simulation proof retrieval, attestation renewal).

    Go values are modelled as follows: fixed-width integers are [Z] with
    the wrap-around written out, byte slices are [list byte] where the
    capacity is the length (log data, buffers) and [Bytes.Slice] where it
    is not (the chunks the ABI decoder cuts out of the call data),
    [(value, error)] returns are pairs with an
    [option error], panics are a separate outcome of the computation, and
    calls that leave the process (chain RPC, prover, aggregator, registry)
    read their answer from an explicit environment record and leave an
    event in the trace of the world. *)

From Stdlib Require Import Strings.String Strings.Byte.
From Stdlib Require Import ZArith List Lia Bool Sorting.Sorted.
Import ListNotations.
Open Scope Z_scope.

(** ** Fixed-width integers *)

Module Int.

(** [uint64(x)]: the low 64 bits. *)
Definition u64 (x : Z) : Z := x mod 2 ^ 64.

(** [uint32(x)]: the low 32 bits. *)
Definition u32 (x : Z) : Z := x mod 2 ^ 32.

(** [int64(x)]: the low 64 bits read in two's complement. *)
Definition i64 (x : Z) : Z := (x + 2 ^ 63) mod 2 ^ 64 - 2 ^ 63.

Definition maxUint64 : Z := 2 ^ 64 - 1.

End Int.

(** ** Errors and panics *)

Inductive error : Type :=
| EOF                        (* io.EOF *)
| ErrSyntax                  (* strconv.ErrSyntax *)
| ErrRange                   (* strconv.ErrRange *)
| Errorf (msg : string)      (* logex.NewErrorf(msg) *)
| Remote (msg : string)      (* an error reported by a library or a remote service *)
| Trace (e : error).         (* logex.Trace(e, ...) *)

Inductive panic : Type :=
| SliceOutOfRange            (* slice bounds out of range *)
| IndexOutOfRange            (* index out of range *)
| NilDereference.            (* nil pointer dereference *)

(** ** Byte slices *)

Module Bytes.

Definition to_Z (b : byte) : Z := Z.of_N (Byte.to_N b).

Definition of_Z (z : Z) : byte :=
  match Byte.of_N (Z.to_N (z mod 256)) with
  | Some b => b
  | None => x00
  end.

(** The cutset of [GetBlock]: NUL, CR, LF and space. *)
Definition cutset : list byte := [x00; x0d; x0a; x20].

Definition in_set (set : list byte) (b : byte) : bool :=
  existsb (Byte.eqb b) set.

(** [bytes.TrimLeft], [bytes.TrimRight] and [bytes.Trim] for a cutset of
    ASCII bytes (Go then works byte by byte). *)
Fixpoint TrimLeft (s set : list byte) : list byte :=
  match s with
  | [] => []
  | b :: rest => if in_set set b then TrimLeft rest set else s
  end.

Definition TrimRight (s set : list byte) : list byte :=
  rev (TrimLeft (rev s) set).

Definition Trim (s set : list byte) : list byte :=
  TrimRight (TrimLeft s set) set.

(** [s[lo:hi]] for a slice whose capacity equals its length: [None]
    stands for the run-time panic. *)
Definition slice (s : list byte) (lo hi : Z) : option (list byte) :=
  if (0 <=? lo) && (lo <=? hi) && (hi <=? Z.of_nat (length s))
  then Some (firstn (Z.to_nat (hi - lo)) (skipn (Z.to_nat lo) s))
  else None.

(** [s[i]]. *)
Definition index (s : list byte) (i : Z) : option byte :=
  if (0 <=? i) && (i <? Z.of_nat (length s))
  then nth_error s (Z.to_nat i)
  else None.

(** A byte slice whose capacity may exceed its length: its elements, and
    the bytes of the backing array that follow them up to the capacity. *)
Record Slice : Type := mkSlice { elems : list byte; spare : list byte }.

(** [s[lo:hi]] on such a slice: the upper bound is checked against the
    capacity, and the result may show bytes beyond the length. *)
Definition reslice (s : Slice) (lo hi : Z) : option Slice :=
  let backing := elems s ++ spare s in
  if (0 <=? lo) && (lo <=? hi) && (hi <=? Z.of_nat (length backing))
  then Some (mkSlice (firstn (Z.to_nat (hi - lo)) (skipn (Z.to_nat lo) backing))
                     (skipn (Z.to_nat hi) backing))
  else None.

(** Big-endian unsigned value of a byte string: [big.Int.SetBytes], and
    [binary.BigEndian.Uint64] on eight bytes. *)
Definition be_value (s : list byte) : Z :=
  fold_left (fun acc b => Z.lor (Z.shiftl acc 8) (to_Z b)) s 0.

End Bytes.

(** ** [strconv] *)

Module strconv.

(** The byte of a decimal digit, ['0' + d]. *)
Definition digit (d : Z) : byte := Bytes.of_Z (48 + d).

(** Decimal digits of [u], most significant first, pushed in front of
    [acc]; a [uint64] has at most 20 of them. *)
Fixpoint formatBits (fuel : nat) (u : Z) (acc : list byte) : list byte :=
  match fuel with
  | O => acc
  | S k =>
      if u <? 10 then digit u :: acc
      else formatBits k (u / 10) (digit (u mod 10) :: acc)
  end.

(** [strconv.FormatUint(i, 10)]. *)
Definition FormatUint (i : Z) : list byte := formatBits 20 i [].

(** The digit loop of [strconv.ParseUint(s, 10, 64)]: a byte outside
    ['0'..'9'] is a syntax error (letters would be digits of a larger
    base), and a value that leaves [uint64] is a range error. *)
Definition cutoff : Z := Int.maxUint64 / 10 + 1.

Fixpoint parseDigits (s : list byte) (n : Z) : Z * option error :=
  match s with
  | [] => (n, None)
  | c :: rest =>
      let c := Bytes.to_Z c in
      if (48 <=? c) && (c <=? 57) then
        let d := c - 48 in
        if cutoff <=? n then (Int.maxUint64, Some ErrRange)
        else
          let n := n * 10 in
          let n1 := Int.u64 (n + d) in
          if (n1 <? n) || (Int.maxUint64 <? n1)
          then (Int.maxUint64, Some ErrRange)
          else parseDigits rest n1
      else (0, Some ErrSyntax)
  end.

Definition ParseUint (s : list byte) : Z * option error :=
  match s with
  | [] => (0, Some ErrSyntax)
  | _ => parseDigits s 0
  end.

(** [strconv.ParseInt(s, 10, 64)]. *)
Definition ParseInt (s : list byte) : Z * option error :=
  match s with
  | [] => (0, Some ErrSyntax)
  | c :: rest =>
      let neg := Byte.eqb c "-"%byte in
      let s' := if Byte.eqb c "+"%byte || neg then rest else s in
      let '(un, err) := ParseUint s' in
      match err with
      | Some ErrSyntax => (0, Some ErrSyntax)
      | _ =>
          let cut := 2 ^ 63 in
          if negb neg && (cut <=? un) then (cut - 1, Some ErrRange)
          else if neg && (cut <? un) then (- cut, Some ErrRange)
          else (if neg then - un else un, None)
      end
  end.

End strconv.

(** ** Data of the protocol *)

(** [common.Hash] and [common.Address] are fixed-size byte arrays; they
    are compared and passed around but never taken apart, and are kept as
    the numbers they spell. *)
Definition Hash : Type := Z.
Definition Address : Type := Z.

(** [types.Log], the fields the operator reads. The data of a log comes
    out of the JSON decoder at its exact length: its capacity is its
    length. *)
Record Log : Type := mkLog {
  log_Address : Address;
  Topics : list Hash;
  Data : list byte;
  BlockNumber : Z;
  TxHash : Hash;
  Index : Z
}.

Record Poe : Type := mkPoe {
  BatchHash : Hash;
  NewStateRoot : Hash;
  PrevStateRoot : Hash
}.

(** [PoeResponse]; [Poe] is a pointer and may be nil. *)
Record PoeResponse : Type := mkPoeResponse {
  resp_Poe : option Poe;
  BatchId : Z;
  StartBlock : Z;
  EndBlock : Z
}.

(** [aggregator.Metadata]. *)
Record Metadata : Type := mkMetadata {
  md_BatchId : Z;
  md_StartBlock : Z;
  md_EndBlock : Z
}.

(** [aggregator.StateHeader]; a nil byte slice is the empty list. *)
Record StateHeader : Type := mkStateHeader {
  Identifier : Z;
  hdr_Metadata : list byte;
  State : list byte;
  QuorumNumbers : list byte;
  QuorumThresholdPercentages : list byte;
  ReferenceBlockNumber : Z
}.

(** [aggregator.TaskRequest], the submission of the second variant. *)
Record TaskRequest : Type := mkTaskRequest {
  Task : StateHeader;
  task_Signature : Z;
  task_OperatorId : Z
}.

(** [aggregator.StateHeaderRequest], the submission of the first variant. *)
Record StateHeaderRequest : Type := mkStateHeaderRequest {
  req_StateHeader : StateHeader;
  req_Signature : Z;
  req_Pubkey : list byte;
  req_OperatorId : Z
}.

(** ** The world outside the operator *)

(** What the process does that is visible from outside, in program order. *)
Inductive Event : Type :=
(* chain clients *)
| EvHeaderByNumber (number : option Z)        (* cfg.Client.HeaderByNumber *)
| EvSourceTransactionByHash (txHash : Hash)   (* taskFetcher.source *)
| EvSourceHeaderByNumber (number : Z)         (* taskFetcher.source *)
| EvChainID
| EvWaitTx (tx : Hash)
(* prover *)
| EvGetPoe (txHash : Hash)
| EvGetPoeByBlock (number : Z)
| EvGenerateAttestaionReport (pubkey : list byte)
(* header, signature, aggregator *)
| EvPretty (h : StateHeader)
| EvDigest (h : StateHeader)
| EvSignMessage (digest : Z)
| EvSubmitTask (req : TaskRequest)
| EvSubmitStateHeader (req : StateHeaderRequest)
(* registries *)
| EvSimulation
| EvIsOperatorRegistered
| EvGetOperatorId
| EvRegisterAsOperator
| EvRegisterOperatorInQuorum (expiry : Z)
| EvVerifyLivenessProof (x y : list byte)
| EvIsProverRegistered (x y : list byte)
| EvSubmitLivenessProof (report : list byte)
| EvRegister (report : list byte)
| EvAttestValiditySeconds
| EvAttestedProvers (key : Hash)
(* process *)
| EvInfo (msg : string)                       (* logex.Info, logger.Infof *)
| EvError (e : error)                         (* logex.Error, logger.Errorf *)
| EvSleep (d : Z)                             (* time.Sleep(d), d in nanoseconds *)
| EvGoRenewal                                 (* go func() { for { checkNext } }() *)
| EvGoMetrics                                 (* go func() { logex.Fatal(<-errChan) }() *)
| EvMetricsStart
| EvRun                                       (* taskFetcher.Run *)
(* scan cycle *)
| EvFilterLogs (from to : Z)
| EvOnNewLog (log : Log)
| EvHandled (log : Log) (r : option error)
| EvSaveBlock (n : Z).

(** The part of the world the operator changes: the wall clock (in
    nanoseconds since the epoch), the bytes of the offset file, and the
    events so far. *)
Record World : Type := mkWorld {
  clock : Z;
  offset_file : list byte;
  trace : list Event
}.

(** The outcome of a Go function: it returns, or it panics. *)
Inductive outcome (A : Type) : Type :=
| Returns (a : A)
| Panics (p : panic).
Arguments Returns {A} a.
Arguments Panics {A} p.

Definition M (A : Type) : Type := World -> outcome A * World.

Definition ret {A} (a : A) : M A := fun w => (Returns a, w).

Definition bind {A B} (m : M A) (f : A -> M B) : M B :=
  fun w =>
    match m w with
    | (Returns a, w') => f a w'
    | (Panics p, w') => (Panics p, w')
    end.

Declare Scope go_scope.
Delimit Scope go_scope with go.
Notation "x <- c ;; k" := (bind c (fun x => k))
  (at level 61, c at next level, right associativity) : go_scope.
Notation "c ;; k" := (bind c (fun _ => k))
  (at level 61, right associativity) : go_scope.
Open Scope go_scope.

(** Leave an event in the trace. *)
Definition emit (e : Event) : M unit :=
  fun w => (Returns tt, mkWorld (clock w) (offset_file w) (trace w ++ [e])).

(** An external call: it is recorded, and its answer is the one the
    environment holds for it. *)
Definition call {A} (e : Event) (answer : A) : M A :=
  emit e ;; ret answer.

Definition raise {A} (p : panic) : M A := fun w => (Panics p, w).

(** A partial read of a slice: [None] is the panic [p]. *)
Definition orPanic {A} (p : panic) (x : option A) : M A :=
  match x with
  | Some a => ret a
  | None => raise p
  end.

(** ** The offset file *)

Module os.

(** [File.ReadAt(b, off)] on a regular file: the bytes of the file
    from [off] are copied into [b]; fewer than [len(b)] bytes come with
    [io.EOF]. Returns the buffer, the count and the error. *)
Definition ReadAt (b : list byte) (off : nat)
  : M (list byte * Z * option error) :=
  fun w =>
    let got := firstn (length b) (skipn off (offset_file w)) in
    let n := length got in
    (Returns (got ++ skipn n b, Z.of_nat n,
              if (n <? length b)%nat then Some EOF else None), w).

(** [File.WriteAt(b, off)] at [off = 0]: the first [len(b)] bytes of
    the file are replaced, the rest of the file stays. *)
Definition WriteAt0 (b : list byte) : M (Z * option error) :=
  fun w =>
    (Returns (Z.of_nat (length b), None),
     mkWorld (clock w) (b ++ skipn (length b) (offset_file w)) (trace w)).

End os.

(** [make([]byte, n)]. *)
Definition make (n : nat) : list byte := repeat x00 n.

(** Pure functions of packages that are not part of the sources; the
    operator only relies on their types. *)
Record Lib : Type := mkLib {
  (* ABI.Methods["commitBatch"].Inputs.Unpack, projected on args[2] *)
  lib_Unpack : list byte -> error + list Bytes.Slice;
  (* json.Marshal on aggregator.Metadata *)
  lib_Marshal : Metadata -> error + list byte;
  (* Poe.Pack *)
  lib_Pack : Poe -> list byte;
  (* StateHeader.Digest *)
  lib_Digest : StateHeader -> error + Z;
  (* bls.KeyPair.SignMessage *)
  lib_SignMessage : Z -> Z;
  (* generateSimulationQuote *)
  lib_generateSimulationQuote : list byte -> error + list byte;
  (* crypto.Keccak256Hash *)
  lib_Keccak256Hash : list byte -> Hash;
  (* bind.NewKeyedTransactorWithChainID, failure only *)
  lib_NewKeyedTransactorWithChainID : Z -> option error;
  (* runtime.nanotime: what the monotonic clock of the runtime reads (an
     int64, in nanoseconds from an origin of its own) when the wall clock
     reads the argument *)
  lib_nanotime : Z -> Z
}.

(** The answers of the remote services. *)
Record Net : Type := mkNet {
  (* cfg.Client.HeaderByNumber(ctx, nil): the number of the head *)
  net_head : error + Z;
  (* taskFetcher.source.TransactionByHash: the call data *)
  net_tx : Hash -> error + list byte;
  (* taskFetcher.source.HeaderByNumber: the state root *)
  net_header_root : Z -> error + Hash;
  net_GetPoe : Hash -> option PoeResponse * bool * option error;
  net_GetPoeByBlock : Z -> option Poe * option error;
  net_GenerateAttestaionReport : list byte -> error + list byte;
  net_SubmitTask : TaskRequest -> option error;
  net_SubmitStateHeader : StateHeaderRequest -> option error;
  net_Simulation : error + bool;
  net_IsOperatorRegistered : error + bool;
  net_GetOperatorId : Z * option error;
  net_RegisterAsOperator : option error;
  net_RegisterOperatorInQuorum : option error;
  net_VerifyLivenessProof : list byte -> list byte -> error + bool;
  net_IsProverRegistered : list byte -> list byte -> error + bool;
  net_ChainID : error + Z;
  net_SubmitLivenessProof : list byte -> error + Hash;
  net_Register : list byte -> error + Hash;
  net_WaitTx : Hash -> option error;
  (* TEELivenessVerifier.AttestValiditySeconds, a uint256 *)
  net_AttestValiditySeconds : error + Z;
  (* TEELivenessVerifier.AttestedProvers(key).Time, a uint256 *)
  net_AttestedProvers : Hash -> error + Z;
  (* what taskFetcher.Run comes back with, if it does *)
  net_Run : option error
}.

(** [LogTracerConfig], as [NewOperator] fills it; the handler is the
    operator itself. *)
Record LogTracerConfig : Type := mkLogTracerConfig {
  Id : string;
  Wait : Z;
  Max : Z;
  ScanIntervalSecs : Z;
  cfg_Topics : list (list Hash);
  cfg_Addresses : list Address;
  SkipOnError : bool
}.

(** [time.Now().Unix()]. *)
Definition Unix : M Z := fun w => (Returns (clock w / 10 ^ 9), w).

Definition Second : Z := 10 ^ 9.

(** [big.Int.Int64()]: the low 64 bits. *)
Definition Int64 (x : Z) : Z := Int.i64 x.

(** Arithmetic on [int64]. *)
Definition add64 (x y : Z) : Z := Int.i64 (x + y).
Definition sub64 (x y : Z) : Z := Int.i64 (x - y).
Definition mul64 (x y : Z) : Z := Int.i64 (x * y).

(** [maxWhen] of the runtime: the latest time a timer can be set to. *)
Definition maxWhen : Z := 2 ^ 63 - 1.

(** The wall clock at the return of [time.Sleep(d)], that is of
    [timeSleep] of the runtime, called when the wall clock reads [wall]:
    for [d <= 0] it returns at once; otherwise the goroutine is woken when
    the clock of the runtime reaches [when = nanotime() + d], and a sum
    that overflows [int64] ([when < 0]) is replaced by [maxWhen], so that
    a wait which does not fit is cut short. The wall clock moves with the
    clock of the runtime; the goroutine goes on as soon as it is woken
    (the earliest it can). *)
Definition wakeup (lib : Lib) (d wall : Z) : Z :=
  if d <=? 0 then wall
  else
    let now := lib_nanotime lib wall in
    let when := add64 now d in
    let when := if when <? 0 then maxWhen else when in
    wall + (when - now).

(** [time.Sleep(d)]. *)
Definition Sleep (lib : Lib) (d : Z) : M unit :=
  emit (EvSleep d) ;;
  fun w =>
    (Returns tt, mkWorld (wakeup lib d (clock w)) (offset_file w) (trace w)).

(** ** The operator with checkpoint and attestation renewal *)

Module OperatorV2.

Record Operator : Type := mkOperator {
  Simulation : bool;                    (* cfg.Config.Simulation *)
  cfg_Identifier : Z;                   (* cfg.Config.Identifier *)
  PubKey : list byte;                   (* cfg.BlsKey.PubKey.Serialize() *)
  operatorAddress : Address;
  operatorId : Z;
  quorumNumbers : list byte;
  taskFetcher : option LogTracerConfig
}.

(** The log tracer [NewOperator] sets up when a task fetcher is
    configured. *)
Definition NewLogTracerConfig (scanIntervalSecs : Z)
    (topics : list (list Hash)) (addresses : list Address)
  : LogTracerConfig :=
  {| Id := "operator-log-tracer";
     Wait := 5;
     Max := 100;
     ScanIntervalSecs := scanIntervalSecs;
     cfg_Topics := topics;
     cfg_Addresses := addresses;
     SkipOnError := true |}.

Definition GetBlock : M (Z * option error) :=
  r <- os.ReadAt (make 16) 0 ;;
  let '(data, n, err) := r in
  if n =? 0 then
    match err with
    | Some EOF => ret (0, None)
    | _ => ret (0, option_map Trace err)
    end
  else
    data <- orPanic SliceOutOfRange (Bytes.slice data 0 n) ;;
    let data := Bytes.Trim data Bytes.cutset in
    let '(number, err) := strconv.ParseInt data in
    match err with
    | Some e => ret (0, Some (Trace e))
    | None => ret (Int.u64 number, None)
    end.

Definition SaveBlock (offset : Z) : M (option error) :=
  let data := strconv.FormatUint offset in
  r <- os.WriteAt0 data ;;
  ret (snd r).

(** The inner loop of [proverGetPoe] over the block records of one
    chunk: [i] runs up to [int(chunk[0])], [todo] rounds remain. *)
Fixpoint scanBlocks (chunk : Bytes.Slice) (todo : nat) (i : Z)
    (startBlock endBlock : Z) : outcome (Z * Z) :=
  match todo with
  | O => Returns (startBlock, endBlock)
  | S k =>
      match Bytes.reslice chunk 1 (Z.of_nat (length (Bytes.elems chunk))) with
      | None => Panics SliceOutOfRange
      | Some records =>
          match Bytes.reslice records (i * 60) (i * 60 + 8) with
          | None => Panics SliceOutOfRange
          | Some b =>
              let blockNumber := Int.i64 (Bytes.be_value (Bytes.elems b)) in
              if startBlock =? 0
              then scanBlocks chunk k (i + 1) blockNumber endBlock
              else scanBlocks chunk k (i + 1) startBlock blockNumber
          end
      end
  end.

(** The outer loop over the chunks. *)
Fixpoint scanChunks (chunks : list Bytes.Slice) (startBlock endBlock : Z)
  : outcome (Z * Z) :=
  match chunks with
  | [] => Returns (startBlock, endBlock)
  | chunk :: rest =>
      match Bytes.index (Bytes.elems chunk) 0 with
      | None => Panics IndexOutOfRange
      | Some count =>
          match scanBlocks chunk (Z.to_nat (Bytes.to_Z count)) 0
                           startBlock endBlock with
          | Returns (s, e) => scanChunks rest s e
          | Panics p => Panics p
          end
      end
  end.

Definition lift {A} (x : outcome A) : M A := fun w => (x, w).

Definition proverGetPoe (o : Operator) (lib : Lib) (net : Net)
    (txHash : Hash) (topics : list Hash)
  : M (option PoeResponse * bool * option error) :=
  if Simulation o then
    _ <- orPanic NilDereference (taskFetcher o) ;;
    r <- call (EvSourceTransactionByHash txHash) (net_tx net txHash) ;;
    match r with
    | inl err => ret (None, false, Some (Trace err))
    | inr data =>
        input <- orPanic SliceOutOfRange
                   (Bytes.slice data 4 (Z.of_nat (length data))) ;;
        match lib_Unpack lib input with
        | inl err => ret (None, false, Some (Trace err))
        | inr chunks =>
            r <- lift (scanChunks chunks 0 0) ;;
            let '(startBlock, endBlock) := r in
            r <- call (EvSourceHeaderByNumber startBlock)
                      (net_header_root net startBlock) ;;
            match r with
            | inl err => ret (None, false, Some (Trace err))
            | inr startRoot =>
                r <- call (EvSourceHeaderByNumber endBlock)
                          (net_header_root net endBlock) ;;
                match r with
                | inl err => ret (None, false, Some (Trace err))
                | inr endRoot =>
                    batchHash <- orPanic IndexOutOfRange
                                   (nth_error topics 2) ;;
                    ret (Some {| resp_Poe :=
                                   Some {| BatchHash := batchHash;
                                           NewStateRoot := endRoot;
                                           PrevStateRoot := startRoot |};
                                 BatchId := 0;
                                 StartBlock := Int.u64 startBlock;
                                 EndBlock := Int.u64 endBlock |},
                         false, None)
                end
            end
        end
    end
  else
    _ <- orPanic IndexOutOfRange (nth_error topics 2) ;;
    emit (EvInfo "fetching poe for batch") ;;
    r <- call (EvGetPoe txHash) (net_GetPoe net txHash) ;;
    let '(poe, skip, err) := r in
    match err with
    | Some e => ret (None, skip, Some (Trace e))
    | None => ret (poe, skip, None)
    end.

Definition OnNewLog (o : Operator) (lib : Lib) (net : Net) (log : Log)
  : M (option error) :=
  r <- call (EvHeaderByNumber None) (net_head net) ;;
  match r with
  | inl err => ret (Some (Trace err))
  | inr number =>
      r <- proverGetPoe o lib net (TxHash log) (Topics log) ;;
      let '(poe, skip, err) := r in
      match err with
      | Some e => ret (Some (Trace e))
      | None =>
          if skip then ret None
          else
            poe <- orPanic NilDereference poe ;;
            let md := {| md_BatchId := BatchId poe;
                         md_StartBlock := StartBlock poe;
                         md_EndBlock := EndBlock poe |} in
            match lib_Marshal lib md with
            | inl err => ret (Some (Trace err))
            | inr mdBytes =>
                p <- orPanic NilDereference (resp_Poe poe) ;;
                let stateHeader :=
                  {| Identifier := cfg_Identifier o;
                     hdr_Metadata := mdBytes;
                     State := lib_Pack lib p;
                     QuorumNumbers := quorumNumbers o;
                     QuorumThresholdPercentages := [x00];
                     ReferenceBlockNumber :=
                       Int.u32 (sub64 (Int64 number) 1) |} in
                emit (EvPretty stateHeader) ;;
                r <- call (EvDigest stateHeader)
                          (lib_Digest lib stateHeader) ;;
                match r with
                | inl err => ret (Some (Trace err))
                | inr digest =>
                    sig <- call (EvSignMessage digest)
                                (lib_SignMessage lib digest) ;;
                    let req := {| Task := stateHeader;
                                  task_Signature := sig;
                                  task_OperatorId := operatorId o |} in
                    r <- call (EvSubmitTask req) (net_SubmitTask net req) ;;
                    match r with
                    | Some err => ret (Some (Trace err))
                    | None => ret None
                    end
                end
            end
      end
  end.

Definition proverGetAttestationReport (o : Operator) (lib : Lib) (net : Net)
    (pubkey : list byte) : M (list byte * option error) :=
  if Simulation o then
    match lib_generateSimulationQuote lib pubkey with
    | inl err => ret ([], Some (Trace err))
    | inr quote => ret (quote, None)
    end
  else
    r <- call (EvGenerateAttestaionReport pubkey)
              (net_GenerateAttestaionReport net pubkey) ;;
    match r with
    | inl err => ret ([], Some (Trace err))
    | inr quote => ret (quote, None)
    end.

Definition registerAttestationReport (o : Operator) (lib : Lib) (net : Net)
    (pubkeyBytes : list byte) : M (option error) :=
  r <- proverGetAttestationReport o lib net pubkeyBytes ;;
  let '(report, err) := r in
  match err with
  | Some e => ret (Some (Trace e))
  | None =>
      r <- call EvChainID (net_ChainID net) ;;
      match r with
      | inl err => ret (Some (Trace err))
      | inr chainId =>
          match lib_NewKeyedTransactorWithChainID lib chainId with
          | Some err => ret (Some (Trace err))
          | None =>
              r <- call (EvSubmitLivenessProof report)
                        (net_SubmitLivenessProof net report) ;;
              match r with
              | inl err => ret (Some (Trace err))
              | inr tx =>
                  emit (EvInfo "submitted liveness proof") ;;
                  r <- call (EvWaitTx tx) (net_WaitTx net tx) ;;
                  match r with
                  | Some err => ret (Some (Trace err))
                  | None =>
                      emit (EvInfo "registered in TEELivenessVerifier") ;;
                      ret None
                  end
              end
          end
      end
  end.

(** The closure [checkNext] of [RegisterAttestationReport]. *)
Definition checkNext (o : Operator) (lib : Lib) (net : Net)
    (pubkeyBytes : list byte) : M (option error) :=
  r <- call EvAttestValiditySeconds (net_AttestValiditySeconds net) ;;
  match r with
  | inl err => ret (Some (Trace err))
  | inr validSecs =>
      let key := lib_Keccak256Hash lib pubkeyBytes in
      r <- call (EvAttestedProvers key) (net_AttestedProvers net key) ;;
      match r with
      | inl err => ret (Some (Trace err))
      | inr proverTime =>
          let deadline := add64 (Int64 proverTime) (Int64 validSecs) in
          now <- Unix ;;
          emit (EvInfo "next attestation will be at") ;;
          (if deadline >? add64 now 300
           then Sleep lib (mul64 (sub64 (sub64 deadline now) 300) Second)
           else ret tt) ;;
          registerAttestationReport o lib net pubkeyBytes
      end
  end.

(** The body of the background goroutine,
    [for { if err := checkNext(ctx); err != nil { logex.Error(err) } }],
    unrolled [rounds] times; round [i] talks to [nets i]. The loop has no
    exit. *)
Definition renewalRound (o : Operator) (lib : Lib) (net : Net)
    (pubkeyBytes : list byte) : M unit :=
  err <- checkNext o lib net pubkeyBytes ;;
  match err with
  | Some e => emit (EvError e)
  | None => ret tt
  end.

Fixpoint renewalLoop (o : Operator) (lib : Lib) (nets : nat -> Net)
    (pubkeyBytes : list byte) (i rounds : nat) : M unit :=
  match rounds with
  | O => ret tt
  | S k =>
      renewalRound o lib (nets i) pubkeyBytes ;;
      renewalLoop o lib nets pubkeyBytes (S i) k
  end.

Definition RegisterAttestationReport (o : Operator) (lib : Lib) (net : Net)
  : M (option error) :=
  emit (EvInfo "checking tee liveness...") ;;
  let pubkeyBytes := PubKey o in
  if negb (Z.of_nat (length pubkeyBytes) =? 64)
  then ret (Some (Errorf "invalid pubkey"))
  else
    x <- orPanic SliceOutOfRange (Bytes.slice pubkeyBytes 0 32) ;;
    y <- orPanic SliceOutOfRange (Bytes.slice pubkeyBytes 32 64) ;;
    r <- call (EvVerifyLivenessProof x y) (net_VerifyLivenessProof net x y) ;;
    match r with
    | inl err => ret (Some (Trace err))
    | inr isRegistered =>
        err <- (if isRegistered : bool
                then emit (EvInfo "Operater has registered on TEE Liveness Verifier") ;;
                     ret None
                else registerAttestationReport o lib net pubkeyBytes) ;;
        match err with
        | Some e => ret (Some (Trace e))
        | None =>
            emit EvGoRenewal ;;
            ret None
        end
    end.

(** [checkIsRegistered] stores the operator id it reads. *)
Definition checkIsRegistered (o : Operator) (net : Net)
  : M (option error * Operator) :=
  r <- call EvIsOperatorRegistered (net_IsOperatorRegistered net) ;;
  match r with
  | inl err => ret (Some (Trace err), o)
  | inr operatorIsRegistered =>
      if negb operatorIsRegistered
      then ret (Some (Errorf "operator is not registered"), o)
      else
        r <- call EvGetOperatorId (net_GetOperatorId net) ;;
        let '(id, err) := r in
        let o' := {| Simulation := Simulation o;
                     cfg_Identifier := cfg_Identifier o;
                     PubKey := PubKey o;
                     operatorAddress := operatorAddress o;
                     operatorId := id;
                     quorumNumbers := quorumNumbers o;
                     taskFetcher := taskFetcher o |} in
        match err with
        | Some e => ret (Some (Trace e), o')
        | None => ret (None, o')
        end
  end.

Definition Start (o : Operator) (lib : Lib) (net : Net)
  : M (option error * Operator) :=
  emit (EvInfo "starting operator...") ;;
  r <- call EvSimulation (net_Simulation net) ;;
  match r with
  | inl err => ret (Some (Trace err), o)
  | inr isSimulation =>
      if negb (Bool.eqb isSimulation (Simulation o))
      then ret (Some (Errorf "simulation mode not match with the contract"), o)
      else
        r <- checkIsRegistered o net ;;
        let '(err, o) := r in
        match err with
        | Some e => ret (Some (Trace e), o)
        | None =>
            err <- RegisterAttestationReport o lib net ;;
            match err with
            | Some e => ret (Some (Trace e), o)
            | None =>
                emit EvMetricsStart ;;
                emit EvGoMetrics ;;
                emit (EvInfo "Started Operator...") ;;
                _ <- orPanic NilDereference (taskFetcher o) ;;
                err <- call EvRun (net_Run net) ;;
                match err with
                | Some e => ret (Some (Trace e), o)
                | None => ret (None, o)
                end
            end
        end
  end.

End OperatorV2.

(** ** The simplified operator of [operator/operator.go] *)

Module OperatorV1.

Record Operator : Type := mkOperator {
  PubKey : list byte;                   (* blsKeyPair.PubKey.Serialize() *)
  operatorAddress : Address;
  operatorId : Z;
  taskFetcher : option LogTracerConfig
}.

(** The log tracer of [NewOperator]; the fields the literal leaves out
    have Go's zero values. *)
Definition NewLogTracerConfig (topics : list (list Hash))
    (addresses : list Address) : LogTracerConfig :=
  {| Id := "operator-log-tracer";
     Wait := 5;
     Max := 100;
     ScanIntervalSecs := 0;
     cfg_Topics := topics;
     cfg_Addresses := addresses;
     SkipOnError := false |}.

Definition GetBlock : M (Z * option error) := ret (0, None).

Definition SaveBlock (offset : Z) : M (option error) := ret None.

Definition OnNewLog (o : Operator) (lib : Lib) (net : Net) (log : Log)
  : M (option error) :=
  prefix <- orPanic SliceOutOfRange (Bytes.slice (Data log) 0 32) ;;
  let blockNumber := Bytes.be_value prefix in
  let number := Int.u64 (Int64 blockNumber) in
  r <- call (EvGetPoeByBlock number) (net_GetPoeByBlock net number) ;;
  let '(poe, err) := r in
  match err with
  | Some e => ret (Some (Trace e))
  | None =>
      p <- orPanic NilDereference poe ;;
      let stateHeader :=
        {| Identifier := 1;
           hdr_Metadata := [];
           State := lib_Pack lib p;
           QuorumNumbers := [x00];
           QuorumThresholdPercentages := [x00];
           ReferenceBlockNumber := 0 |} in
      r <- call (EvDigest stateHeader) (lib_Digest lib stateHeader) ;;
      match r with
      | inl err => ret (Some (Trace err))
      | inr digest =>
          sig <- call (EvSignMessage digest) (lib_SignMessage lib digest) ;;
          let pubkey := PubKey o in
          let req := {| req_StateHeader := stateHeader;
                        req_Signature := sig;
                        req_Pubkey := pubkey;
                        req_OperatorId := operatorId o |} in
          r <- call (EvSubmitStateHeader req)
                    (net_SubmitStateHeader net req) ;;
          match r with
          | Some err => ret (Some (Trace err))
          | None => ret None
          end
      end
  end.

Definition checkIsRegistered (o : Operator) (net : Net) : M (option error) :=
  r <- call EvIsOperatorRegistered (net_IsOperatorRegistered net) ;;
  match r with
  | inl err => ret (Some (Trace err))
  | inr operatorIsRegistered =>
      if negb operatorIsRegistered
      then ret (Some (Errorf "operator is not registered. Registering operator using the operator-cli before starting operator"))
      else ret None
  end.

Definition RegisterAttestationReport (o : Operator) (lib : Lib) (net : Net)
  : M (option error) :=
  let pubkeyBytes := PubKey o in
  if negb (Z.of_nat (length pubkeyBytes) =? 64)
  then ret (Some (Errorf "invalid pubkey"))
  else
    x <- orPanic SliceOutOfRange (Bytes.slice pubkeyBytes 0 32) ;;
    y <- orPanic SliceOutOfRange (Bytes.slice pubkeyBytes 32 64) ;;
    r <- call (EvIsProverRegistered x y) (net_IsProverRegistered net x y) ;;
    match r with
    | inl err => ret (Some (Trace err))
    | inr isRegistered =>
        if isRegistered : bool then ret None
        else
          r <- call (EvGenerateAttestaionReport pubkeyBytes)
                    (net_GenerateAttestaionReport net pubkeyBytes) ;;
          match r with
          | inl err => ret (Some (Trace err))
          | inr report =>
              r <- call EvChainID (net_ChainID net) ;;
              match r with
              | inl err => ret (Some (Trace err))
              | inr chainId =>
                  match lib_NewKeyedTransactorWithChainID lib chainId with
                  | Some err => ret (Some (Trace err))
                  | None =>
                      r <- call (EvRegister report) (net_Register net report) ;;
                      match r with
                      | inl err => ret (Some (Trace err))
                      | inr tx =>
                          r <- call (EvWaitTx tx) (net_WaitTx net tx) ;;
                          match r with
                          | Some err => ret (Some (Trace err))
                          | None => ret None
                          end
                      end
                  end
              end
          end
    end.

Definition RegisterOperatorWithEigenlayer (net : Net) : M (option error) :=
  r <- call EvRegisterAsOperator (net_RegisterAsOperator net) ;;
  match r with
  | Some err =>
      emit (EvError (Errorf "Error registering operator with eigenlayer")) ;;
      ret (Some err)
  | None => ret None
  end.

Definition RegisterOperatorWithAvs (net : Net) : M (option error) :=
  let sigValidForSeconds := 1000000 in
  now <- Unix ;;
  let expiry := add64 now sigValidForSeconds in
  r <- call (EvRegisterOperatorInQuorum expiry)
            (net_RegisterOperatorInQuorum net) ;;
  match r with
  | Some err => ret (Some (Trace err))
  | None =>
      emit (EvInfo "Registered operator with avs registry coordinator.") ;;
      ret None
  end.

Definition Start (o : Operator) (lib : Lib) (net : Net) : M (option error) :=
  err <- RegisterOperatorWithEigenlayer net ;;
  match err with
  | Some e => ret (Some (Trace e))
  | None =>
      err <- RegisterOperatorWithAvs net ;;
      match err with
      | Some e => ret (Some (Trace e))
      | None =>
          err <- RegisterAttestationReport o lib net ;;
          match err with
          | Some e => ret (Some (Trace e))
          | None =>
              emit (EvInfo "Start Operator...") ;;
              err <- checkIsRegistered o net ;;
              match err with
              | Some e => ret (Some (Trace e))
              | None =>
                  _ <- orPanic NilDereference (taskFetcher o) ;;
                  err <- call EvRun (net_Run net) ;;
                  match err with
                  | Some e => ret (Some (Trace e))
                  | None => ret None
                  end
              end
          end
      end
  end.

End OperatorV1.

(** ** The chain event tracer *)

Module LogTracer.

(** The callbacks [NewLogTracer] is given with its [Handler]; both
    operators implement them. *)
Class Handler (H : Type) : Type := {
  GetBlock : H -> M (Z * option error);
  SaveBlock : H -> Z -> M (option error);
  OnNewLog : H -> Log -> M (option error)
}.

(** Modelled from the spec: the chain RPC the tracer polls, which the
    sources only name ([ethclient.Dial] of the task fetcher endpoint): its
    head, and all its logs in the order the chain has them. *)
Record Chain : Type := mkChain {
  chain_head : error + Z;
  chain_logs : error + list Log
}.

(** Modelled from the spec: the topic part of the event filter of the
    tracer, which is not among the sources: each configured topic
    position is matched by the topic the log has there (any topic when
    the position lists none). *)
Fixpoint matchTopics (want : list (list Hash)) (have : list Hash) : bool :=
  match want, have with
  | [], _ => true
  | _ :: _, [] => false
  | alts :: want', t :: have' =>
      (match alts with [] => true | _ => existsb (Z.eqb t) alts end)
      && matchTopics want' have'
  end.

(** Modelled from the spec: the event filter of the tracer, which is not
    among the sources: a log matches when its address is one of the
    configured ones (any address when none is configured) and its topics
    match. *)
Definition matches (cfg : LogTracerConfig) (log : Log) : bool :=
  (match cfg_Addresses cfg with
   | [] => true
   | addrs => existsb (Z.eqb (log_Address log)) addrs
   end)
  && matchTopics (cfg_Topics cfg) (Topics log).

(** Modelled from the spec: the scan target of a cycle, which
    [LogTracer.Run] (not among the sources) computes:
    target = min(C + maxBlocksPerWindow, H - confirmationLag). *)
Definition target (cfg : LogTracerConfig) (C H : Z) : Z :=
  Z.min (C + Max cfg) (H - Wait cfg).

(** Modelled from the spec: the window (C, target] of step (4), which
    [LogTracer.Run] (not among the sources) scans. *)
Definition inWindow (C tgt : Z) (log : Log) : bool :=
  (C <? BlockNumber log) && (BlockNumber log <=? tgt).

(** Modelled from the spec: the fetch of step (4), which [LogTracer.Run]
    (not among the sources) performs: the logs in (C, target] that match
    the filter. *)
Definition FilterLogs (cfg : LogTracerConfig) (chain : Chain) (C tgt : Z)
  : M (error + list Log) :=
  call (EvFilterLogs (C + 1) tgt)
       (match chain_logs chain with
        | inl err => inl err
        | inr logs =>
            inr (filter (fun l => inWindow C tgt l && matches cfg l) logs)
        end).

(** Modelled from the spec: the dispatch of step (5), which
    [LogTracer.Run] (not among the sources) performs: each log goes to
    the handler in turn; on a handler error a skip-tolerant tracer logs
    it and goes on, any other aborts. The result tells whether the
    window was handled to its end. *)
Fixpoint dispatch {H} `{Handler H} (cfg : LogTracerConfig) (h : H)
    (logs : list Log) : M (option error) :=
  match logs with
  | [] => ret None
  | log :: rest =>
      emit (EvOnNewLog log) ;;
      err <- OnNewLog h log ;;
      emit (EvHandled log err) ;;
      match err with
      | None => dispatch cfg h rest
      | Some e =>
          if SkipOnError cfg
          then emit (EvError e) ;; dispatch cfg h rest
          else ret (Some e)
      end
  end.

(** Modelled from the spec: the ways a cycle of [LogTracer.Run] (not
    among the sources) ends, after section 4.1. *)
Inductive CycleResult : Type :=
| Advanced (tgt : Z)       (* the window was handled, checkpoint = target *)
| Idle                     (* target <= C: nothing to scan yet *)
| Retry (e : error)        (* transport error: same window next cycle *)
| Aborted (e : error)      (* handler error without skip tolerance *)
| Failed (e : error).      (* the checkpoint could not be read or written *)

(** Modelled from the spec: the poll interval of [LogTracer.Run] (not
    among the sources), the configured scan interval in seconds. *)
Definition pollInterval (cfg : LogTracerConfig) : Z :=
  ScanIntervalSecs cfg * Second.

(** Modelled from the spec: the sleep of [LogTracer.Run] (not among the
    sources) at the end of a cycle: when it is over the clock has advanced
    by the interval; an interval that is not positive takes no time. *)
Definition sleep (d : Z) : M unit :=
  emit (EvSleep d) ;;
  fun w => (Returns tt,
            mkWorld (if 0 <? d then clock w + d else clock w)
                    (offset_file w) (trace w)).

(** Modelled from the spec: steps (5) and (6) of a cycle of
    [LogTracer.Run], which is not among the sources: the logs of the
    window are dispatched; on window success the checkpoint is set to the
    target and the tracer sleeps; a handler error without skip tolerance
    aborts the cycle and leaves the checkpoint. The spec does not say
    what a failing checkpoint write leads to; the cycle here ends with
    [Failed]. *)
Definition window {H} `{Handler H} (cfg : LogTracerConfig) (h : H)
    (tgt : Z) (logs : list Log) : M CycleResult :=
  r <- dispatch cfg h logs ;;
  match r with
  | Some e => ret (Aborted e)
  | None =>
      emit (EvSaveBlock tgt) ;;
      err <- SaveBlock h tgt ;;
      match err with
      | Some e => ret (Failed e)
      | None => sleep (pollInterval cfg) ;; ret (Advanced tgt)
      end
  end.

(** Modelled from the spec: one cycle of [LogTracer.Run], which is not
    among the sources, after section 4.1: (1) read checkpoint C,
    (2) read chain head H, (3) compute the target and sleep when
    target <= C, (4) fetch the logs in (C, target], then steps (5) and
    (6). Transport errors sleep the poll interval and leave the
    checkpoint. The spec does not say what a failing checkpoint read
    leads to; the cycle here ends with [Failed]. *)
Definition cycle {H} `{Handler H} (cfg : LogTracerConfig) (h : H)
    (chain : Chain) : M CycleResult :=
  r <- GetBlock h ;;
  let '(C, err) := r in
  match err with
  | Some e => ret (Failed e)
  | None =>
      match chain_head chain with
      | inl e => sleep (pollInterval cfg) ;; ret (Retry e)
      | inr head =>
          let tgt := target cfg C head in
          if tgt <=? C then sleep (pollInterval cfg) ;; ret Idle
          else
            r <- FilterLogs cfg chain C tgt ;;
            match r with
            | inl e => sleep (pollInterval cfg) ;; ret (Retry e)
            | inr logs => window cfg h tgt logs
            end
      end
  end.

(** The order of the chain on logs: by block, then by index. *)
Definition log_lt (a b : Log) : Prop :=
  BlockNumber a < BlockNumber b
  \/ (BlockNumber a = BlockNumber b /\ Index a < Index b).

(** The logs handed to the handler, in the order of the calls. *)
Fixpoint dispatched (t : list Event) : list Log :=
  match t with
  | [] => []
  | EvOnNewLog log :: t' => log :: dispatched t'
  | _ :: t' => dispatched t'
  end.

(** The logs whose handler call has come back. *)
Fixpoint handled (t : list Event) : list Log :=
  match t with
  | [] => []
  | EvHandled log _ :: t' => log :: handled t'
  | _ :: t' => handled t'
  end.

End LogTracer.

#[export] Instance HandlerV1 : LogTracer.Handler (OperatorV1.Operator * Lib * Net) :=
  {| LogTracer.GetBlock := fun _ => OperatorV1.GetBlock;
     LogTracer.SaveBlock := fun _ => OperatorV1.SaveBlock;
     LogTracer.OnNewLog := fun '(o, lib, net) => OperatorV1.OnNewLog o lib net |}.

#[export] Instance HandlerV2 : LogTracer.Handler (OperatorV2.Operator * Lib * Net) :=
  {| LogTracer.GetBlock := fun _ => OperatorV2.GetBlock;
     LogTracer.SaveBlock := fun _ => OperatorV2.SaveBlock;
     LogTracer.OnNewLog := fun '(o, lib, net) => OperatorV2.OnNewLog o lib net |}.

(** ** The contract ABI of [commitBatch]

    go-ethereum's decoder for the inputs
    [(uint8 _version, bytes _parentBatchHeader, bytes[] _chunks,
      bytes _skippedL1MessageBitmap)], used to run the operator on concrete
    call data, and the encoder that builds such call data. The operator
    itself takes the decoder from [Lib]. *)

Module abi.

Definition len (s : list byte) : Z := Z.of_nat (length s).

Definition errLength : error := Remote "abi: length insufficient".
Definition errOffset : error := Remote "abi: offset or length out of bounds".

(** [lengthPrefixPointsTo]: the start and the length of the dynamic value
    whose offset is the word at [index]. *)
Definition lengthPrefixPointsTo (index : Z) (output : list byte)
  : error + (Z * Z) :=
  match Bytes.slice output index (index + 32) with
  | None => inl errLength
  | Some w =>
      let offsetEnd := Bytes.be_value w + 32 in
      if (len output <? offsetEnd) || (2 ^ 63 <=? offsetEnd) then inl errOffset
      else
        match Bytes.slice output (offsetEnd - 32) offsetEnd with
        | None => inl errOffset
        | Some lw =>
            let length := Bytes.be_value lw in
            let totalSize := offsetEnd + length in
            if (2 ^ 63 <=? totalSize) || (len output <? totalSize)
            then inl errOffset
            else inr (offsetEnd, length)
        end
  end.

(** [toGoType] at type [bytes]: the value is cut out of [output] and
    keeps the rest of [output] as spare capacity. *)
Definition unpackBytes (index : Z) (output : list byte)
  : error + Bytes.Slice :=
  if len output <? index + 32 then inl errLength
  else
    match lengthPrefixPointsTo index output with
    | inl e => inl e
    | inr (begin, length) =>
        match Bytes.slice output begin (begin + length) with
        | None => inl errOffset
        | Some b =>
            inr (Bytes.mkSlice b (skipn (Z.to_nat (begin + length)) output))
        end
    end.

(** [forEachUnpack] at element type [bytes]: [size] elements from
    element [j] on. *)
Fixpoint forEachUnpack (output : list byte) (j : Z) (size : nat)
  : error + list Bytes.Slice :=
  match size with
  | O => inr []
  | S k =>
      match unpackBytes (32 * j) output with
      | inl e => inl e
      | inr b =>
          match forEachUnpack output (j + 1) k with
          | inl e => inl e
          | inr bs => inr (b :: bs)
          end
      end
  end.

(** [toGoType] at type [bytes[]]. *)
Definition unpackBytesSlice (index : Z) (output : list byte)
  : error + list Bytes.Slice :=
  if len output <? index + 32 then inl errLength
  else
    match lengthPrefixPointsTo index output with
    | inl e => inl e
    | inr (begin, size) =>
        match Bytes.slice output begin (len output) with
        | None => inl errOffset
        | Some elems =>
            if len elems <? 32 * size then inl errOffset
            else forEachUnpack elems 0 (Z.to_nat size)
        end
    end.

(** [toGoType] at type [uint8]. *)
Definition unpackUint8 (index : Z) (output : list byte) : error + Z :=
  match Bytes.slice output index (index + 32) with
  | None => inl errLength
  | Some w =>
      if 255 <? Bytes.be_value w then inl (Remote "abi: improperly encoded uint8 value")
      else inr (Bytes.be_value w)
  end.

(** [ABI.Methods["commitBatch"].Inputs.Unpack(data)], then [args[2]]. *)
Definition Unpack (data : list byte) : error + list Bytes.Slice :=
  match data with
  | [] => inl (Remote "abi: attempting to unmarshall an empty string while arguments are expected")
  | _ =>
      match unpackUint8 0 data with
      | inl e => inl e
      | inr _ =>
          match unpackBytes 32 data with
          | inl e => inl e
          | inr _ =>
              match unpackBytesSlice 64 data with
              | inl e => inl e
              | inr chunks =>
                  match unpackBytes 96 data with
                  | inl e => inl e
                  | inr _ => inr chunks
                  end
              end
          end
      end
  end.

(** The encoder. *)
Fixpoint be_bytes (n : nat) (v : Z) : list byte :=
  match n with
  | O => []
  | S k => be_bytes k (v / 256) ++ [Bytes.of_Z v]
  end.

Definition word (v : Z) : list byte := be_bytes 32 v.

Definition padded (b : list byte) : list byte :=
  b ++ repeat x00 (Z.to_nat ((- len b) mod 32)).

Definition encBytes (b : list byte) : list byte := word (len b) ++ padded b.

(** Offsets of the elements, then the elements. *)
Fixpoint encElems (bs : list (list byte)) (offset : Z)
  : list byte * list byte :=
  match bs with
  | [] => ([], [])
  | b :: rest =>
      let e := encBytes b in
      let '(heads, tails) := encElems rest (offset + len e) in
      (word offset ++ heads, e ++ tails)
  end.

Definition encBytesSlice (bs : list (list byte)) : list byte :=
  let '(heads, tails) := encElems bs (32 * len (map (fun _ => x00) bs)) in
  word (len (map (fun _ => x00) bs)) ++ heads ++ tails.

(** The four-byte selector, then the encoded arguments. *)
Definition commitBatch (selector : list byte) (version : Z)
    (parentBatchHeader : list byte) (chunks : list (list byte))
    (bitmap : list byte) : list byte :=
  let a1 := encBytes parentBatchHeader in
  let a2 := encBytesSlice chunks in
  let a3 := encBytes bitmap in
  selector
  ++ word version
  ++ word 128
  ++ word (128 + len a1)
  ++ word (128 + len a1 + len a2)
  ++ a1 ++ a2 ++ a3.

End abi.

(** ** Concrete surroundings

    A library and a network in which every call succeeds, used to run the
    operators on concrete inputs; the setters change one answer. *)

Module Sample.

(** Modelled from the spec: [Poe.Pack], which is not among the sources:
    the fixed-layout concatenation of the 32-byte fields previous root,
    new root, batch hash. *)
Definition Pack (p : Poe) : list byte :=
  abi.word (PrevStateRoot p) ++ abi.word (NewStateRoot p)
  ++ abi.word (BatchHash p).

(** The sample library. The clock of its runtime reads what the wall
    clock reads. *)
Definition lib : Lib :=
  {| lib_Unpack := abi.Unpack;
     lib_Marshal := fun md =>
       inr (abi.be_bytes 8 (md_BatchId md) ++ abi.be_bytes 8 (md_StartBlock md)
            ++ abi.be_bytes 8 (md_EndBlock md));
     lib_Pack := Pack;
     lib_Digest := fun h => inr (Bytes.be_value (hdr_Metadata h) + ReferenceBlockNumber h);
     lib_SignMessage := fun d => d + 1;
     lib_generateSimulationQuote := fun pubkey => inr pubkey;
     lib_Keccak256Hash := fun b => Bytes.be_value (firstn 4 b);
     lib_NewKeyedTransactorWithChainID := fun _ => None;
     lib_nanotime := fun wall => wall |}.

Definition poe : Poe :=
  {| BatchHash := 3; NewStateRoot := 2; PrevStateRoot := 1 |}.

Definition response : PoeResponse :=
  {| resp_Poe := Some poe; BatchId := 9; StartBlock := 7; EndBlock := 8 |}.

Definition net : Net :=
  {| net_head := inr 160;
     net_tx := fun _ => inr [];
     net_header_root := fun n => inr (1000 + n);
     net_GetPoe := fun _ => (Some response, false, None);
     net_GetPoeByBlock := fun _ => (Some poe, None);
     net_GenerateAttestaionReport := fun pubkey => inr pubkey;
     net_SubmitTask := fun _ => None;
     net_SubmitStateHeader := fun _ => None;
     net_Simulation := inr false;
     net_IsOperatorRegistered := inr true;
     net_GetOperatorId := (77, None);
     net_RegisterAsOperator := None;
     net_RegisterOperatorInQuorum := None;
     net_VerifyLivenessProof := fun _ _ => inr true;
     net_IsProverRegistered := fun _ _ => inr true;
     net_ChainID := inr 1;
     net_SubmitLivenessProof := fun _ => inr 500;
     net_Register := fun _ => inr 501;
     net_WaitTx := fun _ => None;
     net_AttestValiditySeconds := inr 1000;
     net_AttestedProvers := fun _ => inr 1700000000;
     net_Run := None |}.

Definition with_head (head : error + Z) (net : Net) : Net :=
  {| net_head := head;
     net_tx := net_tx net;
     net_header_root := net_header_root net;
     net_GetPoe := net_GetPoe net;
     net_GetPoeByBlock := net_GetPoeByBlock net;
     net_GenerateAttestaionReport := net_GenerateAttestaionReport net;
     net_SubmitTask := net_SubmitTask net;
     net_SubmitStateHeader := net_SubmitStateHeader net;
     net_Simulation := net_Simulation net;
     net_IsOperatorRegistered := net_IsOperatorRegistered net;
     net_GetOperatorId := net_GetOperatorId net;
     net_RegisterAsOperator := net_RegisterAsOperator net;
     net_RegisterOperatorInQuorum := net_RegisterOperatorInQuorum net;
     net_VerifyLivenessProof := net_VerifyLivenessProof net;
     net_IsProverRegistered := net_IsProverRegistered net;
     net_ChainID := net_ChainID net;
     net_SubmitLivenessProof := net_SubmitLivenessProof net;
     net_Register := net_Register net;
     net_WaitTx := net_WaitTx net;
     net_AttestValiditySeconds := net_AttestValiditySeconds net;
     net_AttestedProvers := net_AttestedProvers net;
     net_Run := net_Run net |}.

Definition with_calldata (data : error + list byte) (net : Net) : Net :=
  {| net_head := net_head net;
     net_tx := (fun _ => data);
     net_header_root := net_header_root net;
     net_GetPoe := net_GetPoe net;
     net_GetPoeByBlock := net_GetPoeByBlock net;
     net_GenerateAttestaionReport := net_GenerateAttestaionReport net;
     net_SubmitTask := net_SubmitTask net;
     net_SubmitStateHeader := net_SubmitStateHeader net;
     net_Simulation := net_Simulation net;
     net_IsOperatorRegistered := net_IsOperatorRegistered net;
     net_GetOperatorId := net_GetOperatorId net;
     net_RegisterAsOperator := net_RegisterAsOperator net;
     net_RegisterOperatorInQuorum := net_RegisterOperatorInQuorum net;
     net_VerifyLivenessProof := net_VerifyLivenessProof net;
     net_IsProverRegistered := net_IsProverRegistered net;
     net_ChainID := net_ChainID net;
     net_SubmitLivenessProof := net_SubmitLivenessProof net;
     net_Register := net_Register net;
     net_WaitTx := net_WaitTx net;
     net_AttestValiditySeconds := net_AttestValiditySeconds net;
     net_AttestedProvers := net_AttestedProvers net;
     net_Run := net_Run net |}.

Definition with_GetPoe (answer : option PoeResponse * bool * option error) (net : Net) : Net :=
  {| net_head := net_head net;
     net_tx := net_tx net;
     net_header_root := net_header_root net;
     net_GetPoe := (fun _ => answer);
     net_GetPoeByBlock := net_GetPoeByBlock net;
     net_GenerateAttestaionReport := net_GenerateAttestaionReport net;
     net_SubmitTask := net_SubmitTask net;
     net_SubmitStateHeader := net_SubmitStateHeader net;
     net_Simulation := net_Simulation net;
     net_IsOperatorRegistered := net_IsOperatorRegistered net;
     net_GetOperatorId := net_GetOperatorId net;
     net_RegisterAsOperator := net_RegisterAsOperator net;
     net_RegisterOperatorInQuorum := net_RegisterOperatorInQuorum net;
     net_VerifyLivenessProof := net_VerifyLivenessProof net;
     net_IsProverRegistered := net_IsProverRegistered net;
     net_ChainID := net_ChainID net;
     net_SubmitLivenessProof := net_SubmitLivenessProof net;
     net_Register := net_Register net;
     net_WaitTx := net_WaitTx net;
     net_AttestValiditySeconds := net_AttestValiditySeconds net;
     net_AttestedProvers := net_AttestedProvers net;
     net_Run := net_Run net |}.

Definition with_simulation (mode : error + bool) (net : Net) : Net :=
  {| net_head := net_head net;
     net_tx := net_tx net;
     net_header_root := net_header_root net;
     net_GetPoe := net_GetPoe net;
     net_GetPoeByBlock := net_GetPoeByBlock net;
     net_GenerateAttestaionReport := net_GenerateAttestaionReport net;
     net_SubmitTask := net_SubmitTask net;
     net_SubmitStateHeader := net_SubmitStateHeader net;
     net_Simulation := mode;
     net_IsOperatorRegistered := net_IsOperatorRegistered net;
     net_GetOperatorId := net_GetOperatorId net;
     net_RegisterAsOperator := net_RegisterAsOperator net;
     net_RegisterOperatorInQuorum := net_RegisterOperatorInQuorum net;
     net_VerifyLivenessProof := net_VerifyLivenessProof net;
     net_IsProverRegistered := net_IsProverRegistered net;
     net_ChainID := net_ChainID net;
     net_SubmitLivenessProof := net_SubmitLivenessProof net;
     net_Register := net_Register net;
     net_WaitTx := net_WaitTx net;
     net_AttestValiditySeconds := net_AttestValiditySeconds net;
     net_AttestedProvers := net_AttestedProvers net;
     net_Run := net_Run net |}.

Definition with_registered (answer : error + bool) (net : Net) : Net :=
  {| net_head := net_head net;
     net_tx := net_tx net;
     net_header_root := net_header_root net;
     net_GetPoe := net_GetPoe net;
     net_GetPoeByBlock := net_GetPoeByBlock net;
     net_GenerateAttestaionReport := net_GenerateAttestaionReport net;
     net_SubmitTask := net_SubmitTask net;
     net_SubmitStateHeader := net_SubmitStateHeader net;
     net_Simulation := net_Simulation net;
     net_IsOperatorRegistered := answer;
     net_GetOperatorId := net_GetOperatorId net;
     net_RegisterAsOperator := net_RegisterAsOperator net;
     net_RegisterOperatorInQuorum := net_RegisterOperatorInQuorum net;
     net_VerifyLivenessProof := net_VerifyLivenessProof net;
     net_IsProverRegistered := net_IsProverRegistered net;
     net_ChainID := net_ChainID net;
     net_SubmitLivenessProof := net_SubmitLivenessProof net;
     net_Register := net_Register net;
     net_WaitTx := net_WaitTx net;
     net_AttestValiditySeconds := net_AttestValiditySeconds net;
     net_AttestedProvers := net_AttestedProvers net;
     net_Run := net_Run net |}.

Definition with_validity (secs : error + Z) (net : Net) : Net :=
  {| net_head := net_head net;
     net_tx := net_tx net;
     net_header_root := net_header_root net;
     net_GetPoe := net_GetPoe net;
     net_GetPoeByBlock := net_GetPoeByBlock net;
     net_GenerateAttestaionReport := net_GenerateAttestaionReport net;
     net_SubmitTask := net_SubmitTask net;
     net_SubmitStateHeader := net_SubmitStateHeader net;
     net_Simulation := net_Simulation net;
     net_IsOperatorRegistered := net_IsOperatorRegistered net;
     net_GetOperatorId := net_GetOperatorId net;
     net_RegisterAsOperator := net_RegisterAsOperator net;
     net_RegisterOperatorInQuorum := net_RegisterOperatorInQuorum net;
     net_VerifyLivenessProof := net_VerifyLivenessProof net;
     net_IsProverRegistered := net_IsProverRegistered net;
     net_ChainID := net_ChainID net;
     net_SubmitLivenessProof := net_SubmitLivenessProof net;
     net_Register := net_Register net;
     net_WaitTx := net_WaitTx net;
     net_AttestValiditySeconds := secs;
     net_AttestedProvers := net_AttestedProvers net;
     net_Run := net_Run net |}.

Definition with_attested (time : error + Z) (net : Net) : Net :=
  {| net_head := net_head net;
     net_tx := net_tx net;
     net_header_root := net_header_root net;
     net_GetPoe := net_GetPoe net;
     net_GetPoeByBlock := net_GetPoeByBlock net;
     net_GenerateAttestaionReport := net_GenerateAttestaionReport net;
     net_SubmitTask := net_SubmitTask net;
     net_SubmitStateHeader := net_SubmitStateHeader net;
     net_Simulation := net_Simulation net;
     net_IsOperatorRegistered := net_IsOperatorRegistered net;
     net_GetOperatorId := net_GetOperatorId net;
     net_RegisterAsOperator := net_RegisterAsOperator net;
     net_RegisterOperatorInQuorum := net_RegisterOperatorInQuorum net;
     net_VerifyLivenessProof := net_VerifyLivenessProof net;
     net_IsProverRegistered := net_IsProverRegistered net;
     net_ChainID := net_ChainID net;
     net_SubmitLivenessProof := net_SubmitLivenessProof net;
     net_Register := net_Register net;
     net_WaitTx := net_WaitTx net;
     net_AttestValiditySeconds := net_AttestValiditySeconds net;
     net_AttestedProvers := (fun _ => time);
     net_Run := net_Run net |}.

Definition with_chainID (answer : error + Z) (net : Net) : Net :=
  {| net_head := net_head net;
     net_tx := net_tx net;
     net_header_root := net_header_root net;
     net_GetPoe := net_GetPoe net;
     net_GetPoeByBlock := net_GetPoeByBlock net;
     net_GenerateAttestaionReport := net_GenerateAttestaionReport net;
     net_SubmitTask := net_SubmitTask net;
     net_SubmitStateHeader := net_SubmitStateHeader net;
     net_Simulation := net_Simulation net;
     net_IsOperatorRegistered := net_IsOperatorRegistered net;
     net_GetOperatorId := net_GetOperatorId net;
     net_RegisterAsOperator := net_RegisterAsOperator net;
     net_RegisterOperatorInQuorum := net_RegisterOperatorInQuorum net;
     net_VerifyLivenessProof := net_VerifyLivenessProof net;
     net_IsProverRegistered := net_IsProverRegistered net;
     net_ChainID := answer;
     net_SubmitLivenessProof := net_SubmitLivenessProof net;
     net_Register := net_Register net;
     net_WaitTx := net_WaitTx net;
     net_AttestValiditySeconds := net_AttestValiditySeconds net;
     net_AttestedProvers := net_AttestedProvers net;
     net_Run := net_Run net |}.

Definition pubkey : list byte := repeat x01 32 ++ repeat x02 32.

Definition tracer : LogTracerConfig := OperatorV2.NewLogTracerConfig 12 [] [].

Definition operator (simulation : bool) : OperatorV2.Operator :=
  {| OperatorV2.Simulation := simulation;
     OperatorV2.cfg_Identifier := 1;
     OperatorV2.PubKey := pubkey;
     OperatorV2.operatorAddress := 4096;
     OperatorV2.operatorId := 77;
     OperatorV2.quorumNumbers := [x00];
     OperatorV2.taskFetcher := Some tracer |}.

Definition operator1 : OperatorV1.Operator :=
  {| OperatorV1.PubKey := pubkey;
     OperatorV1.operatorAddress := 4096;
     OperatorV1.operatorId := 77;
     OperatorV1.taskFetcher := Some (OperatorV1.NewLogTracerConfig [] []) |}.

(** A log of block [block] with three topics and 32 bytes of data that
    spell the number 7. *)
Definition log (block index : Z) : Log :=
  {| log_Address := 4242;
     Topics := [11; 12; 13];
     Data := abi.word 7;
     BlockNumber := block;
     TxHash := 9000 + block;
     Index := index |}.

(** A block record of a chunk: the block number on 8 bytes, then 52 more
    bytes. *)
Definition blockRecord (number : Z) : list byte :=
  abi.be_bytes 8 number ++ repeat x00 52.

Definition selector : list byte := [x1a; x2b; x3c; x4d].

(** The world at the epoch with an empty offset file. *)
Definition world : World := mkWorld 0 [] [].

End Sample.

(** ** Notions used in the statements *)

(** The value a run of decimal digits spells, read after [n]. *)
Definition spelled (s : list byte) (n : Z) : Z :=
  fold_left (fun acc b => acc * 10 + (Bytes.to_Z b - 48)) s n.

Definition isDigit (b : byte) : Prop := 48 <= Bytes.to_Z b <= 57.

(** What [GetBlock] makes of the bytes of the offset file. *)
Definition readCheckpoint (file : list byte) : Z * option error :=
  match firstn 16 file with
  | [] => (0, None)
  | got =>
      let '(number, err) := strconv.ParseInt (Bytes.Trim got Bytes.cutset) in
      match err with
      | Some e => (0, Some (Trace e))
      | None => (Int.u64 number, None)
      end
  end.

(** The events of proof retrieval. *)
Definition isRetrievalEvent (e : Event) : Prop :=
  match e with
  | EvSourceTransactionByHash _ | EvSourceHeaderByNumber _
  | EvGetPoe _ | EvInfo _ => True
  | _ => False
  end.

(** The events that show a state header: printing it, digesting it,
    signing the digest, submitting it. *)
Definition isHeaderEvent (e : Event) : Prop :=
  match e with
  | EvPretty _ | EvDigest _ | EvSignMessage _
  | EvSubmitTask _ | EvSubmitStateHeader _ => True
  | _ => False
  end.

(** The world once event [e] has happened. *)
Definition after (e : Event) (w : World) : World :=
  mkWorld (clock w) (offset_file w) (trace w ++ [e]).

(** The state header an event shows, if any. *)
Definition header_of (e : Event) : option StateHeader :=
  match e with
  | EvPretty h | EvDigest h => Some h
  | EvSubmitTask req => Some (Task req)
  | EvSubmitStateHeader req => Some (req_StateHeader req)
  | _ => None
  end.

(** The events of the scan cycle itself. *)
Definition isTracerEvent (e : Event) : Prop :=
  match e with
  | EvFilterLogs _ _ | EvOnNewLog _ | EvHandled _ _ | EvSaveBlock _ => True
  | _ => False
  end.

(** The events between two worlds of one run. *)
Definition since (w w' : World) : list Event :=
  skipn (length (trace w)) (trace w').

(** The block number of record [i] of a chunk: the first 8 bytes of the
    60-byte record, big-endian, read as [int64]. *)
Definition blockNumberAt (chunk : Bytes.Slice) (i : Z) : Z :=
  Int.i64 (Bytes.be_value
             (firstn 8 (skipn (Z.to_nat (60 * i)) (tl (Bytes.elems chunk))))).

(** The block numbers of a chunk: as many as its count byte says. *)
Definition blockNumbers (chunk : Bytes.Slice) : list Z :=
  match Bytes.elems chunk with
  | [] => []
  | count :: _ =>
      map (fun k => blockNumberAt chunk (Z.of_nat k))
          (seq 0 (Z.to_nat (Bytes.to_Z count)))
  end.

(** The block numbers a batch commits, in the order of the call data. *)
Definition committed (chunks : list Bytes.Slice) : list Z :=
  flat_map blockNumbers chunks.

(** A chunk the scan reads within its length: it has its count byte, and
    the first 8 bytes of its last record are there. A chunk of the packed
    format, a count byte followed by count records of 60 bytes, is one. *)
Definition chunkReadable (chunk : Bytes.Slice) : Prop :=
  exists count records,
    Bytes.elems chunk = count :: records
    /\ (Bytes.to_Z count = 0
        \/ 60 * (Bytes.to_Z count - 1) + 8 <= Z.of_nat (length records)).

(** How the scan keeps the first and the last block: [startBlock] is set
    while it is 0, [endBlock] afterwards. *)
Definition track (se : Z * Z) (blockNumber : Z) : Z * Z :=
  if fst se =? 0 then (blockNumber, snd se) else (fst se, blockNumber).

(** An out-of-range access. *)
Definition outOfRange {A} (r : outcome A) : Prop :=
  r = Panics SliceOutOfRange \/ r = Panics IndexOutOfRange.

(** The first call of a renewal round. *)
Definition isRoundStart (e : Event) : bool :=
  match e with
  | EvAttestValiditySeconds => true
  | _ => false
  end.

(** The number of renewal rounds begun in a trace. *)
Definition roundStarts (t : list Event) : nat :=
  length (filter isRoundStart t).

(** The events of the registration steps that come before the event
    loop. *)
Definition isStartupEvent (e : Event) : Prop :=
  match e with
  | EvRun => False
  | _ => True
  end.

(** ** Notions used in the further properties *)

(** A byte of the cutset of [GetBlock]: NUL, CR, LF or space. *)
Definition isPadding (b : byte) : Prop := Bytes.in_set Bytes.cutset b = true.

(** A decimal text without its leading sign, if it has one. *)
Definition unsigned (t : list byte) : list byte :=
  match t with
  | [] => []
  | c :: rest => if Byte.eqb c "+" || Byte.eqb c "-" then rest else t
  end.

(** The checkpoints [ns] saved one after the other. *)
Fixpoint saveEach (ns : list Z) : M unit :=
  match ns with
  | [] => ret tt
  | n :: rest => _ <- OperatorV2.SaveBlock n ;; saveEach rest
  end.

(** The tasks submitted to the aggregator in a trace, in order. *)
Fixpoint submitted (t : list Event) : list TaskRequest :=
  match t with
  | [] => []
  | EvSubmitTask req :: t' => req :: submitted t'
  | _ :: t' => submitted t'
  end.

(** The calls that reach the prover. *)
Definition isProverEvent (e : Event) : Prop :=
  match e with
  | EvGetPoe _ | EvGetPoeByBlock _ | EvGenerateAttestaionReport _ => True
  | _ => False
  end.

(** The calls that reach the chain client of the task fetcher. *)
Definition isSourceEvent (e : Event) : Prop :=
  match e with
  | EvSourceTransactionByHash _ | EvSourceHeaderByNumber _ => True
  | _ => False
  end.

(** The state header [OnNewLog] builds from the head number, the response
    of the prover, its proof and the encoded metadata. *)
Definition headerOf (o : OperatorV2.Operator) (lib : Lib) (number : Z)
    (p : Poe) (mdBytes : list byte) : StateHeader :=
  {| Identifier := OperatorV2.cfg_Identifier o;
     hdr_Metadata := mdBytes;
     State := lib_Pack lib p;
     QuorumNumbers := OperatorV2.quorumNumbers o;
     QuorumThresholdPercentages := [x00];
     ReferenceBlockNumber := Int.u32 (sub64 (Int64 number) 1) |}.

(** The metadata of a response. *)
Definition metadataOf (resp : PoeResponse) : Metadata :=
  {| md_BatchId := BatchId resp;
     md_StartBlock := StartBlock resp;
     md_EndBlock := EndBlock resp |}.

(** A list of block numbers without its leading zeros. *)
Fixpoint dropZeros (blocks : list Z) : list Z :=
  match blocks with
  | [] => []
  | b :: rest => if b =? 0 then dropZeros rest else blocks
  end.

(** The first block number that is not 0, and the last block number after
    it (0 when there is none). *)
Definition firstAndLast (blocks : list Z) : Z * Z :=
  match dropZeros blocks with
  | [] => (0, 0)
  | first :: rest => (first, last rest 0)
  end.

(** The report [proverGetAttestationReport] obtains for a public key: made
    locally in simulation mode, asked from the prover otherwise. *)
Definition generated (o : OperatorV2.Operator) (lib : Lib) (net : Net)
    (pubkey report : list byte) : Prop :=
  if OperatorV2.Simulation o
  then lib_generateSimulationQuote lib pubkey = inr report
  else net_GenerateAttestaionReport net pubkey = inr report.

(** The liveness proofs submitted in a trace, in order. *)
Fixpoint livenessProofs (t : list Event) : list (list byte) :=
  match t with
  | [] => []
  | EvSubmitLivenessProof report :: t' => report :: livenessProofs t'
  | _ :: t' => livenessProofs t'
  end.

(** The events of [registerAttestationReport]. *)
Definition isRegisterEvent (e : Event) : Prop :=
  match e with
  | EvGenerateAttestaionReport _ | EvChainID | EvSubmitLivenessProof _
  | EvInfo _ | EvWaitTx _ => True
  | _ => False
  end.

(** The operator once [checkIsRegistered] has stored the id [id]. *)
Definition withOperatorId (o : OperatorV2.Operator) (id : Z)
  : OperatorV2.Operator :=
  {| OperatorV2.Simulation := OperatorV2.Simulation o;
     OperatorV2.cfg_Identifier := OperatorV2.cfg_Identifier o;
     OperatorV2.PubKey := OperatorV2.PubKey o;
     OperatorV2.operatorAddress := OperatorV2.operatorAddress o;
     OperatorV2.operatorId := id;
     OperatorV2.quorumNumbers := OperatorV2.quorumNumbers o;
     OperatorV2.taskFetcher := OperatorV2.taskFetcher o |}.

(** The state header the first variant builds from a proof. *)
Definition headerOf1 (lib : Lib) (p : Poe) : StateHeader :=
  {| Identifier := 1;
     hdr_Metadata := [];
     State := lib_Pack lib p;
     QuorumNumbers := [x00];
     QuorumThresholdPercentages := [x00];
     ReferenceBlockNumber := 0 |}.

(** The block number the first variant reads from the data of a log: the
    first 32 bytes as a big-endian number, in 64 bits. *)
Definition taskBlock (log : Log) : Z :=
  Bytes.be_value (firstn 32 (Data log)) mod 2 ^ 64.

(** * Properties *)

(** ** Decimal text *)

Section Decimal.

Lemma to_Z_range b : 0 <= Bytes.to_Z b < 256.
Proof.
  unfold Bytes.to_Z. pose proof (Byte.to_N_bounded b) as Hb. lia.
Qed.

Lemma to_Z_of_Z z : 0 <= z < 256 -> Bytes.to_Z (Bytes.of_Z z) = z.
Proof.
  intros Hz. unfold Bytes.to_Z, Bytes.of_Z.
  rewrite Z.mod_small by lia.
  destruct (Byte.of_N (Z.to_N z)) as [b|] eqn:E.
  - apply Byte.to_of_N in E. rewrite E. lia.
  - apply Byte.of_N_None_iff in E. lia.
Qed.

Lemma digit_value d : 0 <= d < 10 -> Bytes.to_Z (strconv.digit d) = 48 + d.
Proof. intros Hd. unfold strconv.digit. apply to_Z_of_Z. lia. Qed.

Lemma spelled_mono s : Forall isDigit s -> forall n, 0 <= n -> n <= spelled s n.
Proof.
  induction 1 as [|b s Hb _ IH]; intros n Hn; simpl; [lia|].
  unfold isDigit in Hb.
  specialize (IH (n * 10 + (Bytes.to_Z b - 48))). lia.
Qed.

Lemma parseDigits_spelled s :
  Forall isDigit s -> forall n, 0 <= n -> spelled s n <= Int.maxUint64 ->
  strconv.parseDigits s n = (spelled s n, None).
Proof.
  induction 1 as [|b s Hb Hs IH]; intros n Hn Hmax; simpl; [reflexivity|].
  unfold isDigit in Hb.
  pose proof (spelled_mono s Hs (n * 10 + (Bytes.to_Z b - 48)) ltac:(lia)) as Hm.
  simpl in Hmax. fold (spelled s (n * 10 + (Bytes.to_Z b - 48))) in Hmax.
  replace ((48 <=? Bytes.to_Z b) && (Bytes.to_Z b <=? 57)) with true
    by (symmetry; apply andb_true_iff; split; apply Z.leb_le; lia).
  unfold strconv.cutoff, Int.maxUint64 in *.
  change (2 ^ 64 - 1) with 18446744073709551615 in *.
  change (18446744073709551615 / 10 + 1) with 1844674407370955162.
  destruct (Z.leb_spec 1844674407370955162 n); [lia|].
  unfold Int.u64. change (2 ^ 64) with 18446744073709551616.
  rewrite Z.mod_small by lia.
  destruct (Z.ltb_spec (n * 10 + (Bytes.to_Z b - 48)) (n * 10)); [lia|].
  destruct (Z.ltb_spec 18446744073709551615 (n * 10 + (Bytes.to_Z b - 48))); [lia|].
  simpl. apply IH; lia.
Qed.

Lemma formatBits_digits fuel : forall u acc,
  0 <= u -> Forall isDigit acc -> Forall isDigit (strconv.formatBits fuel u acc).
Proof.
  induction fuel as [|k IH]; intros u acc Hu Hacc; simpl; [assumption|].
  destruct (Z.ltb_spec u 10).
  - constructor; [|assumption]. unfold isDigit. rewrite digit_value; lia.
  - apply IH; [apply Z.div_pos; lia|].
    constructor; [|assumption]. unfold isDigit.
    pose proof (Z.mod_pos_bound u 10 ltac:(lia)). rewrite digit_value; lia.
Qed.

Lemma formatBits_spelled fuel : forall u acc,
  0 <= u < 10 ^ Z.of_nat fuel ->
  spelled (strconv.formatBits fuel u acc) 0 = spelled acc u.
Proof.
  induction fuel as [|k IH]; intros u acc Hu.
  - simpl in Hu. assert (u = 0) by lia. subst. reflexivity.
  - simpl strconv.formatBits.
    destruct (Z.ltb_spec u 10).
    + simpl. rewrite digit_value by lia. f_equal. lia.
    + rewrite IH.
      * simpl. pose proof (Z.mod_pos_bound u 10 ltac:(lia)).
        rewrite digit_value by lia. f_equal.
        pose proof (Z.div_mod u 10 ltac:(lia)). lia.
      * rewrite Nat2Z.inj_succ, Z.pow_succ_r in Hu by lia.
        split; [apply Z.div_pos; lia|].
        apply Z.div_lt_upper_bound; lia.
Qed.

Lemma formatBits_length fuel : forall (k : nat) u acc,
  0 <= u < 10 ^ Z.of_nat k -> (1 <= k <= fuel)%nat ->
  (1 + length acc <= length (strconv.formatBits fuel u acc) <= k + length acc)%nat.
Proof.
  induction fuel as [|f IH]; intros k u acc Hu Hk; [lia|].
  simpl strconv.formatBits.
  destruct (Z.ltb_spec u 10).
  - simpl. lia.
  - destruct k as [|[|k]]; [lia | simpl in Hu; lia |].
    assert (0 <= u / 10 < 10 ^ Z.of_nat (S k)) as Hd.
    { rewrite (Nat2Z.inj_succ (S k)), Z.pow_succ_r in Hu by lia.
      split; [apply Z.div_pos; lia|].
      apply Z.div_lt_upper_bound; lia. }
    specialize (IH (S k) (u / 10) (strconv.digit (u mod 10) :: acc) Hd ltac:(lia)).
    simpl length in IH. lia.
Qed.

Lemma formatBits_head fuel : forall u acc,
  0 <= u -> Forall isDigit acc -> acc <> [] \/ fuel <> O ->
  exists b rest, strconv.formatBits fuel u acc = b :: rest /\ isDigit b.
Proof.
  intros u acc Hu Hacc Hne.
  pose proof (formatBits_digits fuel u acc Hu Hacc) as Hd.
  destruct (strconv.formatBits fuel u acc) as [|b rest] eqn:E.
  - exfalso. destruct fuel as [|k].
    + simpl in E. destruct Hne; congruence.
    + clear Hne Hd. revert u acc Hu Hacc E.
      induction k as [|k IH]; intros u acc Hu Hacc E; simpl in E.
      * destruct (u <? 10); discriminate.
      * destruct (u <? 10); [discriminate|].
        destruct (u / 10 <? 10) eqn:E10; [discriminate|].
        apply (IH (u / 10) (strconv.digit (u mod 10) :: acc)).
        -- apply Z.div_pos; lia.
        -- constructor; [|assumption]. unfold isDigit.
           pose proof (Z.mod_pos_bound u 10 ltac:(lia)).
           rewrite digit_value; lia.
        -- simpl. rewrite E10. exact E.
  - inversion Hd; subst. eauto.
Qed.

(** Reading back what [FormatUint] writes. *)
Lemma ParseInt_FormatUint n :
  0 <= n < 2 ^ 63 -> strconv.ParseInt (strconv.FormatUint n) = (n, None).
Proof.
  intros Hn. unfold strconv.FormatUint.
  assert (n < 10 ^ Z.of_nat 20) as H20
    by (change (10 ^ Z.of_nat 20) with 100000000000000000000;
        change (2 ^ 63) with 9223372036854775808 in Hn; lia).
  pose proof (formatBits_digits 20 n [] ltac:(lia) (Forall_nil _)) as Hd.
  pose proof (formatBits_spelled 20 n [] ltac:(lia)) as Hs.
  destruct (formatBits_head 20 n [] ltac:(lia) (Forall_nil _) ltac:(right; discriminate))
    as (b & rest & E & Hb).
  rewrite E in *. unfold strconv.ParseInt.
  assert (Byte.eqb b "-" = false) as Hm.
  { destruct (Byte.eqb b "-") eqn:Eb; [|reflexivity].
    apply Byte.byte_dec_bl in Eb. subst b. unfold isDigit in Hb.
    change (Bytes.to_Z "-") with 45 in Hb. lia. }
  assert (Byte.eqb b "+" = false) as Hp.
  { destruct (Byte.eqb b "+") eqn:Eb; [|reflexivity].
    apply Byte.byte_dec_bl in Eb. subst b. unfold isDigit in Hb.
    change (Bytes.to_Z "+") with 43 in Hb. lia. }
  rewrite Hm, Hp. cbn [orb negb andb]. unfold strconv.ParseUint.
  rewrite parseDigits_spelled; try assumption; try lia.
  - rewrite Hs. simpl spelled.
    destruct (Z.leb_spec (2 ^ 63) n); [lia|]. reflexivity.
  - rewrite Hs. simpl spelled. unfold Int.maxUint64.
    change (2 ^ 64 - 1) with 18446744073709551615.
    change (2 ^ 63) with 9223372036854775808 in Hn. lia.
Qed.

End Decimal.

(** ** The checkpoint record *)

Section Checkpoint.

Lemma GetBlock_eq w :
  OperatorV2.GetBlock w = (Returns (readCheckpoint (offset_file w)), w).
Proof.
  unfold OperatorV2.GetBlock, readCheckpoint, bind, os.ReadAt.
  change (length (make 16)) with 16%nat. rewrite skipn_O.
  pose proof (length_firstn 16 (offset_file w)) as Hlen.
  destruct (firstn 16 (offset_file w)) as [|b got] eqn:E.
  - reflexivity.
  - set (g := b :: got) in *.
    assert ((Z.of_nat (length g) =? 0) = false) as Hz
      by (apply Z.eqb_neq; subst g; simpl; lia).
    rewrite Hz.
    assert (Bytes.slice (g ++ skipn (length g) (make 16)) 0 (Z.of_nat (length g))
            = Some g) as Hs.
    { unfold Bytes.slice. rewrite length_app.
      replace ((0 <=? 0) && (0 <=? Z.of_nat (length g))
               && (Z.of_nat (length g) <=? Z.of_nat (length g + length (skipn (length g) (make 16)))))
        with true
        by (symmetry; rewrite !andb_true_iff, !Z.leb_le; lia).
      rewrite Z.sub_0_r, Nat2Z.id. change (Z.to_nat 0) with O.
      rewrite skipn_O, firstn_app, Nat.sub_diag, firstn_all, firstn_O.
      f_equal. apply app_nil_r. }
    rewrite Hs. unfold orPanic, ret.
    destruct (strconv.ParseInt (Bytes.Trim g Bytes.cutset)) as [number [e|]];
      reflexivity.
Qed.

Lemma SaveBlock_eq n w :
  OperatorV2.SaveBlock n w
  = (Returns None,
     mkWorld (clock w)
             (strconv.FormatUint n
                ++ skipn (length (strconv.FormatUint n)) (offset_file w))
             (trace w)).
Proof. reflexivity. Qed.

Lemma digit_not_cut b : isDigit b -> Bytes.in_set Bytes.cutset b = false.
Proof.
  unfold isDigit, Bytes.in_set, Bytes.cutset. intros Hb. simpl.
  repeat match goal with
  | |- context [Byte.eqb b ?c] =>
      let E := fresh "E" in
      destruct (Byte.eqb b c) eqn:E;
      [ apply Byte.byte_dec_bl in E; subst b; vm_compute in Hb;
        destruct Hb as [H1 H2]; try (exfalso; apply H1; reflexivity);
        exfalso; apply H2; reflexivity
      | ]
  end.
  reflexivity.
Qed.

Lemma TrimLeft_digits s : Forall isDigit s -> Bytes.TrimLeft s Bytes.cutset = s.
Proof.
  destruct 1 as [|b s Hb _]; cbn [Bytes.TrimLeft]; [reflexivity|].
  rewrite digit_not_cut by assumption. reflexivity.
Qed.

Lemma Trim_digits s : Forall isDigit s -> Bytes.Trim s Bytes.cutset = s.
Proof.
  intros Hs. unfold Bytes.Trim, Bytes.TrimRight.
  rewrite (TrimLeft_digits s Hs).
  rewrite TrimLeft_digits by (apply Forall_rev; assumption).
  apply rev_involutive.
Qed.

Lemma FormatUint_digits n : 0 <= n -> Forall isDigit (strconv.FormatUint n).
Proof. intros Hn. apply formatBits_digits; [assumption | constructor]. Qed.

Lemma FormatUint_length16 n :
  0 <= n < 10 ^ 16 -> (1 <= length (strconv.FormatUint n) <= 16)%nat.
Proof.
  intros Hn.
  pose proof (formatBits_length 20 16 n [] Hn ltac:(lia)) as H.
  change (length (@nil byte)) with O in H. unfold strconv.FormatUint. lia.
Qed.

(** The text of a larger number is not shorter. *)
Lemma formatBits_length_ge fuel : forall u acc,
  (length acc <= length (strconv.formatBits fuel u acc))%nat.
Proof.
  induction fuel as [|k IH]; intros u acc; simpl; [lia|].
  destruct (u <? 10); simpl; [lia|].
  specialize (IH (u / 10) (strconv.digit (u mod 10) :: acc)). simpl in IH. lia.
Qed.

Lemma formatBits_length_mono fuel : forall m n acc1 acc2,
  0 <= m <= n -> length acc1 = length acc2 ->
  (length (strconv.formatBits fuel m acc1)
   <= length (strconv.formatBits fuel n acc2))%nat.
Proof.
  induction fuel as [|k IH]; intros m n acc1 acc2 Hmn Hacc; simpl; [lia|].
  destruct (Z.ltb_spec m 10); destruct (Z.ltb_spec n 10); try lia.
  - simpl. lia.
  - pose proof (formatBits_length_ge k (n / 10) (strconv.digit (n mod 10) :: acc2)) as H1.
    simpl in *. lia.
  - apply IH; [|simpl; lia].
    split; [apply Z.div_pos; lia | apply Z.div_le_mono; lia].
Qed.

Lemma FormatUint_length_mono m n :
  0 <= m <= n ->
  (length (strconv.FormatUint m) <= length (strconv.FormatUint n))%nat.
Proof. intros H. apply formatBits_length_mono; [assumption | reflexivity]. Qed.

(** Reading the text of a number below 10^16 gives the number. *)
Lemma readCheckpoint_FormatUint n :
  0 <= n < 10 ^ 16 -> readCheckpoint (strconv.FormatUint n) = (n, None).
Proof.
  intros Hn. unfold readCheckpoint.
  pose proof (FormatUint_length16 n Hn) as Hlen.
  rewrite firstn_all2 by lia.
  destruct (strconv.FormatUint n) as [|b rest] eqn:E; [simpl in Hlen; lia|].
  rewrite <- E. rewrite Trim_digits by (apply FormatUint_digits; lia).
  change (10 ^ 16) with 10000000000000000 in Hn.
  rewrite ParseInt_FormatUint
    by (change (2 ^ 63) with 9223372036854775808; lia).
  unfold Int.u64. change (2 ^ 64) with 18446744073709551616.
  rewrite Z.mod_small by lia. reflexivity.
Qed.

End Checkpoint.

(** After a checkpoint [m], any later checkpoint [n >= m] reads back. *)
Lemma checkpoint_roundtrip_monotone m n w :
  0 <= m <= n -> n < 10 ^ 16 ->
  offset_file w = strconv.FormatUint m ->
  (OperatorV2.SaveBlock n ;; OperatorV2.GetBlock) w
  = (Returns (n, None), mkWorld (clock w) (strconv.FormatUint n) (trace w)).
Proof.
  intros Hm Hn Hfile. unfold bind at 1. rewrite SaveBlock_eq, GetBlock_eq.
  cbn [offset_file]. rewrite Hfile.
  rewrite skipn_all2 by (apply FormatUint_length_mono; assumption).
  rewrite app_nil_r, readCheckpoint_FormatUint by lia. reflexivity.
Qed.

(** The text of a number with 17 digits does not fit the 16-byte buffer of
    [GetBlock]: the last digit is lost. *)
Example checkpoint_17_digits :
  fst ((OperatorV2.SaveBlock (10 ^ 16) ;; OperatorV2.GetBlock) Sample.world)
  = Returns (10 ^ 15, None).
Proof. vm_compute. reflexivity. Qed.

(** The simplified operator keeps no checkpoint. *)
Example checkpoint_v1_not_kept :
  fst ((OperatorV1.SaveBlock 5 ;; OperatorV1.GetBlock) Sample.world)
  = Returns (0, None).
Proof. reflexivity. Qed.

(** C2, as stated, fails: [SaveBlock] overwrites the front of the record
    and keeps the rest, so after [SaveBlock(1000)], [SaveBlock(5)] leaves
    the text 5000, and [GetBlock] returns 5000, not 5. *)
Lemma C2_counterexample :
  let run := OperatorV2.SaveBlock 1000 ;; OperatorV2.SaveBlock 5 ;;
             OperatorV2.GetBlock in
  fst (run Sample.world) = Returns (5000, None)
  /\ fst (run Sample.world) <> Returns (5, None).
Proof. split; [vm_compute; reflexivity | vm_compute; discriminate]. Qed.

(** C2 (amended). In the operator that keeps a checkpoint, for every block
    number n below 10^16, [SaveBlock(n)] followed by [GetBlock] returns n
    and no error, and the record then holds exactly the decimal text of n,
    provided the record held no more bytes than that text before (an empty
    record, or the text of an earlier checkpoint m <= n). *)
Theorem C2_checkpoint_roundtrip n w :
  0 <= n < 10 ^ 16 ->
  (length (offset_file w) <= length (strconv.FormatUint n))%nat ->
  (OperatorV2.SaveBlock n ;; OperatorV2.GetBlock) w
  = (Returns (n, None), mkWorld (clock w) (strconv.FormatUint n) (trace w)).
Proof.
  intros Hn Hlen. unfold bind at 1. rewrite SaveBlock_eq, GetBlock_eq.
  cbn [offset_file]. rewrite skipn_all2 by lia. rewrite app_nil_r.
  rewrite readCheckpoint_FormatUint by assumption. reflexivity.
Qed.

Lemma C2_checkpoint_roundtrip_witness :
  let w := mkWorld 0 (strconv.FormatUint 100) [] in
  0 <= 155 < 10 ^ 16
  /\ (length (offset_file w) <= length (strconv.FormatUint 155))%nat
  /\ (OperatorV2.SaveBlock 155 ;; OperatorV2.GetBlock) w
     = (Returns (155, None), mkWorld 0 (strconv.FormatUint 155) []).
Proof.
  split; [lia|]. split; [vm_compute; lia|].
  apply (C2_checkpoint_roundtrip 155 (mkWorld 0 (strconv.FormatUint 100) []));
    [lia | vm_compute; lia].
Defined.

(** C3. When the checkpoint record is absent (the offset file is empty),
    [GetBlock] returns block 0 and no error, and leaves the world as it
    is: absence is not a failure. *)
Theorem C3_absent_checkpoint_is_zero (now : Z) (t : list Event) :
  OperatorV2.GetBlock (mkWorld now [] t) = (Returns (0, None), mkWorld now [] t).
Proof. rewrite GetBlock_eq. reflexivity. Qed.

(** ** The log handler *)

Ltac run :=
  unfold bind, call, emit, ret, orPanic, raise, OperatorV2.lift, after;
  cbn [fst snd clock offset_file trace].

Ltac split_match :=
  match goal with
  | |- context [match ?x with _ => _ end] =>
      lazymatch x with
      | context [match _ with _ => _ end] => fail
      | _ => destruct x eqn:?
      end
  end.

Ltac frame_done :=
  match goal with
  | H : (_, _) = (_, _) |- _ => inversion H; subst; clear H
  end;
  cbn [clock offset_file trace];
  repeat split; try reflexivity;
  eexists; split;
  [ first [ rewrite <- ?app_assoc; reflexivity | symmetry; apply app_nil_r ]
  | repeat constructor ].

Section Handler.

Variables (lib : Lib) (net : Net).

(** Proof retrieval only adds retrieval events to the trace. *)
Lemma proverGetPoe_frame o txHash topics w r w' :
  OperatorV2.proverGetPoe o lib net txHash topics w = (r, w') ->
  clock w' = clock w /\ offset_file w' = offset_file w
  /\ exists evs, trace w' = trace w ++ evs /\ Forall isRetrievalEvent evs.
Proof.
  unfold OperatorV2.proverGetPoe. run.
  repeat (split_match; run); intros E; try frame_done.
Qed.

(** The headers the second variant shows carry the low 32 bits of the
    head number minus one. *)
Lemma OnNewLog_headers o log w r w' :
  OperatorV2.OnNewLog o lib net log w = (r, w') ->
  exists evs, trace w' = trace w ++ evs
    /\ forall e h, In e evs -> header_of e = Some h ->
       exists number, net_head net = inr number
         /\ ReferenceBlockNumber h = Int.u32 (sub64 (Int64 number) 1).
Proof.
  unfold OperatorV2.OnNewLog. run.
  destruct (net_head net) as [err|number] eqn:Hhead; run.
  { intros E. inversion E; subst. eexists; split; [reflexivity|].
    intros e h [<-|[]]; discriminate. }
  match goal with
  | |- context [OperatorV2.proverGetPoe ?o ?l ?n ?t ?tp ?w0] =>
      destruct (OperatorV2.proverGetPoe o l n t tp w0) as [rp wp] eqn:Ep
  end.
  apply proverGetPoe_frame in Ep. destruct Ep as (_ & _ & evs & Ht & Hevs).
  cbn [trace] in Ht.
  assert (forall e h, In e evs -> header_of e = Some h -> False) as Hno.
  { intros e h Hin Hh. rewrite Forall_forall in Hevs. specialize (Hevs e Hin).
    destruct e; simpl in *; try discriminate; contradiction. }
  destruct rp as [[[poe skip] err]|p]; run; repeat (split_match; run);
    intros E; inversion E; subst; clear E; cbn [trace]; rewrite Ht;
    rewrite <- ?app_assoc; (eexists; split; [reflexivity|]);
    intros ev hd Hin Hh;
    repeat (apply in_app_or in Hin; destruct Hin as [Hin|Hin]);
    try (exfalso; eapply Hno; eassumption);
    simpl in Hin;
    repeat match type of Hin with
    | _ \/ _ => destruct Hin as [Hin|Hin]
    | False => contradiction
    | _ = _ => subst ev; simpl in Hh; try discriminate;
               inversion Hh; subst; cbn [ReferenceBlockNumber Task];
               eexists; split; reflexivity
    end.
Qed.

(** The handler leaves the clock and the offset file alone, and none of
    its events is an event of the scan cycle. *)
Lemma OnNewLog_frame o log w r w' :
  OperatorV2.OnNewLog o lib net log w = (r, w') ->
  clock w' = clock w /\ offset_file w' = offset_file w
  /\ exists evs, trace w' = trace w ++ evs /\ Forall (fun e => ~ isTracerEvent e) evs.
Proof.
  unfold OperatorV2.OnNewLog. run.
  destruct (net_head net) as [err|number] eqn:Hhead; run.
  { intros E. inversion E; subst. cbn. repeat split.
    eexists; split; [reflexivity|]. repeat constructor; intros []. }
  match goal with
  | |- context [OperatorV2.proverGetPoe ?o ?l ?n ?t ?tp ?w0] =>
      destruct (OperatorV2.proverGetPoe o l n t tp w0) as [rp wp] eqn:Ep
  end.
  apply proverGetPoe_frame in Ep. destruct Ep as (Hc & Hf & evs & Ht & Hevs).
  cbn [trace clock offset_file] in *.
  assert (Forall (fun e => ~ isTracerEvent e) evs) as Hno.
  { eapply Forall_impl; [|exact Hevs]. intros e He.
    destruct e; simpl in *; tauto. }
  destruct rp as [[[poe skip] err]|p]; run; repeat (split_match; run);
    intros E; inversion E; subst; clear E; cbn [trace clock offset_file];
    rewrite Ht, Hc, Hf; rewrite <- ?app_assoc;
    (repeat split; try reflexivity);
    (eexists; split; [reflexivity|]);
    repeat (apply Forall_app; split); try assumption;
    repeat constructor; intros [].
Qed.

(** The headers of the first variant carry reference block 0. *)
Lemma OnNewLog1_headers o log w r w' :
  OperatorV1.OnNewLog o lib net log w = (r, w') ->
  clock w' = clock w /\ offset_file w' = offset_file w
  /\ exists evs, trace w' = trace w ++ evs
    /\ Forall (fun e => ~ isTracerEvent e) evs
    /\ forall e h, In e evs -> header_of e = Some h ->
       ReferenceBlockNumber h = 0.
Proof.
  unfold OperatorV1.OnNewLog. run. repeat (split_match; run);
    intros E; inversion E; subst; clear E; cbn [trace clock offset_file];
    rewrite <- ?app_assoc; (repeat split; try reflexivity);
    (eexists; split;
     [ first [ reflexivity | symmetry; apply app_nil_r ] | ]);
    (split; [ repeat constructor; intros [] | ]);
    intros ev hd Hin Hh; simpl in Hin;
    repeat match type of Hin with
    | _ \/ _ => destruct Hin as [Hin|Hin]
    | False => contradiction
    | _ = _ => subst ev; simpl in Hh; try discriminate;
               inversion Hh; subst; reflexivity
    end.
Qed.

End Handler.

(** In the range of real block numbers the truncations of
    [uint32(blockHeader.Number.Int64() - 1)] do nothing. *)
Lemma reference_block_in_range number :
  1 <= number <= 2 ^ 32 -> Int.u32 (sub64 (Int64 number) 1) = number - 1.
Proof.
  intros H. unfold Int.u32, sub64, Int64, Int.i64.
  change (2 ^ 32) with 4294967296 in *.
  change (2 ^ 63) with 9223372036854775808.
  change (2 ^ 64) with 18446744073709551616.
  rewrite (Z.mod_small (number + _)) by lia.
  replace (number + 9223372036854775808 - 9223372036854775808 - 1
           + 9223372036854775808) with (number - 1 + 9223372036854775808) by lia.
  rewrite (Z.mod_small (number - 1 + _)) by lia.
  rewrite Z.mod_small by lia. lia.
Qed.

(** The second variant: every header the handler shows has the head
    number minus one as its reference block, for a head in 1 .. 2^32. *)
Lemma OnNewLog_reference_block lib net o log w number e h :
  net_head net = inr number -> 1 <= number <= 2 ^ 32 ->
  In e (since w (snd (OperatorV2.OnNewLog o lib net log w))) ->
  header_of e = Some h ->
  ReferenceBlockNumber h = number - 1.
Proof.
  intros Hhead Hrange Hin Hh.
  destruct (OperatorV2.OnNewLog o lib net log w) as [r w'] eqn:E.
  apply OnNewLog_headers in E. destruct E as (evs & Ht & Hevs).
  unfold since in Hin. cbn [snd] in Hin. rewrite Ht in Hin.
  rewrite skipn_app, skipn_all, Nat.sub_diag in Hin. simpl in Hin.
  destruct (Hevs e h Hin Hh) as (n & Hn & Href).
  rewrite Hhead in Hn. inversion Hn; subst n.
  rewrite Href. apply reference_block_in_range. assumption.
Qed.

(** At head 0 the subtraction wraps: the reference block is 2^32 - 1. *)
Example reference_block_at_genesis :
  Int.u32 (sub64 (Int64 0) 1) = 2 ^ 32 - 1.
Proof. reflexivity. Qed.

(** The first variant, whatever the chain head: every header it shows
    has reference block 0. *)
Lemma OnNewLog1_reference_block lib net o log w e h :
  In e (since w (snd (OperatorV1.OnNewLog o lib net log w))) ->
  header_of e = Some h ->
  ReferenceBlockNumber h = 0.
Proof.
  intros Hin Hh.
  destruct (OperatorV1.OnNewLog o lib net log w) as [r w'] eqn:E.
  apply OnNewLog1_headers in E. destruct E as (_ & _ & evs & Ht & _ & Hevs).
  unfold since in Hin. cbn [snd] in Hin. rewrite Ht in Hin.
  rewrite skipn_app, skipn_all, Nat.sub_diag in Hin. simpl in Hin.
  exact (Hevs e h Hin Hh).
Qed.

(** C1. The claim asks for reference block = chain head - 1 in both
    operator variants. The first variant builds its header with the
    constant 0 (marked "TODO: fixme" in the source): with the chain head at
    160, the header it digests, signs and submits has reference block 0,
    where the claim asks for 159, the reference block the second variant
    gives its header on the same log. *)
Theorem C1_first_variant_reference_block_is_zero :
  net_head Sample.net = inr 160
  /\ exists h sig w',
       OperatorV1.OnNewLog Sample.operator1 Sample.lib Sample.net
         (Sample.log 101 0) Sample.world = (Returns None, w')
       /\ trace w' = [EvGetPoeByBlock 7; EvDigest h; EvSignMessage 0;
                      EvSubmitStateHeader
                        {| req_StateHeader := h; req_Signature := sig;
                           req_Pubkey := Sample.pubkey; req_OperatorId := 77 |}]
       /\ ReferenceBlockNumber h = 0
       /\ ReferenceBlockNumber h <> 160 - 1
       /\ exists h2,
            In (EvPretty h2)
               (trace (snd (OperatorV2.OnNewLog (Sample.operator false)
                              Sample.lib Sample.net (Sample.log 101 0)
                              Sample.world)))
            /\ ReferenceBlockNumber h2 = 160 - 1.
Proof.
  split; [reflexivity|].
  eexists _, _, _. split; [vm_compute; reflexivity|].
  split; [reflexivity|]. split; [reflexivity|]. split; [discriminate|].
  eexists. split.
  - vm_compute. do 3 right. left. reflexivity.
  - reflexivity.
Qed.

(** ** Skipped events *)

Lemma since_app w w' evs : trace w' = trace w ++ evs -> since w w' = evs.
Proof.
  intros H. unfold since. rewrite H, skipn_app, skipn_all, Nat.sub_diag.
  reflexivity.
Qed.

(** A window whose first log the handler accepts goes on with the rest of
    the window, from the world the handler left. *)
Lemma window_handled {H} `{LogTracer.Handler H} cfg (h : H) tgt log rest w w2 :
  LogTracer.OnNewLog h log (after (EvOnNewLog log) w) = (Returns None, w2) ->
  LogTracer.window cfg h tgt (log :: rest) w
  = LogTracer.window cfg h tgt rest (after (EvHandled log None) w2).
Proof.
  intros E. unfold LogTracer.window. cbn [LogTracer.dispatch].
  unfold after in E. run. rewrite E. reflexivity.
Qed.

(** The end of a window in the second variant: the checkpoint is written,
    then the tracer sleeps. *)
Lemma window_end o lib net cfg tgt w :
  LogTracer.window cfg (o, lib, net) tgt [] w
  = (Returns (LogTracer.Advanced tgt),
     mkWorld (if 0 <? LogTracer.pollInterval cfg
              then clock w + LogTracer.pollInterval cfg else clock w)
             (strconv.FormatUint tgt
                ++ skipn (length (strconv.FormatUint tgt)) (offset_file w))
             (trace w ++ [EvSaveBlock tgt; EvSleep (LogTracer.pollInterval cfg)])).
Proof.
  unfold LogTracer.window. cbn [LogTracer.dispatch LogTracer.SaveBlock HandlerV2].
  run. unfold OperatorV2.SaveBlock, os.WriteAt0, LogTracer.sleep. run.
  rewrite <- app_assoc. reflexivity.
Qed.

(** C4, as stated, fails for an event whose proof retrieval reports
    skip=true together with an error: the live retrieval hands the skip
    flag of the prover on beside the traced error, and [OnNewLog] tests
    the error before the flag, so the error is surfaced and the handler
    does not return nil. *)
Lemma C4_counterexample :
  let net := Sample.with_GetPoe (None, true, Some (Remote "busy")) Sample.net in
  let o := Sample.operator false in
  let log := Sample.log 101 0 in
  fst (OperatorV2.proverGetPoe o Sample.lib net (TxHash log) (Topics log)
         (after (EvHeaderByNumber None) Sample.world))
  = Returns (None, true, Some (Trace (Remote "busy")))
  /\ fst (OperatorV2.OnNewLog o Sample.lib net log Sample.world)
     = Returns (Some (Trace (Trace (Remote "busy"))))
  /\ fst (OperatorV2.OnNewLog o Sample.lib net log Sample.world)
     <> Returns None.
Proof.
  split; [reflexivity|]. split; [reflexivity | discriminate].
Qed.

(** C4 (amended). For every event whose proof retrieval reports skip=true
    once the head has been read: [OnNewLog] returns the error of the
    retrieval, traced, if there is one, and nil if there is none; in both
    cases no state header is printed, digested, signed or submitted and
    no error is logged between its call and its return, and the offset
    file is left as it was. With no error the scan cycle (after the spec)
    treats the log as handled: the window goes on with the remaining logs
    whatever the skip policy, and a window that ends there advances the
    checkpoint: [SaveBlock] writes the decimal text of the target over the
    front of the offset file, and [GetBlock] then reads the target (a
    target below 10^16 over a record that was not longer than its
    text). *)
Theorem C4_skip_is_silent_success o lib net log poe err number :
  net_head net = inr number ->
  (forall w1, fst (OperatorV2.proverGetPoe o lib net (TxHash log) (Topics log) w1)
              = Returns (poe, true, err)) ->
  forall w,
    let w2 := snd (OperatorV2.proverGetPoe o lib net (TxHash log) (Topics log)
                     (after (EvHeaderByNumber None) w)) in
    OperatorV2.OnNewLog o lib net log w = (Returns (option_map Trace err), w2)
    /\ offset_file w2 = offset_file w
    /\ (forall e, In e (since w w2) ->
          ~ isHeaderEvent e /\ forall logged, e <> EvError logged)
    /\ (err = None ->
        forall cfg tgt rest w0,
          let w3 := after (EvHandled log None)
                      (snd (OperatorV2.OnNewLog o lib net log
                              (after (EvOnNewLog log) w0))) in
          let w4 := snd (LogTracer.window cfg (o, lib, net) tgt [log] w0) in
          LogTracer.window cfg (o, lib, net) tgt (log :: rest) w0
          = LogTracer.window cfg (o, lib, net) tgt rest w3
          /\ fst (LogTracer.window cfg (o, lib, net) tgt [log] w0)
             = Returns (LogTracer.Advanced tgt)
          /\ In (EvSaveBlock tgt) (since w0 w4)
          /\ offset_file w4
             = strconv.FormatUint tgt
                 ++ skipn (length (strconv.FormatUint tgt)) (offset_file w0)
          /\ (0 <= tgt < 10 ^ 16 ->
              (length (offset_file w0) <= length (strconv.FormatUint tgt))%nat ->
              OperatorV2.GetBlock w4 = (Returns (tgt, None), w4))).
Proof.
  intros Hhead Hskip.
  assert (forall w, OperatorV2.OnNewLog o lib net log w
                    = (Returns (option_map Trace err),
                       snd (OperatorV2.proverGetPoe o lib net (TxHash log) (Topics log)
                              (after (EvHeaderByNumber None) w)))) as Hret.
  { intros w. unfold OperatorV2.OnNewLog. run. rewrite Hhead. run.
    specialize (Hskip (after (EvHeaderByNumber None) w)). unfold after in Hskip.
    destruct (OperatorV2.proverGetPoe o lib net (TxHash log) (Topics log) _)
      as [rp wp]. cbn [fst snd] in *. subst rp. destruct err; reflexivity. }
  assert (forall w, exists evs,
             trace (snd (OperatorV2.OnNewLog o lib net log w))
             = trace w ++ EvHeaderByNumber None :: evs
             /\ Forall isRetrievalEvent evs) as Hevs.
  { intros w. rewrite Hret. cbn [snd].
    destruct (OperatorV2.proverGetPoe o lib net (TxHash log) (Topics log)
                (after (EvHeaderByNumber None) w)) as [rp wp] eqn:Ep.
    apply proverGetPoe_frame in Ep. destruct Ep as (_ & _ & evs & Ht & Hf).
    exists evs. cbn [snd]. rewrite Ht. unfold after. cbn [trace].
    rewrite <- app_assoc. split; [reflexivity | assumption]. }
  assert (forall w, offset_file (snd (OperatorV2.OnNewLog o lib net log w))
                    = offset_file w) as Hfile.
  { intros w.
    destruct (OperatorV2.OnNewLog o lib net log w) as [r w'] eqn:E.
    apply OnNewLog_frame in E. cbn [snd]. tauto. }
  intros w w2. split; [apply Hret|]. split.
  { specialize (Hfile w). rewrite Hret in Hfile. exact Hfile. }
  split.
  - intros e Hin. destruct (Hevs w) as (evs & Ht & Hf).
    rewrite Hret in Ht. cbn [snd] in Ht. fold w2 in Ht.
    rewrite (since_app _ _ _ Ht) in Hin. destruct Hin as [<-|Hin].
    + split; [intros [] | discriminate].
    + rewrite Forall_forall in Hf. specialize (Hf e Hin).
      destruct e; simpl in Hf; try contradiction;
        (split; [intros [] | discriminate]).
  - intros -> cfg tgt rest w0 w3 w4. cbn [option_map] in Hret.
    assert (forall rest',
               LogTracer.window cfg (o, lib, net) tgt (log :: rest') w0
               = LogTracer.window cfg (o, lib, net) tgt rest' w3) as Hgo.
    { intros rest'. apply window_handled. cbn [LogTracer.OnNewLog HandlerV2].
      rewrite Hret. reflexivity. }
    split; [apply Hgo|]. subst w4. rewrite Hgo.
    destruct (Hevs (after (EvOnNewLog log) w0)) as (evs & Ht & _).
    assert (trace w3 = trace w0 ++ EvOnNewLog log :: EvHeaderByNumber None
                                   :: evs ++ [EvHandled log None]) as Ht3.
    { subst w3. unfold after at 1. cbn [trace]. rewrite Ht.
      unfold after. cbn [trace]. rewrite <- !app_assoc. reflexivity. }
    assert (offset_file w3 = offset_file w0) as Hf3.
    { subst w3. unfold after at 1. cbn [offset_file]. rewrite Hfile.
      reflexivity. }
    rewrite window_end. cbn [fst snd offset_file]. rewrite Hf3.
    split; [reflexivity|]. split.
    { erewrite since_app.
      2:{ cbn [trace]. rewrite Ht3, <- app_assoc. reflexivity. }
      apply in_or_app. right. left. reflexivity. }
    split; [reflexivity|].
    intros Htgt Hlen. rewrite GetBlock_eq. cbn [offset_file].
    rewrite skipn_all2 by lia. rewrite app_nil_r.
    rewrite readCheckpoint_FormatUint by assumption. reflexivity.
Qed.

Lemma C4_skip_is_silent_success_witness :
  let net := Sample.with_GetPoe (None, true, None) Sample.net in
  let o := Sample.operator false in
  let log := Sample.log 101 0 in
  net_head net = inr 160
  /\ (forall w1, fst (OperatorV2.proverGetPoe o Sample.lib net (TxHash log)
                       (Topics log) w1) = Returns (None, true, None))
  /\ OperatorV2.OnNewLog o Sample.lib net log Sample.world
     = (Returns None,
        mkWorld 0 [] [EvHeaderByNumber None; EvInfo "fetching poe for batch";
                      EvGetPoe 9101])
  /\ offset_file (snd (LogTracer.window Sample.tracer (o, Sample.lib, net) 155
                         [log] Sample.world))
     = strconv.FormatUint 155.
Proof.
  intros net o log. split; [reflexivity|]. split; [intros w1; reflexivity|].
  pose proof (C4_skip_is_silent_success o Sample.lib net log None None 160
                eq_refl (fun w1 => eq_refl) Sample.world) as Hskip.
  destruct Hskip as (Hnil & _ & _ & Hwindow).
  split; [exact Hnil|].
  destruct (Hwindow eq_refl Sample.tracer 155 [] Sample.world)
    as (_ & _ & _ & Hfile & _).
  exact Hfile.
Defined.

(** ** Simulation: the committed block range *)

Lemma slice_tail count records sp :
  Bytes.reslice (Bytes.mkSlice (count :: records) sp) 1
    (Z.of_nat (length (count :: records)))
  = Some (Bytes.mkSlice records sp).
Proof.
  unfold Bytes.reslice. cbn [Bytes.elems Bytes.spare].
  cbn [length app]. rewrite length_app, !Nat2Z.inj_succ, Nat2Z.inj_add.
  replace ((0 <=? 1) && (1 <=? Z.succ (Z.of_nat (length records)))
           && (Z.succ (Z.of_nat (length records))
               <=? Z.succ (Z.of_nat (length records) + Z.of_nat (length sp))))
    with true by (symmetry; rewrite !andb_true_iff, !Z.leb_le; lia).
  replace (Z.to_nat (Z.succ (Z.of_nat (length records)) - 1))
    with (length records) by lia.
  replace (Z.to_nat (Z.succ (Z.of_nat (length records))))
    with (S (length records)) by lia.
  change (Z.to_nat 1) with 1%nat. cbn [skipn].
  rewrite firstn_app, firstn_all, Nat.sub_diag, firstn_O, app_nil_r.
  rewrite skipn_app, skipn_all, Nat.sub_diag, skipn_O. reflexivity.
Qed.

(** A record that lies within the length of the chunk is read from the
    chunk, whatever follows it in the backing array. *)
Lemma slice_record records sp i :
  0 <= i -> 60 * i + 8 <= Z.of_nat (length records) ->
  exists sp',
    Bytes.reslice (Bytes.mkSlice records sp) (i * 60) (i * 60 + 8)
    = Some (Bytes.mkSlice (firstn 8 (skipn (Z.to_nat (60 * i)) records)) sp').
Proof.
  intros Hi Hlen. unfold Bytes.reslice. cbn [Bytes.elems Bytes.spare].
  rewrite length_app, Nat2Z.inj_add.
  replace ((0 <=? i * 60) && (i * 60 <=? i * 60 + 8)
           && (i * 60 + 8 <=? Z.of_nat (length records) + Z.of_nat (length sp)))
    with true by (symmetry; rewrite !andb_true_iff, !Z.leb_le; lia).
  replace (Z.to_nat (i * 60 + 8 - i * 60)) with 8%nat by lia.
  replace (i * 60) with (60 * i) by lia.
  eexists. f_equal. f_equal.
  rewrite skipn_app.
  replace (Z.to_nat (60 * i) - length records)%nat with O by lia.
  rewrite skipn_O, firstn_app.
  replace (8 - length (skipn (Z.to_nat (60 * i)) records))%nat with O
    by (rewrite length_skipn; lia).
  rewrite firstn_O, app_nil_r. reflexivity.
Qed.

Lemma scanBlocks_spec count records sp todo : forall i s e,
  0 <= i ->
  todo = O \/ 60 * (i + Z.of_nat todo - 1) + 8 <= Z.of_nat (length records) ->
  OperatorV2.scanBlocks (Bytes.mkSlice (count :: records) sp) todo i s e
  = Returns (fold_left track
               (map (fun k => blockNumberAt (Bytes.mkSlice (count :: records) sp)
                                            (Z.of_nat k))
                    (seq (Z.to_nat i) todo))
               (s, e)).
Proof.
  induction todo as [|k IH]; intros i s e Hi Hlen; [reflexivity|].
  destruct Hlen as [Hlen|Hlen]; [discriminate|].
  cbn [OperatorV2.scanBlocks Bytes.elems]. rewrite slice_tail.
  destruct (slice_record records sp i Hi ltac:(lia)) as (sp' & ->).
  cbn [seq map fold_left Bytes.elems]. rewrite Z2Nat.id by lia.
  unfold track at 2. cbn [fst snd]. unfold blockNumberAt at 2 3.
  cbn [tl Bytes.elems].
  replace (S (Z.to_nat i)) with (Z.to_nat (i + 1)) by lia.
  destruct (s =? 0); apply IH; try lia;
    (destruct k; [left; reflexivity | right; lia]).
Qed.

Lemma scanChunks_spec chunks : forall s e,
  Forall chunkReadable chunks ->
  OperatorV2.scanChunks chunks s e
  = Returns (fold_left track (committed chunks) (s, e)).
Proof.
  induction chunks as [|chunk rest IH]; intros s e Hall; [reflexivity|].
  inversion Hall as [|? ? Hc Hrest]; subst.
  destruct Hc as (count & records & Helems & Hlen).
  destruct chunk as [els sp]. cbn [Bytes.elems] in Helems. subst els.
  cbn [OperatorV2.scanChunks Bytes.elems]. unfold Bytes.index. cbn [length].
  replace ((0 <=? 0) && (0 <? Z.of_nat (S (length records)))) with true
    by (symmetry; rewrite andb_true_iff, Z.leb_le, Z.ltb_lt; lia).
  change (Z.to_nat 0) with O. cbn [nth_error].
  pose proof (to_Z_range count) as Hcount.
  rewrite scanBlocks_spec.
  - change (Z.to_nat 0) with O.
    unfold committed. cbn [flat_map]. rewrite fold_left_app.
    fold (committed rest). unfold blockNumbers at 1. cbn [Bytes.elems].
    destruct (fold_left track _ (s, e)) as [s' e']. apply IH. assumption.
  - lia.
  - destruct Hlen as [Hz|Hlen]; [left; rewrite Hz; reflexivity | right; lia].
Qed.

Lemma last_cons (rest : list Z) : forall b e, last (b :: rest) e = last rest b.
Proof.
  induction rest as [|c rest IH]; intros b e; [reflexivity|].
  change (last (b :: c :: rest) e) with (last (c :: rest) e).
  rewrite (IH c e), (IH c b). reflexivity.
Qed.

(** Once [startBlock] is set, only [endBlock] moves. *)
Lemma track_started blocks : forall s e,
  s <> 0 -> fold_left track blocks (s, e) = (s, last blocks e).
Proof.
  induction blocks as [|b rest IH]; intros s e Hs; [reflexivity|].
  cbn [fold_left]. unfold track at 2. cbn [fst snd].
  destruct (Z.eqb_spec s 0); [contradiction|].
  rewrite IH by assumption. rewrite last_cons. reflexivity.
Qed.

(** With a first block other than 0, the scan ends on the first block and
    on the last of the blocks after it (0 when there is none). *)
Lemma track_first_last first rest :
  first <> 0 ->
  fold_left track (first :: rest) (0, 0) = (first, last rest 0).
Proof.
  intros Hf. cbn [fold_left]. unfold track at 2. cbn [fst snd Z.eqb].
  apply track_started. assumption.
Qed.

Lemma slice_from (s : list byte) lo :
  0 <= lo <= Z.of_nat (length s) ->
  Bytes.slice s lo (Z.of_nat (length s))
  = Some (firstn (Z.to_nat (Z.of_nat (length s) - lo)) (skipn (Z.to_nat lo) s)).
Proof.
  intros H. unfold Bytes.slice.
  replace ((0 <=? lo) && (lo <=? Z.of_nat (length s))
           && (Z.of_nat (length s) <=? Z.of_nat (length s)))
    with true by (symmetry; rewrite !andb_true_iff, !Z.leb_le; lia).
  reflexivity.
Qed.

Lemma slice_beyond (s : list byte) lo hi :
  Z.of_nat (length s) < hi -> Bytes.slice s lo hi = None.
Proof.
  intros H. unfold Bytes.slice.
  replace (hi <=? Z.of_nat (length s)) with false by (symmetry; apply Z.leb_gt; lia).
  rewrite andb_false_r. reflexivity.
Qed.

Section Simulation.

Variables (lib : Lib) (net : Net) (o : OperatorV2.Operator).
Hypothesis Hsim : OperatorV2.Simulation o = true.

(** What simulation-mode proof retrieval returns when every step
    succeeds: the roots of the headers of [startBlock] and [endBlock] as
    the scan leaves them, and topic 2 as the batch hash. *)
Lemma simulation_poe txHash topics w cfg data input chunks first rest r1 r2 bh :
  OperatorV2.taskFetcher o = Some cfg ->
  net_tx net txHash = inr data ->
  Bytes.slice data 4 (Z.of_nat (length data)) = Some input ->
  lib_Unpack lib input = inr chunks ->
  Forall chunkReadable chunks ->
  committed chunks = first :: rest ->
  first <> 0 ->
  net_header_root net first = inr r1 ->
  net_header_root net (last rest 0) = inr r2 ->
  nth_error topics 2 = Some bh ->
  OperatorV2.proverGetPoe o lib net txHash topics w
  = (Returns (Some {| resp_Poe := Some {| BatchHash := bh;
                                          NewStateRoot := r2;
                                          PrevStateRoot := r1 |};
                      BatchId := 0;
                      StartBlock := Int.u64 first;
                      EndBlock := Int.u64 (last rest 0) |}, false, None),
     mkWorld (clock w) (offset_file w)
             (trace w ++ [EvSourceTransactionByHash txHash;
                          EvSourceHeaderByNumber first;
                          EvSourceHeaderByNumber (last rest 0)])).
Proof.
  intros Hcfg Htx Hin Hun Hread Hcomm Hfirst Hr1 Hr2 Hbh.
  unfold OperatorV2.proverGetPoe. rewrite Hsim, Hcfg. run.
  rewrite Htx. run. rewrite Hin. run. rewrite Hun.
  rewrite scanChunks_spec by assumption.
  rewrite Hcomm, track_first_last by assumption. run.
  rewrite Hr1. run. rewrite Hr2. run. rewrite Hbh. run.
  rewrite <- !app_assoc. reflexivity.
Qed.

(** The read of [topics[2]] comes last: with fewer than three topics the
    retrieval panics when, and only when, every step before succeeded. *)
Lemma simulation_few_topics txHash topics w cfg data input chunks r1 r2 :
  (length topics < 3)%nat ->
  OperatorV2.taskFetcher o = Some cfg ->
  net_tx net txHash = inr data ->
  Bytes.slice data 4 (Z.of_nat (length data)) = Some input ->
  lib_Unpack lib input = inr chunks ->
  Forall chunkReadable chunks ->
  net_header_root net (fst (fold_left track (committed chunks) (0, 0))) = inr r1 ->
  net_header_root net (snd (fold_left track (committed chunks) (0, 0))) = inr r2 ->
  fst (OperatorV2.proverGetPoe o lib net txHash topics w) = Panics IndexOutOfRange.
Proof.
  intros Hlen Hcfg Htx Hin Hun Hread Hr1 Hr2.
  unfold OperatorV2.proverGetPoe. rewrite Hsim, Hcfg. run.
  rewrite Htx. run. rewrite Hin. run. rewrite Hun.
  rewrite scanChunks_spec by assumption.
  destruct (fold_left track (committed chunks) (0, 0)) as [s e].
  cbn [fst snd] in *. run. rewrite Hr1. run. rewrite Hr2. run.
  replace (nth_error topics 2) with (@None Hash)
    by (symmetry; apply nth_error_None; lia).
  reflexivity.
Qed.

(** With three topics, call data of at least four bytes and readable
    chunks, no access of the retrieval is out of range. *)
Lemma simulation_in_range txHash topics w :
  (3 <= length topics)%nat ->
  (forall data, net_tx net txHash = inr data -> (4 <= length data)%nat) ->
  (forall data input chunks,
      net_tx net txHash = inr data ->
      Bytes.slice data 4 (Z.of_nat (length data)) = Some input ->
      lib_Unpack lib input = inr chunks -> Forall chunkReadable chunks) ->
  ~ outOfRange (fst (OperatorV2.proverGetPoe o lib net txHash topics w)).
Proof.
  intros Hlen Hdata Hchunks.
  unfold OperatorV2.proverGetPoe. rewrite Hsim. run.
  destruct (OperatorV2.taskFetcher o); run;
    [| intros [H|H]; discriminate].
  destruct (net_tx net txHash) as [err|data] eqn:Htx; run;
    [intros [H|H]; discriminate|].
  specialize (Hdata data eq_refl). specialize (Hchunks data).
  rewrite slice_from by lia. run.
  rewrite slice_from in Hchunks by lia.
  destruct (lib_Unpack lib _) as [err|chunks] eqn:Hun;
    [intros [H|H]; discriminate|].
  rewrite scanChunks_spec
    by (eapply Hchunks; [reflexivity | reflexivity | exact Hun]).
  destruct (fold_left track (committed chunks) (0, 0)) as [s e]. run.
  destruct (net_header_root net s); run; [intros [H|H]; discriminate|].
  destruct (net_header_root net e); run; [intros [H|H]; discriminate|].
  destruct (nth_error topics 2) eqn:Ht; run; [intros [H|H]; discriminate|].
  apply nth_error_None in Ht. lia.
Qed.

End Simulation.

(** Live retrieval reads [topics[2]] first, for its log line. *)
Lemma live_few_topics lib net o txHash topics w :
  OperatorV2.Simulation o = false -> (length topics < 3)%nat ->
  OperatorV2.proverGetPoe o lib net txHash topics w = (Panics IndexOutOfRange, w).
Proof.
  intros Hlive Hlen. unfold OperatorV2.proverGetPoe. rewrite Hlive.
  replace (nth_error topics 2) with (@None Hash)
    by (symmetry; apply nth_error_None; lia).
  reflexivity.
Qed.

Lemma live_in_range lib net o txHash topics w :
  OperatorV2.Simulation o = false -> (3 <= length topics)%nat ->
  ~ outOfRange (fst (OperatorV2.proverGetPoe o lib net txHash topics w)).
Proof.
  intros Hlive Hlen. unfold OperatorV2.proverGetPoe. rewrite Hlive.
  destruct (nth_error topics 2) eqn:Ht;
    [| apply nth_error_None in Ht; lia].
  run. destruct (net_GetPoe net txHash) as [[poe skip] [e|]];
    intros [H|H]; discriminate.
Qed.

(** The first variant slices 32 bytes off the log data before anything
    else. *)
Lemma OnNewLog1_short_data lib net o log w :
  (length (Data log) < 32)%nat ->
  OperatorV1.OnNewLog o lib net log w = (Panics SliceOutOfRange, w).
Proof.
  intros Hlen. unfold OperatorV1.OnNewLog.
  rewrite slice_beyond by lia. reflexivity.
Qed.

Lemma OnNewLog1_in_range lib net o log w :
  (32 <= length (Data log))%nat ->
  ~ outOfRange (fst (OperatorV1.OnNewLog o lib net log w)).
Proof.
  intros Hlen. unfold OperatorV1.OnNewLog.
  assert (exists prefix, Bytes.slice (Data log) 0 32 = Some prefix) as [prefix Hp].
  { unfold Bytes.slice.
    replace ((0 <=? 0) && (0 <=? 32) && (32 <=? Z.of_nat (length (Data log))))
      with true by (symmetry; rewrite !andb_true_iff, !Z.leb_le; lia).
    eauto. }
  rewrite Hp. run. repeat (split_match; run); intros [H|H]; discriminate.
Qed.

(** A batch of two chunks with blocks 7, 8 and 9: the roots are those of
    the headers of blocks 7 and 9. *)
Example simulation_three_blocks :
  let chunks := [x02 :: Sample.blockRecord 7 ++ Sample.blockRecord 8;
                 x01 :: Sample.blockRecord 9] in
  let data := abi.commitBatch Sample.selector 0 [] chunks [] in
  let net := Sample.with_calldata (inr data) Sample.net in
  fst (OperatorV2.proverGetPoe (Sample.operator true) Sample.lib net 9101
         [11; 12; 13] Sample.world)
  = Returns (Some {| resp_Poe := Some {| BatchHash := 13;
                                         NewStateRoot := 1009;
                                         PrevStateRoot := 1007 |};
                     BatchId := 0; StartBlock := 7; EndBlock := 9 |},
             false, None).
Proof. vm_compute. reflexivity. Qed.

(** C5. The claim takes the new state root from the header of the last
    committed block. The scan sets [endBlock] only once [startBlock] is
    set, so for a batch that commits a single block (here block 7, one
    chunk with one record, in real call data) [endBlock] stays 0: the new
    state root is the root of block 0 (1000 here), not the root of block 7
    (1007), and the response has EndBlock 0 below StartBlock 7. *)
Theorem C5_single_block_batch_ends_at_block_zero :
  let chunks := [x01 :: Sample.blockRecord 7] in
  let data := abi.commitBatch Sample.selector 0 [] chunks [] in
  let net := Sample.with_calldata (inr data) Sample.net in
  (exists decoded,
      lib_Unpack Sample.lib (skipn 4 data) = inr decoded
      /\ map Bytes.elems decoded = chunks
      /\ committed decoded = [7])
  /\ net_header_root net 7 = inr 1007
  /\ net_header_root net 0 = inr 1000
  /\ OperatorV2.proverGetPoe (Sample.operator true) Sample.lib net 9101
       [11; 12; 13] Sample.world
     = (Returns (Some {| resp_Poe := Some {| BatchHash := 13;
                                             NewStateRoot := 1000;
                                             PrevStateRoot := 1007 |};
                         BatchId := 0; StartBlock := 7; EndBlock := 0 |},
                 false, None),
        mkWorld 0 [] [EvSourceTransactionByHash 9101;
                      EvSourceHeaderByNumber 7;
                      EvSourceHeaderByNumber 0]).
Proof.
  cbv zeta. split.
  - eexists. split; [vm_compute; reflexivity|]. split; reflexivity.
  - vm_compute. repeat split; reflexivity.
Qed.

(** The decoded chunks keep the rest of the call data as capacity: for a
    chunk that is only its count byte the record slice is in range, and
    the scan reads the padding that follows the chunk, block number 0. *)
Example chunk_of_count_byte_reads_padding :
  let data := abi.commitBatch Sample.selector 0 [] [[x01]] [] in
  let net := Sample.with_calldata (inr data) Sample.net in
  fst (OperatorV2.proverGetPoe (Sample.operator true) Sample.lib net 9101
         [11; 12; 13] Sample.world)
  = Returns (Some {| resp_Poe := Some {| BatchHash := 13;
                                         NewStateRoot := 1000;
                                         PrevStateRoot := 1000 |};
                     BatchId := 0; StartBlock := 0; EndBlock := 0 |},
             false, None).
Proof. vm_compute. reflexivity. Qed.

(** C10, as stated, fails twice. With no topic at all the simulation
    retrieval is defined when the transaction lookup fails: it returns
    that error before it reaches [topics[2]]. And a log with 32 data bytes
    and three topics does not keep the accesses in range: when the call
    data holds an empty chunk, [OnNewLog] panics on [chunk[0]]. *)
Lemma C10_counterexample :
  (let net := Sample.with_calldata (inl (Remote "timeout")) Sample.net in
   fst (OperatorV2.proverGetPoe (Sample.operator true) Sample.lib net 9101
          [] Sample.world)
   = Returns (None, false, Some (Trace (Remote "timeout"))))
  /\ (let data := abi.commitBatch Sample.selector 0 [] [[]] [] in
      let net := Sample.with_calldata (inr data) Sample.net in
      let log := Sample.log 101 0 in
      (32 <= length (Data log))%nat /\ (3 <= length (Topics log))%nat
      /\ fst (OperatorV2.OnNewLog (Sample.operator true) Sample.lib net log
                Sample.world)
         = Panics IndexOutOfRange).
Proof.
  split; [reflexivity|]. cbv zeta.
  split; [vm_compute; lia|]. split; [vm_compute; lia|].
  vm_compute. reflexivity.
Qed.

(** C10 (amended). The first variant reads [log.Data[:32]] unchecked: its
    [OnNewLog] panics on the slice for every log with fewer than 32 data
    bytes, and makes no out-of-range access for a log with at least 32.
    Simulation-mode proof retrieval reads [topics[2]] unchecked, as its
    last step: for a log with fewer than 3 topics it panics on the index
    whenever the transaction lookup, the decoding, the chunk scan and both
    header fetches succeed; it makes no out-of-range access when the log
    has at least 3 topics, the call data at least 4 bytes, and every
    decoded chunk is read within its length (its count byte is there, and
    so are the first 8 bytes of its last record). *)
Theorem C10_out_of_range_accesses lib net :
  (forall o log w,
      (length (Data log) < 32)%nat ->
      OperatorV1.OnNewLog o lib net log w = (Panics SliceOutOfRange, w))
  /\ (forall o log w,
      (32 <= length (Data log))%nat ->
      ~ outOfRange (fst (OperatorV1.OnNewLog o lib net log w)))
  /\ (forall o txHash topics w cfg data input chunks r1 r2,
      OperatorV2.Simulation o = true ->
      (length topics < 3)%nat ->
      OperatorV2.taskFetcher o = Some cfg ->
      net_tx net txHash = inr data ->
      Bytes.slice data 4 (Z.of_nat (length data)) = Some input ->
      lib_Unpack lib input = inr chunks ->
      Forall chunkReadable chunks ->
      net_header_root net (fst (fold_left track (committed chunks) (0, 0))) = inr r1 ->
      net_header_root net (snd (fold_left track (committed chunks) (0, 0))) = inr r2 ->
      fst (OperatorV2.proverGetPoe o lib net txHash topics w)
      = Panics IndexOutOfRange)
  /\ (forall o txHash topics w,
      OperatorV2.Simulation o = true ->
      (3 <= length topics)%nat ->
      (forall data, net_tx net txHash = inr data -> (4 <= length data)%nat) ->
      (forall data input chunks,
          net_tx net txHash = inr data ->
          Bytes.slice data 4 (Z.of_nat (length data)) = Some input ->
          lib_Unpack lib input = inr chunks -> Forall chunkReadable chunks) ->
      ~ outOfRange (fst (OperatorV2.proverGetPoe o lib net txHash topics w))).
Proof.
  split; [|split; [|split]].
  - intros o log w Hlen. apply OnNewLog1_short_data. assumption.
  - intros o log w Hlen. apply OnNewLog1_in_range. assumption.
  - intros o txHash topics w cfg data input chunks r1 r2 Hsim Hlen.
    apply simulation_few_topics; assumption.
  - intros o txHash topics w Hsim Hlen. apply simulation_in_range; assumption.
Qed.

Lemma C10_out_of_range_accesses_witness :
  let chunks := [Bytes.mkSlice (x01 :: Sample.blockRecord 7) (repeat x00 35)] in
  let data := abi.commitBatch Sample.selector 0 []
                [x01 :: Sample.blockRecord 7] [] in
  let net := Sample.with_calldata (inr data) Sample.net in
  let short := mkLog 4242 [11; 12] [x01; x02] 101 9101 0 in
  (length (Data short) < 32)%nat
  /\ OperatorV1.OnNewLog Sample.operator1 Sample.lib net short Sample.world
     = (Panics SliceOutOfRange, Sample.world)
  /\ (length (Topics short) < 3)%nat
  /\ lib_Unpack Sample.lib (skipn 4 data) = inr chunks
  /\ Forall chunkReadable chunks
  /\ fst (OperatorV2.proverGetPoe (Sample.operator true) Sample.lib net 9101
            (Topics short) Sample.world)
     = Panics IndexOutOfRange.
Proof.
  intros chunks data net short.
  assert (Forall chunkReadable chunks) as Hread.
  { repeat constructor. exists x01, (Sample.blockRecord 7).
    split; [reflexivity | right; vm_compute; discriminate]. }
  assert (lib_Unpack Sample.lib (skipn 4 data) = inr chunks) as Hun
    by (vm_compute; reflexivity).
  split; [vm_compute; lia|]. split.
  - apply (proj1 (C10_out_of_range_accesses Sample.lib net)). vm_compute. lia.
  - split; [vm_compute; lia|]. split; [exact Hun|]. split; [exact Hread|].
    apply (proj1 (proj2 (proj2 (C10_out_of_range_accesses Sample.lib net)))
             (Sample.operator true) 9101 (Topics short) Sample.world
             Sample.tracer data (skipn 4 data) chunks 1007 1000);
      try reflexivity; try exact Hread; try exact Hun.
    vm_compute. lia.
Defined.

(** ** Attestation renewal *)

Lemma i64_small x : - 2 ^ 63 <= x < 2 ^ 63 -> Int.i64 x = x.
Proof.
  intros H. unfold Int.i64.
  change (2 ^ 63) with 9223372036854775808 in *.
  change (2 ^ 64) with 18446744073709551616.
  rewrite Z.mod_small by lia. lia.
Qed.

(** The longest wait in seconds that fits a [time.Duration]. *)
Lemma Second_fits d : 0 <= d <= 9223372036 -> mul64 d Second = d * Second.
Proof.
  intros H. unfold mul64, Second. apply i64_small.
  change (2 ^ 63) with 9223372036854775808. change (10 ^ 9) with 1000000000. lia.
Qed.

Section Renewal.

Variables (o : OperatorV2.Operator) (lib : Lib) (net : Net).
Variables (pubkeyBytes : list byte) (validSecs proverTime : Z).

Hypothesis Hvalid : net_AttestValiditySeconds net = inr validSecs.
Hypothesis Hattested :
  net_AttestedProvers net (lib_Keccak256Hash lib pubkeyBytes) = inr proverTime.

(** A wait that fits: when the clock of the runtime is not negative and
    its reading plus [d] stays in [int64], [Sleep] takes [d]. *)
Lemma wakeup_fits d wall :
  0 < d -> 0 <= lib_nanotime lib wall -> lib_nanotime lib wall + d < 2 ^ 63 ->
  wakeup lib d wall = wall + d.
Proof.
  intros Hd Hnow Hfit. unfold wakeup.
  destruct (Z.leb_spec d 0); [lia|]. cbv zeta.
  unfold add64. rewrite i64_small
    by (change (2 ^ 63) with 9223372036854775808 in *; lia).
  destruct (Z.ltb_spec (lib_nanotime lib wall + d) 0); lia.
Qed.

(** A wait that does not fit is cut short: when the reading of the clock
    of the runtime plus [d] leaves [int64], the goroutine is woken at
    [maxWhen], before [d] has passed. *)
Lemma wakeup_cut_short d wall :
  0 < d < 2 ^ 63 -> 0 <= lib_nanotime lib wall < 2 ^ 63 ->
  2 ^ 63 <= lib_nanotime lib wall + d ->
  wakeup lib d wall = wall + (maxWhen - lib_nanotime lib wall)
  /\ wakeup lib d wall < wall + d.
Proof.
  intros Hd Hnow Hover. unfold wakeup.
  destruct (Z.leb_spec d 0); [lia|]. cbv zeta.
  assert (add64 (lib_nanotime lib wall) d
          = lib_nanotime lib wall + d - 2 ^ 64) as ->.
  { unfold add64, Int.i64.
    change (2 ^ 63) with 9223372036854775808 in *.
    change (2 ^ 64) with 18446744073709551616.
    replace (lib_nanotime lib wall + d + 9223372036854775808)
      with (lib_nanotime lib wall + d - 9223372036854775808
            + 1 * 18446744073709551616) by lia.
    rewrite Z.mod_add by lia. rewrite Z.mod_small by lia. lia. }
  change (2 ^ 63) with 9223372036854775808 in *.
  change (2 ^ 64) with 18446744073709551616.
  destruct (Z.ltb_spec (lib_nanotime lib wall + d - 18446744073709551616) 0);
    [|lia].
  unfold maxWhen. change (2 ^ 63) with 9223372036854775808. split; lia.
Qed.

(** A wait that is not positive takes no time. *)
Lemma wakeup_at_once d wall : d <= 0 -> wakeup lib d wall = wall.
Proof.
  intros Hd. unfold wakeup. destruct (Z.leb_spec d 0); [reflexivity | lia].
Qed.

(** The renewal step up to the call of [registerAttestationReport], when
    no computation leaves [int64] and the wake-up time fits the clock of
    the runtime. *)
Lemma checkNext_sleeps w :
  0 <= proverTime -> 0 <= validSecs -> proverTime + validSecs < 2 ^ 63 ->
  0 <= clock w -> clock w / 10 ^ 9 + 300 < 2 ^ 63 ->
  let deadline := proverTime + validSecs in
  let now := clock w / 10 ^ 9 in
  0 <= lib_nanotime lib (clock w) ->
  lib_nanotime lib (clock w) + Z.max 0 (deadline - now - 300) * Second < 2 ^ 63 ->
  OperatorV2.checkNext o lib net pubkeyBytes w
  = OperatorV2.registerAttestationReport o lib net pubkeyBytes
      (mkWorld (clock w + Z.max 0 (deadline - now - 300) * Second)
               (offset_file w)
               (trace w ++ [EvAttestValiditySeconds;
                            EvAttestedProvers (lib_Keccak256Hash lib pubkeyBytes);
                            EvInfo "next attestation will be at"]
                       ++ (if deadline >? now + 300
                           then [EvSleep ((deadline - now - 300) * Second)]
                           else []))).
Proof.
  intros Ht Hv Hsum Hc Hnow deadline now Hmono Hfit.
  assert (0 <= now) as Hn by (apply Z.div_pos; [assumption | reflexivity]).
  change (2 ^ 63) with 9223372036854775808 in *.
  unfold OperatorV2.checkNext. run. rewrite Hvalid. run. rewrite Hattested. run.
  unfold Unix. run. fold now.
  unfold Int64. rewrite !(i64_small proverTime), !(i64_small validSecs)
    by (change (2 ^ 63) with 9223372036854775808; lia).
  unfold add64, sub64.
  rewrite (i64_small (proverTime + validSecs))
    by (change (2 ^ 63) with 9223372036854775808; lia).
  rewrite (i64_small (now + 300))
    by (change (2 ^ 63) with 9223372036854775808; lia).
  fold deadline.
  rewrite (i64_small (deadline - now))
    by (change (2 ^ 63) with 9223372036854775808; subst deadline; lia).
  rewrite (i64_small (deadline - now - 300))
    by (change (2 ^ 63) with 9223372036854775808; subst deadline; lia).
  rewrite Z.gtb_ltb. destruct (Z.ltb_spec (now + 300) deadline) as [Hlt|Hge].
  - rewrite Z.max_r in * by lia.
    assert (0 < (deadline - now - 300) * Second) as Hpos
      by (unfold Second; change (10 ^ 9) with 1000000000; lia).
    rewrite Second_fits
      by (unfold Second in *; change (10 ^ 9) with 1000000000 in *; lia).
    unfold Sleep. run.
    rewrite (wakeup_fits _ _ Hpos Hmono)
      by (change (2 ^ 63) with 9223372036854775808; exact Hfit).
    rewrite <- !app_assoc. reflexivity.
  - rewrite Z.max_l by lia. rewrite Z.mul_0_l, Z.add_0_r, app_nil_r.
    run. rewrite <- !app_assoc. reflexivity.
Qed.

End Renewal.

(** C6, as stated, fails for attestation records whose wait does not fit
    a [time.Duration]: with a validity window of 10^10 + 300 seconds and a
    registration at the present second, deadline - now - 300 is 10^10
    seconds, the product with [time.Second] wraps to a negative duration,
    [time.Sleep] returns at once, and the renewal is issued with no wait
    where the claim asks for a sleep of 10^10 seconds. *)
Lemma C6_counterexample :
  let net := Sample.with_validity (inr (10 ^ 10 + 300)) Sample.net in
  let w := mkWorld (1700000000 * 10 ^ 9) [] [] in
  let w' := snd (OperatorV2.checkNext (Sample.operator false) Sample.lib net
                   Sample.pubkey w) in
  Z.max 0 (1700000000 + (10 ^ 10 + 300) - clock w / 10 ^ 9 - 300) = 10 ^ 10
  /\ clock w' = clock w
  /\ firstn 4 (trace w')
     = [EvAttestValiditySeconds; EvAttestedProvers 16843009;
        EvInfo "next attestation will be at";
        EvSleep (-8446744073709551616)].
Proof. vm_compute. repeat split; reflexivity. Qed.

(** C6 (amended). For every attestation record with a registration time
    and a validity window that are not negative and whose sum (the
    deadline) is below 2^63, read at a clock that is not negative, and
    for which the wait max(0, deadline - now - 300) seconds, added to the
    reading of the clock of the runtime (not negative), stays below 2^63
    nanoseconds (so that neither the [time.Duration] nor the wake-up time
    of the timer leaves [int64]): the renewal step sleeps
    max(0, deadline - now - 300) seconds and then re-registers; with a
    validity window of 1000 s and a registration at t0 the renewal is
    issued no earlier than t0 + 700 s; and it proceeds at once, with no
    sleep, when the deadline is at most 300 seconds ahead or past. *)
Theorem C6_renewal_timing o lib net pubkeyBytes validSecs proverTime w :
  net_AttestValiditySeconds net = inr validSecs ->
  net_AttestedProvers net (lib_Keccak256Hash lib pubkeyBytes) = inr proverTime ->
  0 <= proverTime -> 0 <= validSecs -> proverTime + validSecs < 2 ^ 63 ->
  0 <= clock w -> clock w / 10 ^ 9 + 300 < 2 ^ 63 ->
  let deadline := proverTime + validSecs in
  let now := clock w / 10 ^ 9 in
  0 <= lib_nanotime lib (clock w) ->
  lib_nanotime lib (clock w) + Z.max 0 (deadline - now - 300) * Second < 2 ^ 63 ->
  exists w1,
    OperatorV2.checkNext o lib net pubkeyBytes w
    = OperatorV2.registerAttestationReport o lib net pubkeyBytes w1
    /\ clock w1 = clock w + Z.max 0 (deadline - now - 300) * Second
    /\ since w w1
       = [EvAttestValiditySeconds;
          EvAttestedProvers (lib_Keccak256Hash lib pubkeyBytes);
          EvInfo "next attestation will be at"]
         ++ (if deadline >? now + 300
             then [EvSleep ((deadline - now - 300) * Second)] else [])
    /\ (validSecs = 1000 -> (proverTime + 700) * Second <= clock w1)
    /\ (deadline <= now + 300 ->
        clock w1 = clock w /\ forall d, ~ In (EvSleep d) (since w w1)).
Proof.
  intros Hvalid Hattested Ht Hv Hsum Hc Hnow deadline now Hmono Hfit.
  eexists. split.
  { apply (checkNext_sleeps o lib net pubkeyBytes validSecs proverTime
             Hvalid Hattested w); assumption. }
  cbn [clock]. fold deadline now.
  assert (now * Second <= clock w) as Hfloor.
  { unfold now, Second. rewrite Z.mul_comm.
    apply Z.mul_div_le. reflexivity. }
  split; [reflexivity|]. split.
  { apply since_app. reflexivity. }
  split.
  - intros ->. subst deadline. unfold Second in *.
    change (10 ^ 9) with 1000000000 in *.
    destruct (Z.max_spec 0 (proverTime + 1000 - now - 300)) as [[H ->]|[H ->]]; lia.
  - intros Hnear. rewrite Z.max_l by lia. split; [lia|].
    intros d Hin. erewrite since_app in Hin by reflexivity.
    rewrite Z.gtb_ltb in Hin.
    destruct (Z.ltb_spec (now + 300) deadline); [lia|].
    simpl in Hin. intuition discriminate.
Qed.

Lemma C6_renewal_timing_witness :
  let w := mkWorld 1700000100000000000 [] [] in
  net_AttestValiditySeconds Sample.net = inr 1000
  /\ net_AttestedProvers Sample.net
       (lib_Keccak256Hash Sample.lib Sample.pubkey) = inr 1700000000
  /\ lib_nanotime Sample.lib (clock w)
       + Z.max 0 (1700000000 + 1000 - clock w / 10 ^ 9 - 300) * Second < 2 ^ 63
  /\ exists w1,
       OperatorV2.checkNext (Sample.operator false) Sample.lib Sample.net
         Sample.pubkey w
       = OperatorV2.registerAttestationReport (Sample.operator false)
           Sample.lib Sample.net Sample.pubkey w1
       /\ clock w1 = 1700000700000000000.
Proof.
  intros w.
  assert (clock w / 10 ^ 9 = 1700000100) as Hnow by reflexivity.
  assert (lib_nanotime Sample.lib (clock w)
          + Z.max 0 (1700000000 + 1000 - clock w / 10 ^ 9 - 300) * Second
          < 2 ^ 63) as Hfit by reflexivity.
  assert (0 <= lib_nanotime Sample.lib (clock w)) as Hmono
    by (cbn [lib_nanotime Sample.lib clock w]; lia).
  assert (1700000000 + 1000 < 2 ^ 63) as Hsum by reflexivity.
  assert (clock w / 10 ^ 9 + 300 < 2 ^ 63) as Hclk by (rewrite Hnow; reflexivity).
  assert (0 <= clock w) as Hpos by (cbn [clock w]; lia).
  split; [reflexivity|]. split; [reflexivity|]. split; [exact Hfit|].
  pose proof (C6_renewal_timing (Sample.operator false) Sample.lib Sample.net
                Sample.pubkey 1000 1700000000 w eq_refl eq_refl
                ltac:(lia) ltac:(lia) Hsum Hpos Hclk Hmono Hfit) as Hstep.
  destruct Hstep as (w1 & Hrun & Hclock & _).
  exists w1. split; [exact Hrun|]. rewrite Hclock, Hnow. reflexivity.
Defined.

(** ** The renewal loop *)

Ltac frame_events :=
  match goal with
  | H : (_, _) = (_, _) |- _ => inversion H; subst; clear H
  end;
  cbn [trace]; rewrite <- ?app_assoc;
  eexists _, _; split; [reflexivity|];
  split; [ first [ reflexivity | symmetry; apply app_nil_r ] | reflexivity ].

Section Loop.

Variables (o : OperatorV2.Operator) (lib : Lib) (pubkeyBytes : list byte).

(** Registering returns (it has no panic), and begins no round. *)
Lemma registerAttestationReport_frame net w r w' :
  OperatorV2.registerAttestationReport o lib net pubkeyBytes w = (r, w') ->
  exists res evs, r = Returns res /\ trace w' = trace w ++ evs
                  /\ roundStarts evs = O.
Proof.
  unfold OperatorV2.registerAttestationReport, OperatorV2.proverGetAttestationReport.
  run. repeat (split_match; run); intros E; frame_events.
Qed.

(** A renewal step returns, and its first event is the query of the
    validity window; it begins no other round. *)
Lemma checkNext_frame net w r w' :
  OperatorV2.checkNext o lib net pubkeyBytes w = (r, w') ->
  exists res evs, r = Returns res
                  /\ trace w' = trace w ++ EvAttestValiditySeconds :: evs
                  /\ roundStarts evs = O.
Proof.
  unfold OperatorV2.checkNext. run.
  destruct (net_AttestValiditySeconds net); run; [intros E; frame_events|].
  destruct (net_AttestedProvers net _); run; [intros E; frame_events|].
  unfold Unix, Sleep. run.
  match goal with
  | |- context [if ?c then _ else _] => destruct c
  end; run; intros E; apply registerAttestationReport_frame in E;
    destruct E as (res & evs & -> & Ht & Hn); cbn [trace] in Ht;
    rewrite <- ?app_assoc in Ht; eexists _, _;
    (split; [reflexivity|]); (split; [exact Ht|]);
    unfold roundStarts in *; cbn [filter isRoundStart app]; exact Hn.
Qed.

(** A renewal step that reports no error has passed every step: the two
    registry reads, the report, the chain id, the transactor, the
    submission and its confirmation. *)
Lemma checkNext_success net w :
  fst (OperatorV2.checkNext o lib net pubkeyBytes w) = Returns None ->
  exists validSecs proverTime report chainId tx,
    net_AttestValiditySeconds net = inr validSecs
    /\ net_AttestedProvers net (lib_Keccak256Hash lib pubkeyBytes) = inr proverTime
    /\ (if OperatorV2.Simulation o
        then lib_generateSimulationQuote lib pubkeyBytes = inr report
        else net_GenerateAttestaionReport net pubkeyBytes = inr report)
    /\ net_ChainID net = inr chainId
    /\ lib_NewKeyedTransactorWithChainID lib chainId = None
    /\ net_SubmitLivenessProof net report = inr tx
    /\ net_WaitTx net tx = None.
Proof.
  unfold OperatorV2.checkNext. run.
  destruct (net_AttestValiditySeconds net) as [e|validSecs]; run;
    [discriminate|].
  destruct (net_AttestedProvers net _) as [e|proverTime]; run;
    [discriminate|].
  unfold Unix, Sleep. run.
  assert (forall w0,
             fst (OperatorV2.registerAttestationReport o lib net pubkeyBytes w0)
             = Returns None ->
             exists report chainId tx,
               (if OperatorV2.Simulation o
                then lib_generateSimulationQuote lib pubkeyBytes = inr report
                else net_GenerateAttestaionReport net pubkeyBytes = inr report)
               /\ net_ChainID net = inr chainId
               /\ lib_NewKeyedTransactorWithChainID lib chainId = None
               /\ net_SubmitLivenessProof net report = inr tx
               /\ net_WaitTx net tx = None) as Hreg.
  { intros w0.
    unfold OperatorV2.registerAttestationReport,
      OperatorV2.proverGetAttestationReport. run.
    destruct (OperatorV2.Simulation o).
    - destruct (lib_generateSimulationQuote lib pubkeyBytes) as [e|report]; run;
        [discriminate|].
      destruct (net_ChainID net) as [e|chainId]; run; [discriminate|].
      destruct (lib_NewKeyedTransactorWithChainID lib chainId) eqn:Hk; run;
        [discriminate|].
      destruct (net_SubmitLivenessProof net report) as [e|tx] eqn:Hs; run;
        [discriminate|].
      destruct (net_WaitTx net tx) eqn:Hw; run; [discriminate|].
      intros _. exists report, chainId, tx. repeat split; assumption.
    - run.
      destruct (net_GenerateAttestaionReport net pubkeyBytes) as [e|report]; run;
        [discriminate|].
      destruct (net_ChainID net) as [e|chainId]; run; [discriminate|].
      destruct (lib_NewKeyedTransactorWithChainID lib chainId) eqn:Hk; run;
        [discriminate|].
      destruct (net_SubmitLivenessProof net report) as [e|tx] eqn:Hs; run;
        [discriminate|].
      destruct (net_WaitTx net tx) eqn:Hw; run; [discriminate|].
      intros _. exists report, chainId, tx. repeat split; assumption. }
  match goal with
  | |- context [if ?c then _ else _] => destruct c
  end; run; intros E; apply Hreg in E;
    destruct E as (report & chainId & tx & Hrest);
    exists validSecs, proverTime, report, chainId, tx;
    (split; [reflexivity|]); (split; [reflexivity|]); exact Hrest.
Qed.

Variable nets : nat -> Net.

(** The loop never stops by itself: whatever fails, every one of the
    rounds asked for is begun. *)
Lemma renewalLoop_frame rounds : forall i w,
  exists w' evs,
    OperatorV2.renewalLoop o lib nets pubkeyBytes i rounds w = (Returns tt, w')
    /\ trace w' = trace w ++ evs
    /\ roundStarts evs = rounds
    /\ (rounds <> O -> exists evs', evs = EvAttestValiditySeconds :: evs').
Proof.
  induction rounds as [|k IH]; intros i w.
  - exists w, []. cbn. rewrite app_nil_r.
    repeat split; try reflexivity. intros H; contradiction.
  - cbn [OperatorV2.renewalLoop]. unfold OperatorV2.renewalRound. run.
    destruct (OperatorV2.checkNext o lib (nets i) pubkeyBytes w) as [r w1] eqn:E.
    apply checkNext_frame in E. destruct E as (res & evs & -> & Ht & Hn).
    destruct res as [e|]; run.
    + destruct (IH (S i) (mkWorld (clock w1) (offset_file w1)
                                  (trace w1 ++ [EvError e])))
        as (w' & evs2 & E2 & Ht2 & Hn2 & _).
      rewrite E2. cbn [trace] in Ht2.
      exists w', (EvAttestValiditySeconds :: evs ++ EvError e :: evs2).
      split; [reflexivity|]. split.
      { rewrite Ht2, Ht, <- !app_assoc. reflexivity. }
      split; [|intros _; eauto].
      unfold roundStarts in *. cbn [filter isRoundStart length].
      rewrite filter_app, length_app. cbn [filter isRoundStart]. lia.
    + destruct (IH (S i) w1) as (w' & evs2 & E2 & Ht2 & Hn2 & _).
      rewrite E2.
      exists w', (EvAttestValiditySeconds :: evs ++ evs2).
      split; [reflexivity|]. split.
      { rewrite Ht2, Ht, <- !app_assoc. reflexivity. }
      split; [|intros _; eauto].
      unfold roundStarts in *. cbn [filter isRoundStart length].
      rewrite filter_app, length_app. lia.
Qed.

End Loop.

(** ** Start-up order *)

Ltac startup_frame :=
  match goal with
  | H : (_, _) = (_, _) |- _ => inversion H; subst; clear H
  end;
  cbn [trace]; rewrite <- ?app_assoc;
  eexists; split;
  [ first [ reflexivity | symmetry; apply app_nil_r ]
  | repeat constructor ].

Lemma registerAttestationReport_startup o lib net pubkeyBytes w r w' :
  OperatorV2.registerAttestationReport o lib net pubkeyBytes w = (r, w') ->
  exists evs, trace w' = trace w ++ evs /\ Forall isStartupEvent evs.
Proof.
  unfold OperatorV2.registerAttestationReport, OperatorV2.proverGetAttestationReport.
  run. repeat (split_match; run); intros E; startup_frame.
Qed.

Lemma RegisterAttestationReport_startup o lib net w r w' :
  OperatorV2.RegisterAttestationReport o lib net w = (r, w') ->
  exists evs, trace w' = trace w ++ evs /\ Forall isStartupEvent evs
              /\ (r = Returns None -> In EvGoRenewal evs).
Proof.
  unfold OperatorV2.RegisterAttestationReport. run.
  destruct (negb _); run.
  { intros E. inversion E; subst. eexists. split; [reflexivity|].
    split; [repeat constructor | discriminate]. }
  destruct (Bytes.slice (OperatorV2.PubKey o) 0 32) as [x|]; run.
  2:{ intros E. inversion E; subst. eexists. split; [reflexivity|].
      split; [repeat constructor | discriminate]. }
  destruct (Bytes.slice (OperatorV2.PubKey o) 32 64) as [y|]; run.
  2:{ intros E. inversion E; subst. eexists. split; [reflexivity|].
      split; [repeat constructor | discriminate]. }
  destruct (net_VerifyLivenessProof net x y) as [err|[|]]; run.
  - intros E. inversion E; subst. cbn [trace]. rewrite <- !app_assoc.
    eexists. split; [reflexivity|]. split; [repeat constructor | discriminate].
  - intros E. inversion E; subst. cbn [trace]. rewrite <- !app_assoc.
    eexists. split; [reflexivity|]. split; [repeat constructor|].
    intros _. simpl. tauto.
  - match goal with
    | |- context [OperatorV2.registerAttestationReport ?a ?b ?c ?d ?w0] =>
        destruct (OperatorV2.registerAttestationReport a b c d w0)
          as [rr wr] eqn:Er
    end.
    apply registerAttestationReport_startup in Er.
    destruct Er as (evs & Ht & Hevs). cbn [trace] in Ht.
    destruct rr as [[e|]|p]; run; intros E; inversion E; subst;
      cbn [trace]; rewrite Ht; rewrite <- ?app_assoc;
      (eexists; split; [reflexivity|]); (split; [|try discriminate]);
      repeat (apply Forall_cons; [exact I|]);
      try (apply Forall_app; split; [assumption | repeat constructor]);
      try assumption.
    intros _. simpl. right. right. apply in_or_app. right. left. reflexivity.
Qed.

Lemma checkIsRegistered_startup o net w r w' :
  OperatorV2.checkIsRegistered o net w = (r, w') ->
  exists evs, trace w' = trace w ++ evs /\ Forall isStartupEvent evs
              /\ (forall o1, r = Returns (None, o1) ->
                  net_IsOperatorRegistered net = inr true
                  /\ In EvIsOperatorRegistered evs).
Proof.
  unfold OperatorV2.checkIsRegistered. run.
  destruct (net_IsOperatorRegistered net) as [err|[|]]; run;
    [| destruct (net_GetOperatorId net) as [id [e|]] |];
    intros E; inversion E; subst; cbn [trace]; rewrite <- ?app_assoc;
    (eexists; split; [reflexivity|]);
    (split; [repeat constructor|]); intros o1 Ho; try discriminate.
  split; [reflexivity | left; reflexivity].
Qed.

Lemma startup_no_run evs : Forall isStartupEvent evs -> ~ In EvRun evs.
Proof.
  intros H Hin. rewrite Forall_forall in H. exact (H EvRun Hin).
Qed.

Ltac no_run :=
  let Hin := fresh "Hin" in
  intros Hin; exfalso; revert Hin; apply startup_no_run;
  repeat first [ assumption
               | apply Forall_app; split
               | apply Forall_cons; [exact I|]
               | apply Forall_nil ].

(** Start-up of the second variant. *)
Lemma Start_order o lib net w r w' :
  OperatorV2.Start o lib net w = (r, w') ->
  (In EvRun (since w w') ->
   exists o1 w0 w1 w2 evs,
     OperatorV2.checkIsRegistered o net w0 = (Returns (None, o1), w1)
     /\ OperatorV2.RegisterAttestationReport o1 lib net w1 = (Returns None, w2)
     /\ trace w2 = trace w ++ evs /\ ~ In EvRun evs
     /\ In EvIsOperatorRegistered evs /\ In EvGoRenewal evs
     /\ trace w' = trace w2 ++ [EvMetricsStart; EvGoMetrics;
                                EvInfo "Started Operator..."; EvRun])
  /\ (net_IsOperatorRegistered net = inr false ->
      (exists e o', r = Returns (Some e, o')) /\ ~ In EvRun (since w w')).
Proof.
  unfold OperatorV2.Start. run.
  destruct (net_Simulation net) as [err|isSimulation]; run.
  { intros E. inversion E; subst.
    erewrite since_app by (cbn [trace]; rewrite <- ?app_assoc; reflexivity).
    split; [no_run|]. intros _. split; [eauto | no_run]. }
  destruct (negb _); run.
  { intros E. inversion E; subst.
    erewrite since_app by (cbn [trace]; rewrite <- ?app_assoc; reflexivity).
    split; [no_run|]. intros _. split; [eauto | no_run]. }
  match goal with
  | |- context [OperatorV2.checkIsRegistered ?a ?b ?x] =>
      destruct (OperatorV2.checkIsRegistered a b x) as [rc w1] eqn:Ec
  end.
  pose proof Ec as Hc. apply checkIsRegistered_startup in Hc.
  destruct Hc as (evs1 & Ht1 & Hs1 & Hreg).
  cbn [trace] in Ht1. rewrite <- !app_assoc in Ht1.
  destruct rc as [[[e|] o1]|p]; run.
  { intros E. inversion E; subst. erewrite since_app by exact Ht1.
    split; [no_run|]. intros _. split; [eauto | no_run]. }
  2:{ intros E. inversion E; subst. erewrite since_app by exact Ht1.
      split; [no_run|]. intros Hfalse.
      exfalso. destruct (net_IsOperatorRegistered net) as [?|[|]] eqn:Hq;
        try discriminate.
      unfold OperatorV2.checkIsRegistered in Ec. revert Ec. run.
      rewrite Hq. run. discriminate. }
  destruct (Hreg o1 eq_refl) as (Hyes & Hin1).
  destruct (OperatorV2.RegisterAttestationReport o1 lib net w1) as [rr w2] eqn:Er.
  pose proof Er as Hr. apply RegisterAttestationReport_startup in Hr.
  destruct Hr as (evs2 & Ht2 & Hs2 & Hgo).
  assert (trace w2 = trace w ++ ([EvInfo "starting operator..."] ++ [EvSimulation]
                                 ++ evs1) ++ evs2) as Ht12.
  { rewrite Ht2, Ht1, <- !app_assoc. reflexivity. }
  destruct rr as [[e|]|p]; run.
  { intros E. inversion E; subst. erewrite since_app by exact Ht12.
    split; [no_run|]. intros Hno. rewrite Hyes in Hno. discriminate. }
  2:{ intros E. inversion E; subst. erewrite since_app by exact Ht12.
      split; [no_run|]. intros Hno. rewrite Hyes in Hno. discriminate. }
  destruct (OperatorV2.taskFetcher o1); run.
  2:{ intros E. inversion E; subst. cbn [trace].
      erewrite since_app.
      2:{ rewrite Ht12, <- !app_assoc. reflexivity. }
      split; [no_run|]. intros Hno. rewrite Hyes in Hno. discriminate. }
  assert (~ In EvRun (([EvInfo "starting operator..."] ++ [EvSimulation] ++ evs1)
                      ++ evs2)) as Hbefore by no_run.
  assert (In EvIsOperatorRegistered
             (([EvInfo "starting operator..."] ++ [EvSimulation] ++ evs1) ++ evs2))
    as HinReg.
  { apply in_or_app. left. simpl. right. right. exact Hin1. }
  assert (In EvGoRenewal
             (([EvInfo "starting operator..."] ++ [EvSimulation] ++ evs1) ++ evs2))
    as HinGo.
  { apply in_or_app. right. apply Hgo. reflexivity. }
  destruct (net_Run net) as [e|]; intros E; inversion E; subst; cbn [trace];
    (split; [| intros Hno; rewrite Hyes in Hno; discriminate]);
    intros _; eexists _, _, _, _, _;
    (split; [exact Ec|]); (split; [exact Er|]); (split; [exact Ht12|]);
    (split; [exact Hbefore|]); (split; [exact HinReg|]); (split; [exact HinGo|]);
    rewrite <- !app_assoc; reflexivity.
Qed.

Lemma pubkey_slices (pubkeyBytes : list byte) :
  negb (Z.of_nat (length pubkeyBytes) =? 64) = false ->
  exists x y, Bytes.slice pubkeyBytes 0 32 = Some x
              /\ Bytes.slice pubkeyBytes 32 64 = Some y.
Proof.
  intros H. apply negb_false_iff, Z.eqb_eq in H.
  unfold Bytes.slice. rewrite H. cbn. eauto.
Qed.

(** Start-up of the first variant. *)
Lemma RegisterAttestationReport1_startup o lib net w r w' :
  OperatorV1.RegisterAttestationReport o lib net w = (r, w') ->
  exists res evs, r = Returns res /\ trace w' = trace w ++ evs
                  /\ Forall isStartupEvent evs.
Proof.
  unfold OperatorV1.RegisterAttestationReport. run.
  destruct (negb _) eqn:Hlen; run.
  { intros E. inversion E; subst. eexists _, []. rewrite app_nil_r.
    repeat split. constructor. }
  destruct (pubkey_slices _ Hlen) as (x & y & -> & ->). run.
  repeat (split_match; run); intros E; inversion E; subst; cbn [trace];
    rewrite <- ?app_assoc; eexists _, _;
    (split; [reflexivity|]); (split; [reflexivity|]); repeat constructor.
Qed.

Lemma checkIsRegistered1_startup o net w r w' :
  OperatorV1.checkIsRegistered o net w = (r, w') ->
  trace w' = trace w ++ [EvIsOperatorRegistered]
  /\ exists res, r = Returns res
     /\ (res = None -> net_IsOperatorRegistered net = inr true)
     /\ (net_IsOperatorRegistered net = inr false -> res <> None).
Proof.
  unfold OperatorV1.checkIsRegistered. run.
  destruct (net_IsOperatorRegistered net) as [err|[|]]; run;
    intros E; inversion E; subst; cbn [trace];
    (split; [reflexivity|]); eexists; (split; [reflexivity|]);
    split; intros; congruence.
Qed.

Lemma Start1_order o lib net w r w' :
  OperatorV1.Start o lib net w = (r, w') ->
  (In EvRun (since w w') ->
   exists w1 w2 w3 evs,
     OperatorV1.RegisterAttestationReport o lib net w1 = (Returns None, w2)
     /\ OperatorV1.checkIsRegistered o net (after (EvInfo "Start Operator...") w2)
        = (Returns None, w3)
     /\ trace w3 = trace w ++ evs /\ ~ In EvRun evs
     /\ In EvIsOperatorRegistered evs
     /\ trace w' = trace w3 ++ [EvRun])
  /\ (net_IsOperatorRegistered net = inr false ->
      (exists e, r = Returns (Some e)) /\ ~ In EvRun (since w w')).
Proof.
  unfold OperatorV1.Start, OperatorV1.RegisterOperatorWithEigenlayer,
    OperatorV1.RegisterOperatorWithAvs, Unix. run.
  destruct (net_RegisterAsOperator net) as [e|]; run.
  { intros E. inversion E; subst.
    erewrite since_app by (cbn [trace]; rewrite <- ?app_assoc; reflexivity).
    split; [no_run|]. intros _. split; [eauto | no_run]. }
  destruct (net_RegisterOperatorInQuorum net) as [e|]; run.
  { intros E. inversion E; subst.
    erewrite since_app by (cbn [trace]; rewrite <- ?app_assoc; reflexivity).
    split; [no_run|]. intros _. split; [eauto | no_run]. }
  match goal with
  | |- context [OperatorV1.RegisterAttestationReport ?a ?b ?c ?x] =>
      destruct (OperatorV1.RegisterAttestationReport a b c x) as [rr w2] eqn:Er
  end.
  pose proof Er as Hr. apply RegisterAttestationReport1_startup in Hr.
  destruct Hr as (res & evs1 & -> & Ht1 & Hs1).
  cbn [trace] in Ht1. rewrite <- !app_assoc in Ht1.
  destruct res as [e|]; run.
  { intros E. inversion E; subst. erewrite since_app by exact Ht1.
    split; [no_run|]. intros _. split; [eauto | no_run]. }
  match goal with
  | |- context [OperatorV1.checkIsRegistered ?a ?b ?x] =>
      destruct (OperatorV1.checkIsRegistered a b x) as [rc w3] eqn:Ec
  end.
  pose proof Ec as Hc. apply checkIsRegistered1_startup in Hc.
  destruct Hc as (Ht3 & res & -> & Hyes & Hno). cbn [trace] in Ht3.
  assert (trace w3 = trace w ++ ([EvRegisterAsOperator]
              ++ [EvRegisterOperatorInQuorum (add64 (clock w / 10 ^ 9) 1000000)]
              ++ [EvInfo "Registered operator with avs registry coordinator."]
              ++ evs1) ++ [EvInfo "Start Operator..."; EvIsOperatorRegistered])
    as Ht13.
  { rewrite Ht3, Ht1, <- !app_assoc. reflexivity. }
  destruct res as [e|]; run.
  { intros E. inversion E; subst. erewrite since_app by exact Ht13.
    split; [no_run|]. intros _. split; [eauto | no_run]. }
  specialize (Hyes eq_refl).
  destruct (OperatorV1.taskFetcher o); run.
  2:{ intros E. inversion E; subst. erewrite since_app by exact Ht13.
      split; [no_run|]. intros Hfalse. rewrite Hyes in Hfalse. discriminate. }
  destruct (net_Run net) as [e|]; intros E; inversion E; subst; cbn [trace];
    (split; [| intros Hfalse; rewrite Hyes in Hfalse; discriminate]);
    intros _; eexists _, _, _, _;
    (split; [exact Er|]); (split; [exact Ec|]); (split; [exact Ht13|]);
    (split; [no_run|]);
    (split; [apply in_or_app; right; simpl; tauto | reflexivity]).
Qed.

(** C7. In both variants [taskFetcher.Run] is reached only after the
    coordination-layer registration check has succeeded and the first
    attestation-registration pass has returned without error (in the
    second variant the renewal loop has been spawned by then): every event
    up to that point is another event than the start of the loop. When the
    registry answers that the operator is not registered, [Start] returns
    an error and the event loop is not started. *)
Theorem C7_event_loop_starts_after_registration lib net :
  (forall o w r w',
      OperatorV2.Start o lib net w = (r, w') ->
      (In EvRun (since w w') ->
       exists o1 w0 w1 w2 evs,
         OperatorV2.checkIsRegistered o net w0 = (Returns (None, o1), w1)
         /\ OperatorV2.RegisterAttestationReport o1 lib net w1 = (Returns None, w2)
         /\ trace w2 = trace w ++ evs /\ ~ In EvRun evs
         /\ In EvIsOperatorRegistered evs /\ In EvGoRenewal evs
         /\ trace w' = trace w2 ++ [EvMetricsStart; EvGoMetrics;
                                    EvInfo "Started Operator..."; EvRun])
      /\ (net_IsOperatorRegistered net = inr false ->
          (exists e o', r = Returns (Some e, o')) /\ ~ In EvRun (since w w')))
  /\ (forall o w r w',
      OperatorV1.Start o lib net w = (r, w') ->
      (In EvRun (since w w') ->
       exists w1 w2 w3 evs,
         OperatorV1.RegisterAttestationReport o lib net w1 = (Returns None, w2)
         /\ OperatorV1.checkIsRegistered o net
              (after (EvInfo "Start Operator...") w2) = (Returns None, w3)
         /\ trace w3 = trace w ++ evs /\ ~ In EvRun evs
         /\ In EvIsOperatorRegistered evs
         /\ trace w' = trace w3 ++ [EvRun])
      /\ (net_IsOperatorRegistered net = inr false ->
          (exists e, r = Returns (Some e)) /\ ~ In EvRun (since w w'))).
Proof.
  split.
  - intros o w r w' E. exact (Start_order o lib net w r w' E).
  - intros o w r w' E. exact (Start1_order o lib net w r w' E).
Qed.

Lemma C7_event_loop_starts_after_registration_witness :
  let run := OperatorV2.Start (Sample.operator false) Sample.lib Sample.net
               Sample.world in
  let refused := OperatorV2.Start (Sample.operator false) Sample.lib
                   (Sample.with_registered (inr false) Sample.net)
                   Sample.world in
  In EvRun (since Sample.world (snd run))
  /\ (exists w2, In EvIsOperatorRegistered (trace w2)
                 /\ In EvGoRenewal (trace w2)
                 /\ ~ In EvRun (trace w2)
                 /\ trace (snd run)
                    = trace w2 ++ [EvMetricsStart; EvGoMetrics;
                                   EvInfo "Started Operator..."; EvRun])
  /\ (exists e o', fst refused = Returns (Some e, o'))
  /\ ~ In EvRun (since Sample.world (snd refused)).
Proof.
  intros run refused.
  assert (In EvRun (since Sample.world (snd run))) as Hrun.
  { vm_compute. repeat first [left; reflexivity | right]. }
  split; [exact Hrun|].
  destruct (proj1 (C7_event_loop_starts_after_registration Sample.lib Sample.net)
              (Sample.operator false) Sample.world (fst run) (snd run) eq_refl)
    as [Hstarted _].
  destruct (Hstarted Hrun) as (o1 & w0 & w1 & w2 & evs & _ & _ & Ht & Hno & Hreg & Hgo & Hw').
  split.
  { exists w2. change (trace Sample.world ++ evs) with evs in Ht.
    rewrite Ht at 1 2 3. repeat split; assumption. }
  destruct (proj1 (C7_event_loop_starts_after_registration Sample.lib
                     (Sample.with_registered (inr false) Sample.net))
              (Sample.operator false) Sample.world (fst refused) (snd refused)
              eq_refl)
    as [_ Hrefused].
  exact (Hrefused eq_refl).
Defined.

(** ** The renewal goroutine *)

Lemma roundStarts_app a b : roundStarts (a ++ b) = (roundStarts a + roundStarts b)%nat.
Proof. unfold roundStarts. rewrite filter_app, length_app. reflexivity. Qed.

Ltac quiet_frame :=
  match goal with
  | H : (_, _) = (_, _) |- _ => inversion H; subst; clear H
  end;
  cbn [clock trace]; rewrite <- ?app_assoc;
  (split; [reflexivity|]);
  eexists; (split; [first [reflexivity | symmetry; apply app_nil_r]|]);
  (split; [reflexivity|]); simpl; intuition discriminate.

(** Registering takes no time, begins no round and starts no goroutine. *)
Lemma registerAttestationReport_quiet o lib net pubkeyBytes w r w' :
  OperatorV2.registerAttestationReport o lib net pubkeyBytes w = (r, w') ->
  clock w' = clock w
  /\ exists evs, trace w' = trace w ++ evs /\ roundStarts evs = O
                 /\ ~ In EvGoRenewal evs.
Proof.
  unfold OperatorV2.registerAttestationReport, OperatorV2.proverGetAttestationReport.
  run. repeat (split_match; run); intros E; quiet_frame.
Qed.

Lemma checkIsRegistered_quiet o net w r w' :
  OperatorV2.checkIsRegistered o net w = (r, w') ->
  exists evs, trace w' = trace w ++ evs /\ roundStarts evs = O
              /\ ~ In EvGoRenewal evs.
Proof.
  unfold OperatorV2.checkIsRegistered. run.
  destruct (net_IsOperatorRegistered net) as [err|[|]]; run;
    [| destruct (net_GetOperatorId net) as [id [e|]] |];
    intros E; inversion E; subst; cbn [trace]; rewrite <- ?app_assoc;
    (eexists; split; [reflexivity|]);
    (split; [reflexivity|]); simpl; intuition discriminate.
Qed.

(** The renewal goroutine is started by [RegisterAttestationReport] as
    its last action, exactly when it returns nil; the function itself
    takes no time and begins no round. *)
Lemma RegisterAttestationReport_spawn o lib net w r w' :
  OperatorV2.RegisterAttestationReport o lib net w = (r, w') ->
  clock w' = clock w
  /\ exists evs,
       trace w' = trace w ++ evs /\ roundStarts evs = O
       /\ ((r = Returns None
            /\ exists pre, evs = pre ++ [EvGoRenewal] /\ ~ In EvGoRenewal pre)
           \/ (r <> Returns None /\ ~ In EvGoRenewal evs)).
Proof.
  unfold OperatorV2.RegisterAttestationReport. run.
  destruct (negb _); run.
  { intros E. inversion E; subst. cbn [clock trace]. split; [reflexivity|].
    eexists. split; [reflexivity|]. split; [reflexivity|].
    right. split; [discriminate | simpl; intuition discriminate]. }
  destruct (Bytes.slice (OperatorV2.PubKey o) 0 32) as [x|]; run.
  2:{ intros E. inversion E; subst. cbn [clock trace]. split; [reflexivity|].
      eexists. split; [reflexivity|]. split; [reflexivity|].
      right. split; [discriminate | simpl; intuition discriminate]. }
  destruct (Bytes.slice (OperatorV2.PubKey o) 32 64) as [y|]; run.
  2:{ intros E. inversion E; subst. cbn [clock trace]. split; [reflexivity|].
      eexists. split; [reflexivity|]. split; [reflexivity|].
      right. split; [discriminate | simpl; intuition discriminate]. }
  destruct (net_VerifyLivenessProof net x y) as [err|[|]]; run.
  - intros E. inversion E; subst. cbn [clock trace]. rewrite <- !app_assoc.
    split; [reflexivity|].
    eexists. split; [reflexivity|]. split; [reflexivity|].
    right. split; [discriminate | simpl; intuition discriminate].
  - intros E. inversion E; subst. cbn [clock trace]. rewrite <- !app_assoc.
    split; [reflexivity|].
    eexists. split; [reflexivity|]. split; [reflexivity|].
    left. split; [reflexivity|].
    exists [EvInfo "checking tee liveness..."; EvVerifyLivenessProof x y;
            EvInfo "Operater has registered on TEE Liveness Verifier"].
    split; [reflexivity | simpl; intuition discriminate].
  - match goal with
    | |- context [OperatorV2.registerAttestationReport ?a ?b ?c ?d ?w0] =>
        destruct (OperatorV2.registerAttestationReport a b c d w0)
          as [rr wr] eqn:Er
    end.
    apply registerAttestationReport_quiet in Er.
    destruct Er as (Hc & evs & Ht & Hn & Hno). cbn [clock trace] in Hc, Ht.
    rewrite <- !app_assoc in Ht. cbn [app] in Ht.
    destruct rr as [[e|]|p]; run; intros E; inversion E; subst; clear E;
      cbn [clock trace]; (split; [exact Hc|]).
    + exists (EvInfo "checking tee liveness..." :: EvVerifyLivenessProof x y :: evs).
      split; [exact Ht|]. split; [exact Hn|].
      right. split; [discriminate|]. simpl. intuition discriminate.
    + exists ((EvInfo "checking tee liveness..." :: EvVerifyLivenessProof x y :: evs)
              ++ [EvGoRenewal]).
      split; [rewrite Ht, <- app_assoc; reflexivity|].
      split; [rewrite roundStarts_app; cbn; unfold roundStarts in *;
              cbn [filter isRoundStart]; rewrite Hn; reflexivity|].
      left. split; [reflexivity|]. eexists. split; [reflexivity|].
      simpl. intuition discriminate.
    + exists (EvInfo "checking tee liveness..." :: EvVerifyLivenessProof x y :: evs).
      split; [exact Ht|]. split; [exact Hn|].
      right. split; [discriminate|]. simpl. intuition discriminate.
Qed.

(** When [Start] reaches the event loop, the renewal goroutine was started
    once, and [Start] went from there straight to the event loop: it ran
    no renewal round itself. *)
Lemma Start_spawn o lib net w r w' :
  OperatorV2.Start o lib net w = (r, w') ->
  In EvRun (since w w') ->
  exists pre,
    since w w'
    = pre ++ [EvGoRenewal; EvMetricsStart; EvGoMetrics;
              EvInfo "Started Operator..."; EvRun]
    /\ ~ In EvGoRenewal pre
    /\ roundStarts (since w w') = O.
Proof.
  unfold OperatorV2.Start. run.
  destruct (net_Simulation net) as [err|isSimulation]; run.
  { intros E. inversion E; subst.
    erewrite since_app by (cbn [trace]; rewrite <- ?app_assoc; reflexivity).
    no_run. }
  destruct (negb _); run.
  { intros E. inversion E; subst.
    erewrite since_app by (cbn [trace]; rewrite <- ?app_assoc; reflexivity).
    no_run. }
  match goal with
  | |- context [OperatorV2.checkIsRegistered ?a ?b ?x] =>
      destruct (OperatorV2.checkIsRegistered a b x) as [rc w1] eqn:Ec
  end.
  pose proof Ec as Hc. apply checkIsRegistered_startup in Hc.
  destruct Hc as (evs1 & Ht1 & Hs1 & _).
  apply checkIsRegistered_quiet in Ec.
  destruct Ec as (evs1' & Ht1' & Hn1 & Hno1).
  rewrite Ht1 in Ht1'. apply app_inv_head in Ht1'. subst evs1'.
  cbn [trace] in Ht1. rewrite <- !app_assoc in Ht1.
  destruct rc as [[[e|] o1]|p]; run.
  { intros E. inversion E; subst. erewrite since_app by exact Ht1. no_run. }
  2:{ intros E. inversion E; subst. erewrite since_app by exact Ht1. no_run. }
  destruct (OperatorV2.RegisterAttestationReport o1 lib net w1) as [rr w2] eqn:Er.
  pose proof Er as Hr. apply RegisterAttestationReport_startup in Hr.
  destruct Hr as (evs2 & Ht2 & Hs2 & _).
  apply RegisterAttestationReport_spawn in Er.
  destruct Er as (_ & evs2' & Ht2' & Hn2 & Hspawn).
  rewrite Ht2 in Ht2'. apply app_inv_head in Ht2'. subst evs2'.
  assert (trace w2 = trace w ++ ([EvInfo "starting operator..."] ++ [EvSimulation]
                                 ++ evs1) ++ evs2) as Ht12.
  { rewrite Ht2, Ht1, <- !app_assoc. reflexivity. }
  destruct rr as [[e|]|p]; run.
  { intros E. inversion E; subst. erewrite since_app by exact Ht12. no_run. }
  2:{ intros E. inversion E; subst. erewrite since_app by exact Ht12. no_run. }
  destruct Hspawn as [(_ & pre & -> & Hpre)|(Hne & _)]; [|congruence].
  pose proof Hs2 as Hs2'. apply Forall_app in Hs2'. destruct Hs2' as [Hspre _].
  destruct (OperatorV2.taskFetcher o1); run.
  2:{ intros E. inversion E; subst. cbn [trace].
      erewrite since_app.
      2:{ rewrite Ht12, <- !app_assoc. reflexivity. }
      no_run. }
  assert (roundStarts pre = O) as Hnpre.
  { rewrite roundStarts_app in Hn2. lia. }
  destruct (net_Run net) as [e|]; intros E; inversion E; subst; cbn [trace];
    intros _;
    (erewrite since_app;
     [| rewrite Ht12, <- !app_assoc; cbn [app]; reflexivity]);
    exists (EvInfo "starting operator..." :: EvSimulation :: evs1 ++ pre);
    (split; [cbn [app]; rewrite <- !app_assoc; reflexivity|]);
    (split;
     [ intros [H|[H|H]]; try discriminate;
       apply in_app_or in H; tauto
     | change (roundStarts (evs1 ++ pre ++
                 [EvGoRenewal; EvMetricsStart; EvGoMetrics;
                  EvInfo "Started Operator..."; EvRun]) = O);
       rewrite !roundStarts_app, Hn1, Hnpre; reflexivity ]).
Qed.

(** C8. The renewal loop is a background goroutine of its own.
    [RegisterAttestationReport] starts it as its last action, once, and
    exactly when it returns nil; it returns right after, having begun no
    renewal round itself and taken no time, and [Start], when it reaches
    the event loop, has come to it straight from there: the main flow
    neither runs a round nor waits for one. In the loop a failure at any
    step of a round (a registry read, the report, the chain id, the
    transactor, the submission, its confirmation) makes the round report
    an error; the error is logged and the next round begins at once: the
    event after the logged error is the first call of the next round,
    with no sleep and no clock advance in between. The loop has no exit:
    whatever the answers of the remote services, it returns from none of
    its rounds early and begins every round asked for. *)
Theorem C8_renewal_loop_restarts_at_once o lib nets pubkeyBytes :
  (forall i rounds w,
      exists w',
        OperatorV2.renewalLoop o lib nets pubkeyBytes i rounds w = (Returns tt, w')
        /\ roundStarts (since w w') = rounds)
  /\ (forall i k w e w1,
      OperatorV2.checkNext o lib (nets i) pubkeyBytes w = (Returns (Some e), w1) ->
      OperatorV2.renewalLoop o lib nets pubkeyBytes i (S k) w
      = OperatorV2.renewalLoop o lib nets pubkeyBytes (S i) k (after (EvError e) w1)
      /\ clock (after (EvError e) w1) = clock w1
      /\ exists w' evs,
           OperatorV2.renewalLoop o lib nets pubkeyBytes i (S (S k)) w
           = (Returns tt, w')
           /\ trace w' = trace w1 ++ EvError e :: EvAttestValiditySeconds :: evs)
  /\ (forall i w,
      (exists e, fst (OperatorV2.checkNext o lib (nets i) pubkeyBytes w)
                 = Returns (Some e))
      \/ (exists validSecs proverTime report chainId tx,
            net_AttestValiditySeconds (nets i) = inr validSecs
            /\ net_AttestedProvers (nets i) (lib_Keccak256Hash lib pubkeyBytes)
               = inr proverTime
            /\ (if OperatorV2.Simulation o
                then lib_generateSimulationQuote lib pubkeyBytes = inr report
                else net_GenerateAttestaionReport (nets i) pubkeyBytes = inr report)
            /\ net_ChainID (nets i) = inr chainId
            /\ lib_NewKeyedTransactorWithChainID lib chainId = None
            /\ net_SubmitLivenessProof (nets i) report = inr tx
            /\ net_WaitTx (nets i) tx = None))
  /\ (forall net w,
      let run := OperatorV2.RegisterAttestationReport o lib net w in
      (fst run = Returns None ->
       exists evs, since w (snd run) = evs ++ [EvGoRenewal]
                   /\ ~ In EvGoRenewal evs)
      /\ (fst run <> Returns None -> ~ In EvGoRenewal (since w (snd run)))
      /\ roundStarts (since w (snd run)) = O
      /\ clock (snd run) = clock w)
  /\ (forall net w,
      let run := OperatorV2.Start o lib net w in
      In EvRun (since w (snd run)) ->
      exists evs,
        since w (snd run)
        = evs ++ [EvGoRenewal; EvMetricsStart; EvGoMetrics;
                  EvInfo "Started Operator..."; EvRun]
        /\ ~ In EvGoRenewal evs
        /\ roundStarts (since w (snd run)) = O).
Proof.
  split; [|split; [|split; [|split]]].
  - intros i rounds w.
    destruct (renewalLoop_frame o lib pubkeyBytes nets rounds i w)
      as (w' & evs & E & Ht & Hn & _).
    exists w'. split; [exact E|]. rewrite (since_app _ _ _ Ht). exact Hn.
  - intros i k w e w1 E.
    assert (forall k',
               OperatorV2.renewalLoop o lib nets pubkeyBytes i (S k') w
               = OperatorV2.renewalLoop o lib nets pubkeyBytes (S i) k'
                   (after (EvError e) w1)) as Hgo.
    { intros k'. cbn [OperatorV2.renewalLoop]. unfold OperatorV2.renewalRound.
      run. rewrite E. reflexivity. }
    split; [apply Hgo|]. split; [reflexivity|].
    rewrite Hgo.
    destruct (renewalLoop_frame o lib pubkeyBytes nets (S k) (S i)
                (after (EvError e) w1))
      as (w' & evs & E' & Ht & _ & Hhead).
    destruct (Hhead ltac:(discriminate)) as (evs' & ->).
    exists w', evs'. split; [exact E'|].
    rewrite Ht. unfold after. cbn [trace]. rewrite <- app_assoc. reflexivity.
  - intros i w.
    destruct (OperatorV2.checkNext o lib (nets i) pubkeyBytes w) as [r w1] eqn:E.
    pose proof E as Hf. apply checkNext_frame in Hf.
    destruct Hf as (res & evs & -> & _ & _).
    destruct res as [e|]; [left; exists e; reflexivity|].
    right. apply (checkNext_success o lib pubkeyBytes (nets i) w).
    rewrite E. reflexivity.
  - intros net w run.
    destruct (OperatorV2.RegisterAttestationReport o lib net w) as [r w'] eqn:E.
    subst run. cbn [fst snd].
    apply RegisterAttestationReport_spawn in E.
    destruct E as (Hc & evs & Ht & Hn & Hspawn).
    rewrite (since_app _ _ _ Ht).
    split; [|split; [|split; [exact Hn | exact Hc]]].
    + intros ->. destruct Hspawn as [(_ & pre & -> & Hpre)|(Hne & _)];
        [eauto | congruence].
    + intros Hne. destruct Hspawn as [(-> & _)|(_ & Hno)];
        [congruence | exact Hno].
  - intros net w run Hrun.
    destruct (OperatorV2.Start o lib net w) as [r w'] eqn:E.
    subst run. cbn [fst snd] in *.
    exact (Start_spawn o lib net w r w' E Hrun).
Qed.

Lemma C8_renewal_loop_restarts_at_once_witness :
  let nets := fun i : nat =>
    match i with
    | O => Sample.with_chainID (inl (Remote "rpc unreachable")) Sample.net
    | _ => Sample.net
    end in
  let w := mkWorld (1700000800 * 10 ^ 9) [] [] in
  let e := Trace (Remote "rpc unreachable") in
  let start := OperatorV2.Start (Sample.operator true) Sample.lib
                 (Sample.with_simulation (inr true) Sample.net) Sample.world in
  fst (OperatorV2.checkNext (Sample.operator true) Sample.lib (nets O)
         Sample.pubkey w) = Returns (Some e)
  /\ (exists w' evs,
       OperatorV2.renewalLoop (Sample.operator true) Sample.lib nets
         Sample.pubkey 0 2 w = (Returns tt, w')
       /\ trace w'
          = [EvAttestValiditySeconds; EvAttestedProvers 16843009;
             EvInfo "next attestation will be at"; EvChainID]
            ++ EvError e :: EvAttestValiditySeconds :: evs)
  /\ In EvRun (since Sample.world (snd start))
  /\ exists evs,
       since Sample.world (snd start)
       = evs ++ [EvGoRenewal; EvMetricsStart; EvGoMetrics;
                 EvInfo "Started Operator..."; EvRun]
       /\ ~ In EvGoRenewal evs.
Proof.
  intros nets w e start.
  pose proof (C8_renewal_loop_restarts_at_once (Sample.operator true)
                Sample.lib nets Sample.pubkey)
    as (_ & Hrestart & _ & _ & Hstart).
  split; [reflexivity|]. split.
  { destruct (Hrestart O O w e
                (snd (OperatorV2.checkNext (Sample.operator true) Sample.lib
                        (nets O) Sample.pubkey w))
                eq_refl)
      as (_ & _ & w' & evs & Hrun & Ht).
    exists w', evs. split; [exact Hrun | exact Ht]. }
  assert (In EvRun (since Sample.world (snd start))) as Hrun.
  { vm_compute. repeat first [left; reflexivity | right]. }
  split; [exact Hrun|].
  destruct (Hstart (Sample.with_simulation (inr true) Sample.net) Sample.world
              Hrun)
    as (evs & Hsince & Hno & _).
  exists evs. split; [exact Hsince | exact Hno].
Defined.

(** ** The scan cycle *)

Lemma filter_sorted {A} (R : A -> A -> Prop) (f : A -> bool) l :
  StronglySorted R l -> StronglySorted R (filter f l).
Proof.
  induction 1 as [|a l Hs IH Ha]; cbn [filter]; [constructor|].
  destruct (f a); [|assumption].
  constructor; [assumption|].
  rewrite Forall_forall in *. intros x Hx. apply filter_In in Hx.
  apply Ha. tauto.
Qed.

Lemma dispatched_app a b :
  LogTracer.dispatched (a ++ b) = LogTracer.dispatched a ++ LogTracer.dispatched b.
Proof.
  induction a as [|e a IH]; [reflexivity|].
  destruct e; cbn [app LogTracer.dispatched]; rewrite IH; reflexivity.
Qed.

Lemma handled_app a b :
  LogTracer.handled (a ++ b) = LogTracer.handled a ++ LogTracer.handled b.
Proof.
  induction a as [|e a IH]; [reflexivity|].
  destruct e; cbn [app LogTracer.handled]; rewrite IH; reflexivity.
Qed.

Lemma quiet_events evs :
  Forall (fun e => ~ isTracerEvent e) evs ->
  LogTracer.dispatched evs = [] /\ LogTracer.handled evs = []
  /\ forall n, ~ In (EvSaveBlock n) evs.
Proof.
  induction 1 as [|e evs He _ (IH1 & IH2 & IH3)].
  - repeat split. intros n [].
  - destruct e; cbn [LogTracer.dispatched LogTracer.handled];
      try (exfalso; apply He; exact I);
      (repeat split; try assumption);
      intros n [Heq|Hin]; try discriminate; exact (IH3 n Hin).
Qed.

Section Cycle.

Context {H : Type} `{LogTracer.Handler H}.
Variables (cfg : LogTracerConfig) (h : H).

(** The handler does not speak for the tracer. *)
Hypothesis OnNewLog_quiet : forall log w r w',
  LogTracer.OnNewLog h log w = (r, w') ->
  exists evs, trace w' = trace w ++ evs
              /\ Forall (fun e => ~ isTracerEvent e) evs.
Hypothesis SaveBlock_quiet : forall n w r w',
  LogTracer.SaveBlock h n w = (r, w') -> trace w' = trace w.

(** A dispatch hands logs of the window to the handler in the order of
    the window and writes no checkpoint; when it completes, every log of
    the window was handed over and came back. *)
Lemma dispatch_trace logs : forall w r w',
  LogTracer.dispatch cfg h logs w = (r, w') ->
  exists evs, trace w' = trace w ++ evs
    /\ (forall n, ~ In (EvSaveBlock n) evs)
    /\ (exists k, LogTracer.dispatched evs = firstn k logs)
    /\ (r = Returns None ->
        LogTracer.dispatched evs = logs /\ LogTracer.handled evs = logs).
Proof.
  induction logs as [|log rest IH]; intros w r w'.
  - cbn [LogTracer.dispatch]. run. intros E. inversion E; subst.
    exists []. rewrite app_nil_r. split; [reflexivity|].
    split; [intros n []|]. split; [exists O; reflexivity|].
    intros _. split; reflexivity.
  - cbn [LogTracer.dispatch]. run.
    match goal with
    | |- context [LogTracer.OnNewLog h log ?x] =>
        destruct (LogTracer.OnNewLog h log x) as [ro w2] eqn:Eo
    end.
    apply OnNewLog_quiet in Eo. destruct Eo as (evs1 & Ht1 & Hq).
    cbn [trace] in Ht1. rewrite <- app_assoc in Ht1.
    destruct (quiet_events evs1 Hq) as (Hd1 & Hh1 & Hs1).
    destruct ro as [[e|]|p]; run.
    + destruct (SkipOnError cfg); run.
      * intros E. apply IH in E.
        destruct E as (evs2 & Ht2 & Hs2 & (k & Hk) & Hdone).
        cbn [trace] in Ht2.
        exists ([EvOnNewLog log] ++ evs1 ++ [EvHandled log (Some e)]
                ++ [EvError e] ++ evs2).
        split; [rewrite Ht2, Ht1, <- !app_assoc; reflexivity|].
        split.
        { intros n Hin. cbn [app] in Hin. destruct Hin as [Hin|Hin]; [discriminate|].
          apply in_app_or in Hin. destruct Hin as [Hin|Hin]; [exact (Hs1 n Hin)|].
          destruct Hin as [Hin|[Hin|Hin]]; try discriminate. exact (Hs2 n Hin). }
        rewrite !dispatched_app, !handled_app, Hd1, Hh1.
        cbn [LogTracer.dispatched LogTracer.handled app].
        split; [exists (S k); rewrite Hk; reflexivity|].
        intros Hr. destruct (Hdone Hr) as [-> ->]. split; reflexivity.
      * intros E. inversion E; subst. cbn [trace].
        exists ([EvOnNewLog log] ++ evs1 ++ [EvHandled log (Some e)]).
        split; [rewrite Ht1, <- !app_assoc; reflexivity|].
        split.
        { intros n Hin. cbn [app] in Hin. destruct Hin as [Hin|Hin]; [discriminate|].
          apply in_app_or in Hin. destruct Hin as [Hin|Hin]; [exact (Hs1 n Hin)|].
          destruct Hin as [Hin|[]]. discriminate. }
        rewrite !dispatched_app, Hd1.
        cbn [LogTracer.dispatched app].
        split; [exists 1%nat; reflexivity | discriminate].
    + intros E. apply IH in E.
      destruct E as (evs2 & Ht2 & Hs2 & (k & Hk) & Hdone).
      cbn [trace] in Ht2.
      exists ([EvOnNewLog log] ++ evs1 ++ [EvHandled log None] ++ evs2).
      split; [rewrite Ht2, Ht1, <- !app_assoc; reflexivity|].
      split.
      { intros n Hin. cbn [app] in Hin. destruct Hin as [Hin|Hin]; [discriminate|].
        apply in_app_or in Hin. destruct Hin as [Hin|Hin]; [exact (Hs1 n Hin)|].
        destruct Hin as [Hin|Hin]; [discriminate | exact (Hs2 n Hin)]. }
      rewrite !dispatched_app, !handled_app, Hd1, Hh1.
      cbn [LogTracer.dispatched LogTracer.handled app].
      split; [exists (S k); rewrite Hk; reflexivity|].
      intros Hr. destruct (Hdone Hr) as [-> ->]. split; reflexivity.
    + intros E. inversion E; subst.
      exists ([EvOnNewLog log] ++ evs1).
      split; [exact Ht1|].
      split.
      { intros n Hin. cbn [app] in Hin. destruct Hin as [Hin|Hin]; [discriminate|].
        exact (Hs1 n Hin). }
      rewrite !dispatched_app, Hd1. cbn [LogTracer.dispatched app].
      split; [exists 1%nat; reflexivity | discriminate].
Qed.

(** When no handler call on its logs panics, a skip-tolerant dispatch
    completes. *)
Lemma dispatch_completes logs :
  SkipOnError cfg = true ->
  (forall log, In log logs ->
   forall w, exists res w', LogTracer.OnNewLog h log w = (Returns res, w')) ->
  forall w, exists w', LogTracer.dispatch cfg h logs w = (Returns None, w').
Proof.
  intros Hskip. induction logs as [|log rest IH]; intros Htotal w.
  - exists w. reflexivity.
  - cbn [LogTracer.dispatch]. run.
    match goal with
    | |- context [LogTracer.OnNewLog h log ?x] =>
        destruct (Htotal log (or_introl eq_refl) x) as (res & w2 & ->)
    end.
    assert (forall l, In l rest ->
            forall w, exists res w', LogTracer.OnNewLog h l w = (Returns res, w'))
      as Hrest by (intros l Hl; apply Htotal; right; exact Hl).
    destruct res as [e|]; run; [rewrite Hskip; run|]; apply (IH Hrest).
Qed.

(** A window writes the checkpoint at most once, the target, and only
    after every log of the window was handed to the handler and came
    back. *)
Lemma window_trace tgt logs w r w' :
  LogTracer.window cfg h tgt logs w = (r, w') ->
  exists evs tail,
    trace w' = trace w ++ evs ++ tail
    /\ (forall n, ~ In (EvSaveBlock n) evs)
    /\ (exists k, LogTracer.dispatched evs = firstn k logs)
    /\ LogTracer.dispatched tail = []
    /\ ((tail = [] /\ forall n, r <> Returns (LogTracer.Advanced n))
        \/ (exists tail', tail = EvSaveBlock tgt :: tail'
                          /\ LogTracer.dispatched evs = logs
                          /\ LogTracer.handled evs = logs
                          /\ (forall n, ~ In (EvSaveBlock n) tail')
                          /\ forall n, r = Returns (LogTracer.Advanced n) -> n = tgt)).
Proof.
  unfold LogTracer.window. run.
  destruct (LogTracer.dispatch cfg h logs w) as [rd w2] eqn:Ed.
  apply dispatch_trace in Ed. destruct Ed as (evs & Ht & Hs & Hk & Hdone).
  destruct rd as [[e|]|p]; run.
  - intros E. inversion E; subst. exists evs, [].
    rewrite app_nil_r. repeat split; try assumption.
    left. split; [reflexivity | discriminate].
  - destruct (Hdone eq_refl) as [Hd Hh].
    match goal with
    | |- context [LogTracer.SaveBlock h tgt ?x] =>
        destruct (LogTracer.SaveBlock h tgt x) as [rs w3] eqn:Es
    end.
    apply SaveBlock_quiet in Es. cbn [trace] in Es.
    destruct rs as [[e|]|p]; run; unfold LogTracer.sleep; run;
      intros E; injection E as <- <-; cbn [trace]; rewrite Es, Ht;
      rewrite <- ?app_assoc;
      (eexists evs, _; split; [reflexivity|]);
      (split; [assumption|]); (split; [assumption|]);
      (split; [reflexivity|]); right; eexists; (split; [reflexivity|]);
      (split; [assumption|]); (split; [assumption|]);
      (split; [intros n Hin; simpl in Hin; intuition discriminate|]);
      intros n Hn; try discriminate; inversion Hn; reflexivity.
  - intros E. inversion E; subst. exists evs, [].
    rewrite app_nil_r. repeat split; try assumption.
    left. split; [reflexivity | discriminate].
Qed.

Hypothesis GetBlock_quiet : forall w r w',
  LogTracer.GetBlock h w = (r, w') -> trace w' = trace w.

(** A cycle: only logs of the window are dispatched, in the order of the
    window, and a checkpoint write is the write of the target, after every
    dispatch call of the window has returned. *)
Lemma cycle_trace chain w r w' C w0 head logs :
  LogTracer.GetBlock h w = (Returns (C, None), w0) ->
  LogTracer.chain_head chain = inr head ->
  LogTracer.chain_logs chain = inr logs ->
  LogTracer.cycle cfg h chain w = (r, w') ->
  let tgt := LogTracer.target cfg C head in
  let scanned :=
    filter (fun l => LogTracer.inWindow C tgt l && LogTracer.matches cfg l) logs in
  (exists k, LogTracer.dispatched (since w w') = firstn k scanned)
  /\ (forall n, In (EvSaveBlock n) (since w w') ->
      n = tgt /\ C < tgt
      /\ exists evs tail,
           since w w' = EvFilterLogs (C + 1) tgt :: evs ++ EvSaveBlock tgt :: tail
           /\ LogTracer.dispatched evs = scanned
           /\ LogTracer.handled evs = scanned
           /\ (forall m, ~ In (EvSaveBlock m) evs))
  /\ (forall n, r = Returns (LogTracer.Advanced n) ->
      n = tgt /\ In (EvSaveBlock tgt) (since w w')).
Proof.
  intros Eg Hhead Hlogs. pose proof (GetBlock_quiet _ _ _ Eg) as Ht0.
  unfold LogTracer.cycle. run. rewrite Eg, Hhead. cbv zeta.
  set (tgt := LogTracer.target cfg C head).
  set (scanned := filter _ logs).
  destruct (Z.leb_spec tgt C) as [Hidle|Hscan].
  { unfold LogTracer.sleep. run. intros E. inversion E; subst. cbn [trace].
    erewrite since_app by (rewrite Ht0; reflexivity).
    split; [exists O; reflexivity|].
    split; [intros n Hin; simpl in Hin; intuition discriminate | discriminate]. }
  unfold LogTracer.FilterLogs. run. rewrite Hlogs. fold scanned.
  intros E. apply window_trace in E.
  destruct E as (evs & tail & Ht & Hs & (k & Hk) & Hdt & Hcase).
  cbn [trace] in Ht. rewrite Ht0, <- app_assoc in Ht.
  rewrite (since_app _ _ _ Ht). cbn [app].
  split.
  { exists k. cbn [LogTracer.dispatched]. rewrite dispatched_app, Hdt, app_nil_r.
    exact Hk. }
  destruct Hcase as [[-> Hr]|(tail' & -> & Hd & Hh & Hs' & Hr)].
  - split.
    + intros n [Hin|Hin]; [discriminate|]. rewrite app_nil_r in Hin.
      exfalso. exact (Hs n Hin).
    + intros n Hn. exfalso. exact (Hr n Hn).
  - split.
    + intros n [Hin|Hin]; [discriminate|].
      apply in_app_or in Hin. destruct Hin as [Hin|[Hin|Hin]].
      * exfalso. exact (Hs n Hin).
      * inversion Hin; subst n. split; [reflexivity|]. split; [assumption|].
        exists evs, tail'. repeat split; assumption.
      * exfalso. exact (Hs' n Hin).
    + intros n Hn. split; [exact (Hr n Hn)|].
      right. apply in_or_app. right. left. reflexivity.
Qed.

End Cycle.

Section CycleFile.

Context {H : Type} `{LogTracer.Handler H}.
Variables (cfg : LogTracerConfig) (h : H).

Hypothesis OnNewLog_keeps_file : forall log w r w',
  LogTracer.OnNewLog h log w = (r, w') -> offset_file w' = offset_file w.

(** The dispatch leaves the checkpoint record alone. *)
Lemma dispatch_file logs : forall w r w',
  LogTracer.dispatch cfg h logs w = (r, w') -> offset_file w' = offset_file w.
Proof.
  induction logs as [|log rest IH]; intros w r w'.
  - cbn [LogTracer.dispatch]. run. intros E. inversion E. reflexivity.
  - cbn [LogTracer.dispatch]. run.
    match goal with
    | |- context [LogTracer.OnNewLog h log ?x] =>
        destruct (LogTracer.OnNewLog h log x) as [ro w2] eqn:Eo
    end.
    apply OnNewLog_keeps_file in Eo. cbn [offset_file] in Eo.
    destruct ro as [[e|]|p]; run.
    + destruct (SkipOnError cfg); run; intros E;
        [apply IH in E; cbn [offset_file] in E; congruence|].
      inversion E; subst. cbn [offset_file]. assumption.
    + intros E. apply IH in E. cbn [offset_file] in E. congruence.
    + intros E. inversion E; subst. assumption.
Qed.

End CycleFile.

(** The handlers of both variants fit the scan cycle. *)
Lemma HandlerV2_quiet o lib net log w r w' :
  LogTracer.OnNewLog (o, lib, net) log w = (r, w') ->
  exists evs, trace w' = trace w ++ evs
              /\ Forall (fun e => ~ isTracerEvent e) evs.
Proof.
  cbn [LogTracer.OnNewLog HandlerV2]. intros E.
  apply OnNewLog_frame in E. tauto.
Qed.

Lemma HandlerV2_keeps_file o lib net log w r w' :
  LogTracer.OnNewLog (o, lib, net) log w = (r, w') ->
  offset_file w' = offset_file w.
Proof.
  cbn [LogTracer.OnNewLog HandlerV2]. intros E.
  apply OnNewLog_frame in E. tauto.
Qed.

Lemma HandlerV1_quiet (o : OperatorV1.Operator) lib net log w r w' :
  LogTracer.OnNewLog (o, lib, net) log w = (r, w') ->
  exists evs, trace w' = trace w ++ evs
              /\ Forall (fun e => ~ isTracerEvent e) evs.
Proof.
  cbn [LogTracer.OnNewLog HandlerV1]. intros E.
  apply OnNewLog1_headers in E. destruct E as (_ & _ & evs & Ht & Hq & _).
  eauto.
Qed.

(** The checkpoint record over a cycle of the second variant: it is left
    as it was, or the cycle has advanced and the text of the target was
    written over its front. *)
Lemma cycle_file o lib net cfg chain w r w' :
  LogTracer.cycle cfg (o, lib, net) chain w = (r, w') ->
  (offset_file w' = offset_file w
   /\ forall n, r <> Returns (LogTracer.Advanced n))
  \/ (exists n, r = Returns (LogTracer.Advanced n)
        /\ offset_file w'
           = strconv.FormatUint n
               ++ skipn (length (strconv.FormatUint n)) (offset_file w)).
Proof.
  unfold LogTracer.cycle.
  cbn [LogTracer.GetBlock HandlerV2]. unfold bind at 1.
  rewrite GetBlock_eq.
  destruct (readCheckpoint (offset_file w)) as [C [e|]].
  { run. intros E. inversion E; subst. left. split; [reflexivity | discriminate]. }
  destruct (LogTracer.chain_head chain) as [e|head].
  { unfold LogTracer.sleep. run. intros E. inversion E; subst.
    left. split; [reflexivity | discriminate]. }
  cbv zeta. destruct (Z.leb_spec (LogTracer.target cfg C head) C) as [Hidle|Hscan].
  { unfold LogTracer.sleep. run. intros E. inversion E; subst.
    left. split; [reflexivity | discriminate]. }
  unfold LogTracer.FilterLogs. run.
  destruct (LogTracer.chain_logs chain) as [e|logs].
  { unfold LogTracer.sleep. run. intros E. inversion E; subst.
    left. split; [reflexivity | discriminate]. }
  unfold LogTracer.window. run.
  match goal with
  | |- context [LogTracer.dispatch ?c ?hh ?l ?x] =>
      destruct (LogTracer.dispatch c hh l x) as [rd w2] eqn:Ed
  end.
  apply (dispatch_file cfg (o, lib, net) (HandlerV2_keeps_file o lib net)) in Ed.
  cbn [offset_file] in Ed.
  destruct rd as [[e|]|p]; run.
  - intros E. inversion E; subst. left. split; [assumption | discriminate].
  - cbn [LogTracer.SaveBlock HandlerV2].
    unfold OperatorV2.SaveBlock, os.WriteAt0, LogTracer.sleep. run.
    intros E. inversion E; subst. cbn [offset_file]. right.
    eexists. split; [reflexivity|]. rewrite Ed. reflexivity.
  - intros E. inversion E; subst. left. split; [assumption | discriminate].
Qed.

(** When no handler call on the scanned logs panics, a cycle of the second
    variant (which is skip-tolerant) with a window to scan advances to the
    target. *)
Lemma cycle_advances o lib net s t a chain C head logs w :
  let cfg := OperatorV2.NewLogTracerConfig s t a in
  readCheckpoint (offset_file w) = (C, None) ->
  LogTracer.chain_head chain = inr head ->
  LogTracer.chain_logs chain = inr logs ->
  C < LogTracer.target cfg C head ->
  (forall log,
      In log (filter (fun l => LogTracer.inWindow C (LogTracer.target cfg C head) l
                               && LogTracer.matches cfg l) logs) ->
      forall w1, exists res w2,
        OperatorV2.OnNewLog o lib net log w1 = (Returns res, w2)) ->
  fst (LogTracer.cycle cfg (o, lib, net) chain w)
  = Returns (LogTracer.Advanced (LogTracer.target cfg C head)).
Proof.
  intros cfg Hread Hhead Hlogs Hscan Htotal. unfold LogTracer.cycle.
  cbn [LogTracer.GetBlock HandlerV2]. unfold bind at 1.
  rewrite GetBlock_eq, Hread, Hhead.
  cbv zeta. destruct (Z.leb_spec (LogTracer.target cfg C head) C); [lia|].
  unfold LogTracer.FilterLogs. run. rewrite Hlogs.
  unfold LogTracer.window. run.
  match goal with
  | |- context [LogTracer.dispatch ?c ?hh ?l ?x] =>
      assert (forall log, In log l -> forall w0, exists res w',
                 LogTracer.OnNewLog (o, lib, net) log w0 = (Returns res, w'))
        as Htotal' by exact Htotal;
      destruct (dispatch_completes c hh l eq_refl Htotal' x) as (w2 & ->)
  end.
  reflexivity.
Qed.

Lemma firstn_whole {A} (l t : list A) k : firstn k l = l ++ t -> t = [].
Proof.
  intros E. apply (f_equal (@length A)) in E.
  rewrite length_app, length_firstn in E.
  destruct t; [reflexivity | simpl in E; lia].
Qed.

(** C9. The tracer both variants configure has window size 100 and
    confirmation lag 5, so the scan target of a cycle (after the spec) is
    min(C + 100, H - 5), and 155 for C = 100, H = 160. In a cycle of the
    second variant that reads checkpoint C, over a chain in chain order,
    the scanned logs are the matching logs of blocks C+1 .. target, in
    ascending (block, index) order; the handler is called on a prefix of
    them, in that order; a checkpoint write is the write of the target and
    comes after the handler has been called on, and has returned from,
    every scanned log; the checkpoint record is untouched unless the cycle
    advances, and then has the text of the target written over it; and
    when no handler call on a scanned log panics the cycle advances and
    every scanned log is dispatched. The first variant, which reads
    checkpoint 0, dispatches the same way. *)
Theorem C9_scan_window lib net :
  (forall s t a C H,
      LogTracer.target (OperatorV2.NewLogTracerConfig s t a) C H
      = Z.min (C + 100) (H - 5))
  /\ (forall t a C H,
      LogTracer.target (OperatorV1.NewLogTracerConfig t a) C H
      = Z.min (C + 100) (H - 5))
  /\ Z.min (100 + 100) (160 - 5) = 155
  /\ (forall o s t a chain logs C head w r w',
      let cfg := OperatorV2.NewLogTracerConfig s t a in
      let tgt := Z.min (C + 100) (head - 5) in
      let scanned :=
        filter (fun l => LogTracer.inWindow C tgt l && LogTracer.matches cfg l)
               logs in
      OperatorV2.GetBlock w = (Returns (C, None), w) ->
      LogTracer.chain_head chain = inr head ->
      LogTracer.chain_logs chain = inr logs ->
      StronglySorted LogTracer.log_lt logs ->
      LogTracer.cycle cfg (o, lib, net) chain w = (r, w') ->
      Forall (fun l => C + 1 <= BlockNumber l <= tgt) scanned
      /\ StronglySorted LogTracer.log_lt scanned
      /\ (exists k, LogTracer.dispatched (since w w') = firstn k scanned)
      /\ (forall n, In (EvSaveBlock n) (since w w') ->
          n = tgt
          /\ exists evs tail,
               since w w'
               = EvFilterLogs (C + 1) tgt :: evs ++ EvSaveBlock tgt :: tail
               /\ LogTracer.dispatched evs = scanned
               /\ LogTracer.handled evs = scanned
               /\ (forall m, ~ In (EvSaveBlock m) evs))
      /\ (offset_file w' = offset_file w
          \/ (offset_file w'
              = strconv.FormatUint tgt
                  ++ skipn (length (strconv.FormatUint tgt)) (offset_file w)
              /\ In (EvSaveBlock tgt) (since w w')))
      /\ ((forall log, In log scanned ->
              forall w1, exists res w2,
                OperatorV2.OnNewLog o lib net log w1 = (Returns res, w2)) ->
          C < tgt ->
          r = Returns (LogTracer.Advanced tgt)
          /\ LogTracer.dispatched (since w w') = scanned
          /\ offset_file w'
             = strconv.FormatUint tgt
                 ++ skipn (length (strconv.FormatUint tgt)) (offset_file w)))
  /\ (forall (o : OperatorV1.Operator) t a chain logs head w r w',
      let cfg := OperatorV1.NewLogTracerConfig t a in
      let tgt := Z.min (0 + 100) (head - 5) in
      let scanned :=
        filter (fun l => LogTracer.inWindow 0 tgt l && LogTracer.matches cfg l)
               logs in
      LogTracer.chain_head chain = inr head ->
      LogTracer.chain_logs chain = inr logs ->
      StronglySorted LogTracer.log_lt logs ->
      LogTracer.cycle cfg (o, lib, net) chain w = (r, w') ->
      StronglySorted LogTracer.log_lt scanned
      /\ (exists k, LogTracer.dispatched (since w w') = firstn k scanned)
      /\ (forall n, In (EvSaveBlock n) (since w w') ->
          n = tgt
          /\ exists evs tail,
               since w w'
               = EvFilterLogs (0 + 1) tgt :: evs ++ EvSaveBlock tgt :: tail
               /\ LogTracer.dispatched evs = scanned
               /\ LogTracer.handled evs = scanned)).
Proof.
  split; [reflexivity|]. split; [reflexivity|]. split; [reflexivity|]. split.
  - intros o s t a chain logs C head w r w' cfg tgt scanned
           Eg Hhead Hlogs Hsorted E.
    assert (tgt = LogTracer.target cfg C head) as Htarget by reflexivity.
    assert (readCheckpoint (offset_file w) = (C, None)) as Hread.
    { rewrite GetBlock_eq in Eg. inversion Eg as [Hc]. rewrite Hc. reflexivity. }
    split.
    { apply Forall_forall. intros l Hl. apply filter_In in Hl.
      destruct Hl as [_ Hl]. apply andb_true_iff in Hl. destruct Hl as [Hl _].
      unfold LogTracer.inWindow in Hl. apply andb_true_iff in Hl.
      rewrite Z.ltb_lt, Z.leb_le in Hl. lia. }
    split; [apply filter_sorted; assumption|].
    destruct (cycle_trace cfg (o, lib, net) (HandlerV2_quiet o lib net)
                (fun n w r w' (E : LogTracer.SaveBlock (o, lib, net) n w = (r, w')) =>
                   f_equal trace (f_equal snd (eq_trans (eq_sym E) (SaveBlock_eq n w))))
                (fun w r w' (E : LogTracer.GetBlock (o, lib, net) w = (r, w')) =>
                   f_equal trace (f_equal snd (eq_trans (eq_sym E) (GetBlock_eq w))))
                chain w r w' C w head logs Eg Hhead Hlogs E)
      as (Hprefix & Hsave & Hadv).
    fold tgt scanned in Hprefix, Hsave, Hadv. rewrite <- Htarget in *.
    split; [exact Hprefix|]. split.
    { intros n Hin. destruct (Hsave n Hin) as (Hn & _ & Hrest). tauto. }
    pose proof (cycle_file o lib net cfg chain w r w' E) as Hf.
    split.
    { destruct Hf as [[Hf _]|(n & Hr & Hf)]; [left; assumption|].
      right. destruct (Hadv n Hr) as [-> Hin]. split; assumption. }
    intros Htotal Hscan.
    pose proof (cycle_advances o lib net s t a chain C head logs w
                  Hread Hhead Hlogs Hscan Htotal) as Hr.
    fold cfg in Hr. rewrite E in Hr. cbn [fst] in Hr. rewrite <- Htarget in Hr.
    split; [exact Hr|].
    destruct (Hadv tgt Hr) as [_ Hin].
    destruct (Hsave tgt Hin) as (_ & _ & evs & tail & Hsince & Hd & _ & _).
    destruct Hprefix as (k & Hk).
    split.
    { rewrite Hsince in Hk |- *. cbn [LogTracer.dispatched] in *.
      rewrite dispatched_app in Hk |- *. rewrite Hd in Hk |- *.
      rewrite (firstn_whole _ _ _ (eq_sym Hk)). apply app_nil_r. }
    destruct Hf as [[_ Hf]|(n & Hr' & Hf)].
    + exfalso. exact (Hf tgt Hr).
    + rewrite Hr in Hr'. inversion Hr'; subst n. exact Hf.
  - intros o t a chain logs head w r w' cfg tgt scanned Hhead Hlogs Hsorted E.
    split; [apply filter_sorted; assumption|].
    destruct (cycle_trace cfg (o, lib, net) (HandlerV1_quiet o lib net)
                (fun n w r w' (E : LogTracer.SaveBlock (o, lib, net) n w = (r, w')) =>
                   f_equal trace (f_equal snd (eq_sym E)))
                (fun w r w' (E : LogTracer.GetBlock (o, lib, net) w = (r, w')) =>
                   f_equal trace (f_equal snd (eq_sym E)))
                chain w r w' 0 w head logs eq_refl Hhead Hlogs E)
      as (Hprefix & Hsave & _).
    split; [exact Hprefix|].
    intros n Hin. destruct (Hsave n Hin) as (Hn & _ & evs & tail & H1 & H2 & H3 & _).
    split; [exact Hn|]. exists evs, tail. repeat split; assumption.
Qed.

Lemma C9_scan_window_witness :
  let logs := [Sample.log 100 0; Sample.log 101 0; Sample.log 101 1;
               Sample.log 150 0; Sample.log 155 0; Sample.log 156 0;
               Sample.log 160 2] in
  let chain := LogTracer.mkChain (inr 160) (inr logs) in
  let w := mkWorld 0 (strconv.FormatUint 100) [] in
  let run := LogTracer.cycle Sample.tracer
               (Sample.operator false, Sample.lib, Sample.net) chain w in
  OperatorV2.GetBlock w = (Returns (100, None), w)
  /\ StronglySorted LogTracer.log_lt logs
  /\ fst run = Returns (LogTracer.Advanced 155)
  /\ LogTracer.dispatched (since w (snd run))
     = [Sample.log 101 0; Sample.log 101 1; Sample.log 150 0; Sample.log 155 0]
  /\ offset_file (snd run) = strconv.FormatUint 155.
Proof.
  intros logs chain w run.
  assert (OperatorV2.GetBlock w = (Returns (100, None), w)) as Hget
    by (vm_compute; reflexivity).
  assert (StronglySorted LogTracer.log_lt logs) as Hsorted.
  { repeat constructor; unfold LogTracer.log_lt; simpl; lia. }
  split; [exact Hget|]. split; [exact Hsorted|].
  destruct (proj1 (proj2 (proj2 (proj2 (C9_scan_window Sample.lib Sample.net))))
              (Sample.operator false) 12 [] [] chain logs 100 160 w
              (fst run) (snd run) Hget eq_refl eq_refl Hsorted
              (surjective_pairing run))
    as (_ & _ & _ & _ & _ & Hadv).
  destruct Hadv as (Hr & Hd & Hf).
  - intros log Hin. vm_compute in Hin.
    repeat (destruct Hin as [<-|Hin]; [intros w1; eexists _, _; lazy; reflexivity|]).
    contradiction.
  - reflexivity.
  - split; [exact Hr|]. split; [exact Hd | exact Hf].
Defined.

(** * Further properties *)

(** ** Reading the checkpoint record *)

Lemma TrimLeft_padding pre s :
  Forall isPadding pre ->
  Bytes.TrimLeft (pre ++ s) Bytes.cutset = Bytes.TrimLeft s Bytes.cutset.
Proof.
  induction 1 as [|b pre Hb _ IH]; [reflexivity|].
  cbn [app Bytes.TrimLeft]. unfold isPadding in Hb. rewrite Hb. exact IH.
Qed.

Lemma TrimLeft_all_padding s :
  Forall isPadding s -> Bytes.TrimLeft s Bytes.cutset = [].
Proof.
  intros H. rewrite <- (app_nil_r s). rewrite TrimLeft_padding by assumption.
  reflexivity.
Qed.

Lemma TrimLeft_head b s :
  Bytes.in_set Bytes.cutset b = false ->
  Bytes.TrimLeft (b :: s) Bytes.cutset = b :: s.
Proof. intros H. cbn [Bytes.TrimLeft]. rewrite H. reflexivity. Qed.

Lemma TrimLeft_length s set :
  (length (Bytes.TrimLeft s set) <= length s)%nat.
Proof.
  induction s as [|b s IH]; cbn [Bytes.TrimLeft]; [lia|].
  destruct (Bytes.in_set set b); simpl; lia.
Qed.

Lemma Trim_length s set : (length (Bytes.Trim s set) <= length s)%nat.
Proof.
  unfold Bytes.Trim, Bytes.TrimRight. rewrite length_rev.
  pose proof (TrimLeft_length (rev (Bytes.TrimLeft s set)) set) as H1.
  pose proof (TrimLeft_length s set) as H2.
  rewrite length_rev in H1. lia.
Qed.

Lemma TrimLeft_solid text rest :
  Forall (fun b => Bytes.in_set Bytes.cutset b = false) text -> text <> [] ->
  Bytes.TrimLeft (text ++ rest) Bytes.cutset = text ++ rest.
Proof.
  intros Ht Hne. destruct text as [|b t]; [congruence|].
  inversion Ht; subst. cbn [app]. apply TrimLeft_head. assumption.
Qed.

(** Padding around a text without padding bytes is trimmed away, and
    nothing else. *)
Lemma Trim_padding pre text post :
  Forall isPadding pre -> Forall isPadding post ->
  Forall (fun b => Bytes.in_set Bytes.cutset b = false) text -> text <> [] ->
  Bytes.Trim (pre ++ text ++ post) Bytes.cutset = text.
Proof.
  intros Hpre Hpost Ht Hne. unfold Bytes.Trim, Bytes.TrimRight.
  rewrite TrimLeft_padding by assumption.
  rewrite TrimLeft_solid by assumption.
  rewrite rev_app_distr.
  rewrite TrimLeft_padding by (apply Forall_rev; assumption).
  rewrite <- (app_nil_r (rev text)).
  rewrite TrimLeft_solid.
  - rewrite app_nil_r. apply rev_involutive.
  - apply Forall_rev. assumption.
  - intros E. apply (f_equal (@rev byte)) in E.
    rewrite rev_involutive in E. simpl in E. congruence.
Qed.

Lemma Trim_all_padding s : Forall isPadding s -> Bytes.Trim s Bytes.cutset = [].
Proof.
  intros H. unfold Bytes.Trim, Bytes.TrimRight.
  rewrite (TrimLeft_all_padding s) by assumption. reflexivity.
Qed.

Lemma digits_solid s :
  Forall isDigit s -> Forall (fun b => Bytes.in_set Bytes.cutset b = false) s.
Proof. intros H. eapply Forall_impl; [|exact H]. apply digit_not_cut. Qed.

Lemma FormatUint_nonempty n : 0 <= n -> strconv.FormatUint n <> [].
Proof.
  intros Hn E.
  destruct (formatBits_head 20 n [] ltac:(lia) (Forall_nil _)
              ltac:(right; discriminate)) as (b & rest & Hb & _).
  unfold strconv.FormatUint in E. congruence.
Qed.

Lemma readCheckpoint_cons b got file :
  firstn 16 file = b :: got ->
  readCheckpoint file
  = let '(number, err) := strconv.ParseInt (Bytes.Trim (b :: got) Bytes.cutset) in
    match err with
    | Some e => (0, Some (Trace e))
    | None => (Int.u64 number, None)
    end.
Proof. intros E. unfold readCheckpoint. rewrite E. reflexivity. Qed.

(** X1. [GetBlock] ignores padding around the number: when the first 16
    bytes of the offset file are the decimal text of n with NUL, CR, LF or
    space bytes before and after it, [GetBlock] returns n and no error, and
    leaves the world as it is. *)
Theorem X1_GetBlock_ignores_padding n pre post w :
  0 <= n < 10 ^ 16 ->
  Forall isPadding pre -> Forall isPadding post ->
  firstn 16 (offset_file w) = pre ++ strconv.FormatUint n ++ post ->
  OperatorV2.GetBlock w = (Returns (n, None), w).
Proof.
  intros Hn Hpre Hpost Hfile. rewrite GetBlock_eq. f_equal. f_equal.
  assert (strconv.FormatUint n <> []) as Hne by (apply FormatUint_nonempty; lia).
  destruct (firstn 16 (offset_file w)) as [|b got] eqn:E.
  - destruct pre; [|discriminate]. simpl in Hfile.
    destruct (strconv.FormatUint n); [congruence | discriminate].
  - rewrite (readCheckpoint_cons b got) by assumption.
    rewrite Hfile, Trim_padding; try assumption.
    + change (10 ^ 16) with 10000000000000000 in Hn.
      rewrite ParseInt_FormatUint
        by (change (2 ^ 63) with 9223372036854775808; lia).
      unfold Int.u64. change (2 ^ 64) with 18446744073709551616.
      rewrite Z.mod_small by lia. reflexivity.
    + apply digits_solid. apply FormatUint_digits. lia.
Qed.

Lemma X1_GetBlock_ignores_padding_witness :
  let w := mkWorld 0 ([x20] ++ strconv.FormatUint 1234 ++ [x0d; x0a; x00; x00]) [] in
  OperatorV2.GetBlock w = (Returns (1234, None), w).
Proof.
  apply (X1_GetBlock_ignores_padding 1234 [x20] [x0d; x0a; x00; x00]).
  - lia.
  - repeat constructor.
  - repeat constructor.
  - reflexivity.
Defined.

(** X2. A record that holds only padding is not an absent record: when
    the offset file is not empty and its first 16 bytes are all NUL, CR, LF
    or space, [GetBlock] returns a syntax error (and block 0), not the
    silent block 0 of the empty file. *)
Theorem X2_GetBlock_blank_record_is_error w :
  offset_file w <> [] ->
  Forall isPadding (firstn 16 (offset_file w)) ->
  OperatorV2.GetBlock w = (Returns (0, Some (Trace ErrSyntax)), w).
Proof.
  intros Hne Hpad. rewrite GetBlock_eq. f_equal. f_equal.
  destruct (firstn 16 (offset_file w)) as [|b got] eqn:E.
  - destruct (offset_file w); [congruence | discriminate].
  - rewrite (readCheckpoint_cons b got) by assumption.
    rewrite Trim_all_padding by assumption. reflexivity.
Qed.

Lemma X2_GetBlock_blank_record_is_error_witness :
  let w := mkWorld 0 [x0a] [] in
  OperatorV2.GetBlock w = (Returns (0, Some (Trace ErrSyntax)), w).
Proof.
  apply (X2_GetBlock_blank_record_is_error (mkWorld 0 [x0a] [])).
  - discriminate.
  - repeat constructor.
Defined.

Lemma pow10_pos k : 0 < 10 ^ Z.of_nat k.
Proof. apply Z.pow_pos_nonneg; lia. Qed.

(** A byte that is no digit stops the digit loop with a syntax error; a
    text this short cannot run into the range check before. *)
Lemma parseDigits_syntax s : forall n,
  0 <= n -> (n + 1) * 10 ^ Z.of_nat (length s) <= 2 ^ 64 ->
  Exists (fun b => ~ isDigit b) s ->
  strconv.parseDigits s n = (0, Some ErrSyntax).
Proof.
  induction s as [|c rest IH]; intros n Hn Hfit Hbad.
  - inversion Hbad.
  - cbn [strconv.parseDigits].
    destruct ((48 <=? Bytes.to_Z c) && (Bytes.to_Z c <=? 57)) eqn:Hc;
      [|reflexivity].
    apply andb_true_iff in Hc. destruct Hc as [H1 H2].
    apply Z.leb_le in H1. apply Z.leb_le in H2.
    inversion Hbad as [? ? Hnot|? ? Hrest]; subst.
    { exfalso. apply Hnot. unfold isDigit. lia. }
    cbn [length] in Hfit. rewrite Nat2Z.inj_succ, Z.pow_succ_r in Hfit by lia.
    pose proof (pow10_pos (length rest)) as Hpow.
    change (2 ^ 64) with 18446744073709551616 in Hfit.
    assert ((n + 1) * 10 <= 18446744073709551616) as Hten by nia.
    unfold strconv.cutoff, Int.maxUint64.
    change (2 ^ 64 - 1) with 18446744073709551615.
    change (18446744073709551615 / 10 + 1) with 1844674407370955162.
    destruct (Z.leb_spec 1844674407370955162 n); [lia|].
    unfold Int.u64. change (2 ^ 64) with 18446744073709551616.
    rewrite Z.mod_small by lia.
    destruct (Z.ltb_spec (n * 10 + (Bytes.to_Z c - 48)) (n * 10)); [lia|].
    destruct (Z.ltb_spec 18446744073709551615 (n * 10 + (Bytes.to_Z c - 48)));
      [lia|].
    cbn [orb]. apply IH; [lia | | assumption].
    change (2 ^ 64) with 18446744073709551616. nia.
Qed.

Lemma ParseInt_unsigned c rest :
  strconv.ParseInt (c :: rest)
  = let neg := Byte.eqb c "-" in
    let '(un, err) := strconv.ParseUint (unsigned (c :: rest)) in
    match err with
    | Some ErrSyntax => (0, Some ErrSyntax)
    | _ =>
        if negb neg && (2 ^ 63 <=? un) then (2 ^ 63 - 1, Some ErrRange)
        else if neg && (2 ^ 63 <? un) then (- 2 ^ 63, Some ErrRange)
        else (if neg then - un else un, None)
    end.
Proof. reflexivity. Qed.

Lemma ParseInt_syntax t :
  (length t <= 16)%nat -> Exists (fun b => ~ isDigit b) (unsigned t) ->
  strconv.ParseInt t = (0, Some ErrSyntax).
Proof.
  intros Hlen Hbad. destruct t as [|c rest]; [reflexivity|].
  rewrite ParseInt_unsigned. cbv zeta.
  assert (length (unsigned (c :: rest)) <= 16)%nat as Hlen'.
  { unfold unsigned. destruct (Byte.eqb c "+" || Byte.eqb c "-");
      simpl in *; lia. }
  destruct (unsigned (c :: rest)) as [|d body] eqn:E; [inversion Hbad|].
  unfold strconv.ParseUint. rewrite parseDigits_syntax; try assumption.
  - reflexivity.
  - lia.
  - rewrite Z.mul_1_l.
    apply Z.le_trans with (10 ^ 16); [|vm_compute; discriminate].
    apply Z.pow_le_mono_r; lia.
Qed.

Lemma ParseUint_FormatUint n :
  0 <= n < 2 ^ 64 -> strconv.ParseUint (strconv.FormatUint n) = (n, None).
Proof.
  intros Hn. change (2 ^ 64) with 18446744073709551616 in Hn.
  assert (n < 10 ^ Z.of_nat 20) as H20
    by (change (10 ^ Z.of_nat 20) with 100000000000000000000; lia).
  pose proof (formatBits_digits 20 n [] ltac:(lia) (Forall_nil _)) as Hd.
  pose proof (formatBits_spelled 20 n [] ltac:(lia)) as Hs.
  pose proof (FormatUint_nonempty n ltac:(lia)) as Hne.
  unfold strconv.FormatUint in *. unfold strconv.ParseUint.
  destruct (strconv.formatBits 20 n []) as [|b rest] eqn:E; [congruence|].
  rewrite parseDigits_spelled; try assumption; try lia.
  - rewrite Hs. reflexivity.
  - rewrite Hs. simpl spelled. unfold Int.maxUint64.
    change (2 ^ 64 - 1) with 18446744073709551615. lia.
Qed.

(** X3. A record that is not a number is an error, not a block: when the
    first 16 bytes of the offset file, trimmed, hold a byte that is not a
    decimal digit (other than one leading sign), [GetBlock] returns a
    syntax error and block 0, and leaves the world as it is. *)
Theorem X3_GetBlock_rejects_non_digits w :
  Exists (fun b => ~ isDigit b)
         (unsigned (Bytes.Trim (firstn 16 (offset_file w)) Bytes.cutset)) ->
  OperatorV2.GetBlock w = (Returns (0, Some (Trace ErrSyntax)), w).
Proof.
  intros Hbad. rewrite GetBlock_eq. f_equal. f_equal.
  destruct (firstn 16 (offset_file w)) as [|b got] eqn:E.
  - inversion Hbad.
  - rewrite (readCheckpoint_cons b got) by assumption.
    rewrite ParseInt_syntax; [reflexivity | | assumption].
    pose proof (Trim_length (b :: got) Bytes.cutset) as H1.
    pose proof (length_firstn 16 (offset_file w)) as H2.
    rewrite E in H2. lia.
Qed.

Lemma X3_GetBlock_rejects_non_digits_witness :
  let w := mkWorld 0 (strconv.FormatUint 12 ++ [x2e] ++ strconv.FormatUint 5
                        ++ [x0a]) [] in
  OperatorV2.GetBlock w = (Returns (0, Some (Trace ErrSyntax)), w).
Proof.
  apply (X3_GetBlock_rejects_non_digits
           (mkWorld 0 (strconv.FormatUint 12 ++ [x2e] ++ strconv.FormatUint 5
                         ++ [x0a]) [])).
  apply Exists_cons_tl. apply Exists_cons_tl. apply Exists_cons_hd.
  vm_compute. intros [H1 H2]. apply H1. reflexivity.
Defined.

(** X4. [GetBlock] reads the record as a signed number and converts it to
    [uint64]: a record that holds a minus sign and the decimal text of n
    (0 < n < 10^15) gives block 2^64 - n and no error; with a plus sign it
    gives n. *)
Theorem X4_GetBlock_signed_record n w :
  0 < n < 10 ^ 15 ->
  (firstn 16 (offset_file w) = "-"%byte :: strconv.FormatUint n ->
   OperatorV2.GetBlock w = (Returns (2 ^ 64 - n, None), w))
  /\ (firstn 16 (offset_file w) = "+"%byte :: strconv.FormatUint n ->
      OperatorV2.GetBlock w = (Returns (n, None), w)).
Proof.
  intros Hn. change (10 ^ 15) with 1000000000000000 in Hn.
  assert (forall sign,
             Bytes.in_set Bytes.cutset sign = false ->
             Bytes.Trim (sign :: strconv.FormatUint n) Bytes.cutset
             = sign :: strconv.FormatUint n) as Htrim.
  { intros sign Hs.
    pose proof (Trim_padding [] (sign :: strconv.FormatUint n) []
                  (Forall_nil _) (Forall_nil _)) as H.
    rewrite app_nil_r in H. apply H; [|discriminate].
    constructor; [assumption|].
    apply digits_solid, FormatUint_digits. lia. }
  assert (strconv.ParseUint (strconv.FormatUint n) = (n, None)) as Hparse
    by (apply ParseUint_FormatUint;
        change (2 ^ 64) with 18446744073709551616; lia).
  split; intros Hfile; rewrite GetBlock_eq; f_equal; f_equal;
    rewrite (readCheckpoint_cons _ _ _ Hfile);
    rewrite Htrim by reflexivity;
    rewrite ParseInt_unsigned; cbv zeta;
    cbn [unsigned Byte.eqb orb];
    change (Byte.eqb "-" "+") with false; change (Byte.eqb "-" "-") with true;
    change (Byte.eqb "+" "+") with true; change (Byte.eqb "+" "-") with false;
    cbn [orb negb andb]; rewrite Hparse;
    change (2 ^ 63) with 9223372036854775808.
  - destruct (Z.ltb_spec 9223372036854775808 n); [lia|].
    unfold Int.u64. change (2 ^ 64) with 18446744073709551616.
    replace (- n) with (18446744073709551616 - n + (-1) * 18446744073709551616)
      by lia.
    rewrite Z.mod_add by lia. rewrite Z.mod_small by lia. reflexivity.
  - destruct (Z.leb_spec 9223372036854775808 n); [lia|].
    unfold Int.u64. change (2 ^ 64) with 18446744073709551616.
    rewrite Z.mod_small by lia. reflexivity.
Qed.

Lemma X4_GetBlock_signed_record_witness :
  let w := mkWorld 0 ("-"%byte :: strconv.FormatUint 5) [] in
  OperatorV2.GetBlock w = (Returns (18446744073709551611, None), w).
Proof.
  apply (proj1 (X4_GetBlock_signed_record 5
                  (mkWorld 0 ("-"%byte :: strconv.FormatUint 5) [])
                  ltac:(lia))).
  reflexivity.
Defined.

(** ** Runs of checkpoints *)

Lemma saveEach_cons n rest w :
  saveEach (n :: rest) w
  = saveEach rest
      (mkWorld (clock w)
         (strconv.FormatUint n
            ++ skipn (length (strconv.FormatUint n)) (offset_file w))
         (trace w)).
Proof. reflexivity. Qed.

(** Checkpoints that do not decrease overwrite each other completely. *)
Lemma saveEach_growing ns : forall n w,
  (length (offset_file w) <= length (strconv.FormatUint n))%nat ->
  StronglySorted Z.le (n :: ns) -> 0 <= n ->
  saveEach (n :: ns) w
  = (Returns tt, mkWorld (clock w) (strconv.FormatUint (last ns n)) (trace w)).
Proof.
  induction ns as [|m ns IH]; intros n w Hlen Hsorted Hn.
  - rewrite saveEach_cons. rewrite skipn_all2 by lia. rewrite app_nil_r.
    reflexivity.
  - rewrite saveEach_cons. rewrite skipn_all2 by lia. rewrite app_nil_r.
    inversion Hsorted as [|? ? Htail Hall]; subst.
    inversion Hall as [|? ? Hnm _]; subst.
    rewrite IH; cbn [clock offset_file trace]; try assumption; try lia.
    + rewrite last_cons. reflexivity.
    + apply FormatUint_length_mono. lia.
Qed.

Lemma Forall_last (P : Z -> Prop) ns : forall n,
  P n -> Forall P ns -> P (last ns n).
Proof.
  induction ns as [|m ns IH]; intros n Hn Hall; [assumption|].
  rewrite last_cons. inversion Hall; subst. apply IH; assumption.
Qed.

(** X5. Checkpoints that only grow read back: starting from a record no
    longer than the text of the first one (an empty record, or an earlier
    checkpoint that is not larger), after saving a non-decreasing run of
    block numbers below 10^16 the record holds exactly the text of the last
    one, and [GetBlock] returns it. *)
Theorem X5_growing_checkpoints_read_back n ns w :
  (length (offset_file w) <= length (strconv.FormatUint n))%nat ->
  StronglySorted Z.le (n :: ns) ->
  Forall (fun m => 0 <= m < 10 ^ 16) (n :: ns) ->
  (saveEach (n :: ns) ;; OperatorV2.GetBlock) w
  = (Returns (last ns n, None),
     mkWorld (clock w) (strconv.FormatUint (last ns n)) (trace w)).
Proof.
  intros Hlen Hsorted Hall. inversion Hall as [|? ? Hn Hns]; subst.
  unfold bind at 1. rewrite saveEach_growing by (assumption || lia).
  rewrite GetBlock_eq. cbn [offset_file].
  rewrite readCheckpoint_FormatUint; [reflexivity|].
  apply (Forall_last (fun m => 0 <= m < 10 ^ 16)); assumption.
Qed.

Lemma X5_growing_checkpoints_read_back_witness :
  (saveEach [100; 155; 155; 1200] ;; OperatorV2.GetBlock)
    (mkWorld 0 (strconv.FormatUint 99) [])
  = (Returns (1200, None), mkWorld 0 (strconv.FormatUint 1200) []).
Proof.
  apply (X5_growing_checkpoints_read_back 100 [155; 155; 1200]
           (mkWorld 0 (strconv.FormatUint 99) [])).
  - vm_compute. lia.
  - repeat constructor; lia.
  - repeat constructor; lia.
Defined.

(** ** Checkpoints of more than 16 digits *)

Lemma formatBits_acc fuel : forall u acc,
  strconv.formatBits fuel u acc = strconv.formatBits fuel u [] ++ acc.
Proof.
  induction fuel as [|k IH]; intros u acc; cbn [strconv.formatBits];
    [reflexivity|].
  destruct (u <? 10); [reflexivity|].
  rewrite (IH (u / 10) (strconv.digit (u mod 10) :: acc)).
  rewrite (IH (u / 10) [strconv.digit (u mod 10)]).
  rewrite <- app_assoc. reflexivity.
Qed.

(** Fuel beyond the number of digits changes nothing. *)
Lemma formatBits_more_fuel fuel : forall u acc,
  0 <= u < 10 ^ Z.of_nat (S fuel) ->
  strconv.formatBits (S (S fuel)) u acc = strconv.formatBits (S fuel) u acc.
Proof.
  induction fuel as [|k IH]; intros u acc Hu.
  - change (10 ^ Z.of_nat 1) with 10 in Hu. cbn [strconv.formatBits].
    destruct (Z.ltb_spec u 10); [reflexivity | lia].
  - remember (S k) as f eqn:Ef. cbn [strconv.formatBits].
    destruct (Z.ltb_spec u 10); [reflexivity|].
    subst f. apply IH.
    rewrite (Nat2Z.inj_succ (S k)), Z.pow_succ_r in Hu by lia.
    split; [apply Z.div_pos; lia | apply Z.div_lt_upper_bound; lia].
Qed.

(** The text of a number of two digits or more is the text of its tenth
    followed by its last digit. *)
Lemma FormatUint_snoc n :
  10 <= n < 10 ^ 20 ->
  strconv.FormatUint n
  = strconv.FormatUint (n / 10) ++ [strconv.digit (n mod 10)].
Proof.
  intros Hn. unfold strconv.FormatUint.
  change (strconv.formatBits 20 n [])
    with (if n <? 10 then [strconv.digit n]
          else strconv.formatBits 19 (n / 10) [strconv.digit (n mod 10)]).
  destruct (Z.ltb_spec n 10); [lia|].
  rewrite formatBits_acc. f_equal. symmetry.
  apply (formatBits_more_fuel 18).
  change (10 ^ Z.of_nat 19) with (10 ^ 19).
  change (10 ^ 20) with (10 * 10 ^ 19) in Hn.
  split; [apply Z.div_pos; lia | apply Z.div_lt_upper_bound; lia].
Qed.

(** A number of more than [k] digits has a text of more than [k] bytes. *)
Lemma formatBits_length_lower fuel : forall (k : nat) u acc,
  10 ^ Z.of_nat k <= u -> (S k <= fuel)%nat ->
  (S k + length acc <= length (strconv.formatBits fuel u acc))%nat.
Proof.
  induction fuel as [|f IH]; intros k u acc Hu Hk; [lia|].
  cbn [strconv.formatBits]. destruct (Z.ltb_spec u 10).
  - destruct k as [|k]; [simpl; lia|].
    rewrite Nat2Z.inj_succ, Z.pow_succ_r in Hu by lia.
    pose proof (pow10_pos k). lia.
  - destruct k as [|k].
    + pose proof (formatBits_length_ge f (u / 10)
                    (strconv.digit (u mod 10) :: acc)) as H1.
      simpl in *. lia.
    + rewrite Nat2Z.inj_succ, Z.pow_succ_r in Hu by lia.
      assert (10 ^ Z.of_nat k <= u / 10) as Hd
        by (apply Z.div_le_lower_bound; lia).
      pose proof (IH k (u / 10) (strconv.digit (u mod 10) :: acc) Hd
                    ltac:(lia)) as H1.
      simpl in *. lia.
Qed.

(** The first 16 bytes of the text of a number of 17 digits or more are
    those of the text of its tenth. *)
Lemma firstn16_FormatUint n :
  10 ^ 16 <= n < 10 ^ 20 ->
  firstn 16 (strconv.FormatUint n) = firstn 16 (strconv.FormatUint (n / 10)).
Proof.
  intros Hn. rewrite FormatUint_snoc
    by (change (10 ^ 16) with 10000000000000000 in Hn; lia).
  assert (16 <= length (strconv.FormatUint (n / 10)))%nat as Hlen.
  { pose proof (formatBits_length_lower 20 15 (n / 10) []) as H.
    change (length (@nil byte)) with O in H.
    unfold strconv.FormatUint. apply H; [|lia].
    change (10 ^ Z.of_nat 15) with (10 ^ 15).
    apply Z.div_le_lower_bound; [lia|].
    change (10 * 10 ^ 15) with (10 ^ 16). lia. }
  rewrite firstn_app.
  replace (16 - length (strconv.FormatUint (n / 10)))%nat with O by lia.
  rewrite firstn_O, app_nil_r. reflexivity.
Qed.

Lemma readCheckpoint_firstn a b :
  firstn 16 a = firstn 16 b -> readCheckpoint a = readCheckpoint b.
Proof. intros E. unfold readCheckpoint. rewrite E. reflexivity. Qed.

(** Reading the text of a number of 16 + k digits gives the number
    without its last k digits. *)
Lemma readCheckpoint_cut (k : nat) : forall n,
  0 <= n < 10 ^ 20 -> 10 ^ 15 <= n / 10 ^ Z.of_nat k < 10 ^ 16 ->
  readCheckpoint (strconv.FormatUint n) = (n / 10 ^ Z.of_nat k, None).
Proof.
  induction k as [|k IH]; intros n Hn Hk.
  - change (10 ^ Z.of_nat 0) with 1 in *. rewrite Z.div_1_r in *.
    apply readCheckpoint_FormatUint. lia.
  - rewrite Nat2Z.inj_succ, Z.pow_succ_r in * by lia.
    pose proof (pow10_pos k) as Hpow.
    rewrite <- Z.div_div in * by lia.
    assert (0 <= n / 10) as Htenth by (apply Z.div_pos; lia).
    assert (n / 10 / 10 ^ Z.of_nat k <= n / 10) as Hle
      by (apply Z.div_le_upper_bound; nia).
    pose proof (Z.mul_div_le n 10 ltac:(lia)) as Hmul.
    change (10 ^ 15) with 1000000000000000 in Hk.
    change (10 ^ 20) with 100000000000000000000 in Hn.
    rewrite (readCheckpoint_firstn _ (strconv.FormatUint (n / 10)))
      by (apply firstn16_FormatUint;
          change (10 ^ 16) with 10000000000000000;
          change (10 ^ 20) with 100000000000000000000; lia).
    apply IH; [|change (10 ^ 15) with 1000000000000000; assumption].
    split; [assumption|].
    apply Z.div_lt_upper_bound; [lia|].
    change (10 ^ 20) with 100000000000000000000. lia.
Qed.

(** X6. [GetBlock] reads 16 bytes: a checkpoint of 17 digits or more does
    not read back. For a block number n from 10^16 up to the end of
    [uint64], [SaveBlock(n)] on an empty record followed by [GetBlock]
    returns n without its last k digits (k = 1 .. 4, the digits beyond the
    sixteenth), which is less than n, and no error. *)
Theorem X6_long_checkpoint_is_cut n w :
  10 ^ 16 <= n < 2 ^ 64 -> offset_file w = [] ->
  exists k, 1 <= k <= 4
    /\ 10 ^ 15 <= n / 10 ^ k < 10 ^ 16
    /\ n / 10 ^ k < n
    /\ fst ((OperatorV2.SaveBlock n ;; OperatorV2.GetBlock) w)
       = Returns (n / 10 ^ k, None).
Proof.
  intros Hn Hfile.
  change (10 ^ 16) with 10000000000000000 in Hn.
  change (2 ^ 64) with 18446744073709551616 in Hn.
  assert (exists j : nat, 1 <= Z.of_nat j <= 4
            /\ 10 ^ 15 <= n / 10 ^ Z.of_nat j < 10 ^ 16) as (j & Hj & Hcut).
  { change (10 ^ 15) with 1000000000000000.
    change (10 ^ 16) with 10000000000000000.
    destruct (Z.lt_ge_cases n (10 ^ 17)) as [H17|H17];
      [exists 1%nat|
       destruct (Z.lt_ge_cases n (10 ^ 18)) as [H18|H18];
       [exists 2%nat|
        destruct (Z.lt_ge_cases n (10 ^ 19)) as [H19|H19];
        [exists 3%nat|exists 4%nat]]];
      (split; [lia|]);
      match goal with
      | |- _ <= n / ?d < _ =>
          let v := eval vm_compute in d in change d with v
      end;
      change (10 ^ 17) with 100000000000000000 in *;
      change (10 ^ 18) with 1000000000000000000 in *;
      change (10 ^ 19) with 10000000000000000000 in *;
      (split; [apply Z.div_le_lower_bound; lia
              | apply Z.div_lt_upper_bound; lia]). }
  exists (Z.of_nat j). split; [assumption|]. split; [assumption|].
  split.
  - change (10 ^ 16) with 10000000000000000 in Hcut. lia.
  - unfold bind at 1. rewrite SaveBlock_eq, GetBlock_eq.
    cbn [offset_file fst]. rewrite Hfile, skipn_nil, app_nil_r.
    rewrite (readCheckpoint_cut j); [reflexivity | | assumption].
    change (10 ^ 20) with 100000000000000000000. lia.
Qed.

Lemma X6_long_checkpoint_is_cut_witness :
  exists k, 1 <= k <= 4
    /\ 10 ^ 15 <= 12345678901234567890 / 10 ^ k < 10 ^ 16
    /\ 12345678901234567890 / 10 ^ k < 12345678901234567890
    /\ fst ((OperatorV2.SaveBlock 12345678901234567890 ;; OperatorV2.GetBlock)
              Sample.world)
       = Returns (12345678901234567890 / 10 ^ k, None).
Proof.
  apply (X6_long_checkpoint_is_cut 12345678901234567890 Sample.world).
  - vm_compute. split; [discriminate | reflexivity].
  - reflexivity.
Defined.

(** ** What the handler submits *)

Lemma submitted_app a b : submitted (a ++ b) = submitted a ++ submitted b.
Proof.
  induction a as [|e a IH]; [reflexivity|].
  destruct e; simpl; rewrite ?IH; reflexivity.
Qed.

Lemma retrieval_not_submitted evs :
  Forall isRetrievalEvent evs ->
  submitted evs = [] /\ forall req, ~ In (EvSubmitTask req) evs.
Proof.
  induction 1 as [|e evs He _ [IH1 IH2]]; [split; [reflexivity | intros ? []]|].
  split.
  - destruct e; simpl in He; try contradiction; exact IH1.
  - intros req [Heq|Hin]; [subst e; exact He | exact (IH2 req Hin)].
Qed.

Section Submission.

Variables (lib : Lib) (net : Net).

(** The run of the handler, step by step: the head is read, the proof is
    retrieved, and then either nothing more happens, or the header is
    printed and digested and the digest fails, or the header is printed,
    digested, signed and submitted. *)
Lemma OnNewLog_run o log w r w' :
  OperatorV2.OnNewLog o lib net log w = (r, w') ->
  exists evs tail,
    trace w' = trace w ++ EvHeaderByNumber None :: evs ++ tail
    /\ Forall isRetrievalEvent evs
    /\ (evs = []
        \/ trace (snd (OperatorV2.proverGetPoe o lib net (TxHash log)
                         (Topics log) (after (EvHeaderByNumber None) w)))
           = trace w ++ EvHeaderByNumber None :: evs)
    /\ (tail = []
        \/ exists number resp p mdBytes,
             net_head net = inr number
             /\ fst (OperatorV2.proverGetPoe o lib net (TxHash log)
                       (Topics log) (after (EvHeaderByNumber None) w))
                = Returns (Some resp, false, None)
             /\ resp_Poe resp = Some p
             /\ lib_Marshal lib (metadataOf resp) = inr mdBytes
             /\ ((exists err,
                     lib_Digest lib (headerOf o lib number p mdBytes) = inl err
                     /\ tail = [EvPretty (headerOf o lib number p mdBytes);
                                EvDigest (headerOf o lib number p mdBytes)]
                     /\ r = Returns (Some (Trace err)))
                 \/ (exists digest,
                       let req := {| Task := headerOf o lib number p mdBytes;
                                     task_Signature := lib_SignMessage lib digest;
                                     task_OperatorId := OperatorV2.operatorId o |} in
                       lib_Digest lib (headerOf o lib number p mdBytes) = inr digest
                       /\ tail = [EvPretty (headerOf o lib number p mdBytes);
                                  EvDigest (headerOf o lib number p mdBytes);
                                  EvSignMessage digest; EvSubmitTask req]
                       /\ r = Returns (option_map Trace (net_SubmitTask net req))))).
Proof.
  unfold OperatorV2.OnNewLog. run.
  destruct (net_head net) as [err|number] eqn:Hhead; run.
  { intros E. inversion E; subst. exists [], []. cbn [trace app].
    repeat split; auto. }
  match goal with
  | |- context [OperatorV2.proverGetPoe ?o ?l ?n ?t ?tp ?w0] =>
      destruct (OperatorV2.proverGetPoe o l n t tp w0) as [rp wp] eqn:Ep
  end.
  pose proof Ep as Hframe. apply proverGetPoe_frame in Hframe.
  destruct Hframe as (_ & _ & evs & Ht & Hevs). cbn [trace] in Ht.
  rewrite <- app_assoc in Ht. cbn [app] in Ht.
  assert (forall (Q : list Event -> Prop) rr, (rr, wp) = (r, w') ->
             exists evs0 tail0,
               trace w' = trace w ++ EvHeaderByNumber None :: evs0 ++ tail0
               /\ Forall isRetrievalEvent evs0
               /\ (evs0 = [] \/ trace wp = trace w ++ EvHeaderByNumber None :: evs0)
               /\ (tail0 = [] \/ Q tail0)) as Hstop.
  { intros Q rr E. inversion E; subst. exists evs, [].
    rewrite Ht, !app_nil_r. repeat split; auto. }
  destruct rp as [[[poe skip] err]|pn]; run; [|apply Hstop].
  destruct err as [e|]; run; [apply Hstop|].
  destruct skip; run; [apply Hstop|].
  destruct poe as [resp|]; run; [|apply Hstop].
  fold (metadataOf resp).
  destruct (lib_Marshal lib (metadataOf resp)) as [err|mdBytes] eqn:Hmd; run;
    [apply Hstop|].
  destruct (resp_Poe resp) as [p|] eqn:Hp; run; [|apply Hstop].
  fold (headerOf o lib number p mdBytes).
  destruct (lib_Digest lib (headerOf o lib number p mdBytes))
    as [err|digest] eqn:Hd; run.
  - intros E. inversion E; subst; clear E. cbn [trace].
    exists evs, [EvPretty (headerOf o lib number p mdBytes);
                 EvDigest (headerOf o lib number p mdBytes)].
    split; [rewrite Ht, <- !app_assoc; reflexivity|].
    split; [assumption|]. split; [right; assumption|].
    right. exists number, resp, p, mdBytes.
    repeat split; try assumption; try reflexivity.
    left. exists err. repeat split; assumption.
  - set (req := {| Task := headerOf o lib number p mdBytes;
                   task_Signature := lib_SignMessage lib digest;
                   task_OperatorId := OperatorV2.operatorId o |}).
    assert (trace wp ++ [EvPretty (headerOf o lib number p mdBytes)]
              ++ [EvDigest (headerOf o lib number p mdBytes)]
              ++ [EvSignMessage digest] ++ [EvSubmitTask req]
            = trace w ++ EvHeaderByNumber None :: evs
                ++ [EvPretty (headerOf o lib number p mdBytes);
                    EvDigest (headerOf o lib number p mdBytes);
                    EvSignMessage digest; EvSubmitTask req]) as Htrace
      by (rewrite Ht, <- !app_assoc; reflexivity).
    destruct (net_SubmitTask net req) as [err|] eqn:Hs; run;
      intros E; inversion E; subst r w'; clear E; cbn [trace];
      exists evs, [EvPretty (headerOf o lib number p mdBytes);
                   EvDigest (headerOf o lib number p mdBytes);
                   EvSignMessage digest; EvSubmitTask req];
      (split; [rewrite <- !app_assoc; exact Htrace|]);
      (split; [assumption|]); (split; [right; assumption|]);
      right; exists number, resp, p, mdBytes;
      (repeat split; try assumption; try reflexivity);
      right; exists digest; cbv zeta; fold req; rewrite Hs;
      repeat split; try assumption; reflexivity.
Qed.

End Submission.

(** X7. What the second variant submits is the header it signed: every
    task [OnNewLog] submits carries the header built from the retrieved
    proof (identifier and quorum numbers of the operator, the encoded
    metadata of the response, the packed proof, threshold byte 0), the
    signature of the digest of that very header, and the operator id. *)
Theorem X7_submitted_task_is_the_signed_header lib net o log w req :
  In (EvSubmitTask req) (since w (snd (OperatorV2.OnNewLog o lib net log w))) ->
  exists number resp p mdBytes digest,
    net_head net = inr number
    /\ fst (OperatorV2.proverGetPoe o lib net (TxHash log) (Topics log)
              (after (EvHeaderByNumber None) w))
       = Returns (Some resp, false, None)
    /\ resp_Poe resp = Some p
    /\ lib_Marshal lib (metadataOf resp) = inr mdBytes
    /\ Task req = headerOf o lib number p mdBytes
    /\ lib_Digest lib (Task req) = inr digest
    /\ task_Signature req = lib_SignMessage lib digest
    /\ task_OperatorId req = OperatorV2.operatorId o.
Proof.
  destruct (OperatorV2.OnNewLog o lib net log w) as [r w'] eqn:E.
  cbn [snd].
  destruct (OnNewLog_run lib net o log w r w' E)
    as (evs & tail & Ht & Hevs & _ & Htail).
  rewrite (since_app _ _ _ Ht). intros Hin.
  destruct (retrieval_not_submitted evs Hevs) as [_ Hno].
  destruct Hin as [Hin|Hin]; [discriminate|].
  apply in_app_or in Hin. destruct Hin as [Hin|Hin]; [destruct (Hno _ Hin)|].
  destruct Htail as [->|(number & resp & p & mdBytes & Hhead & Hpoe & Hp & Hmd
                         & [(err & _ & -> & _)|(digest & Hd & -> & _)])].
  - destruct Hin.
  - destruct Hin as [Hin|[Hin|[]]]; discriminate.
  - destruct Hin as [Hin|[Hin|[Hin|[Hin|[]]]]]; try discriminate.
    inversion Hin; subst req; clear Hin. cbn [Task task_Signature task_OperatorId].
    exists number, resp, p, mdBytes, digest. repeat split; assumption.
Qed.

Lemma X7_submitted_task_is_the_signed_header_witness :
  let o := Sample.operator false in
  let mdBytes := abi.be_bytes 8 9 ++ abi.be_bytes 8 7 ++ abi.be_bytes 8 8 in
  let h := headerOf o Sample.lib 160 Sample.poe mdBytes in
  let req := mkTaskRequest h (Bytes.be_value mdBytes + 159 + 1) 77 in
  In (EvSubmitTask req)
     (since Sample.world
        (snd (OperatorV2.OnNewLog o Sample.lib Sample.net (Sample.log 101 0)
                Sample.world)))
  /\ exists digest,
       lib_Digest Sample.lib (Task req) = inr digest
       /\ task_Signature req = lib_SignMessage Sample.lib digest.
Proof.
  cbv zeta.
  assert (In (EvSubmitTask
                (mkTaskRequest
                   (headerOf (Sample.operator false) Sample.lib 160 Sample.poe
                      (abi.be_bytes 8 9 ++ abi.be_bytes 8 7 ++ abi.be_bytes 8 8))
                   (Bytes.be_value
                      (abi.be_bytes 8 9 ++ abi.be_bytes 8 7 ++ abi.be_bytes 8 8)
                    + 159 + 1) 77))
             (since Sample.world
                (snd (OperatorV2.OnNewLog (Sample.operator false) Sample.lib
                        Sample.net (Sample.log 101 0) Sample.world)))) as Hin.
  { vm_compute. do 6 right. left. reflexivity. }
  split; [exact Hin|].
  destruct (X7_submitted_task_is_the_signed_header _ _ _ _ _ _ Hin)
    as (number & resp & p & mdBytes & digest & _ & _ & _ & _ & _ & Hd & Hs & _).
  exists digest. split; assumption.
Defined.

(** X8. The second variant submits at most one task for a log, as the
    last thing it does, and its result is then the result of the
    submission: nil when the aggregator accepts, the traced error of the
    aggregator otherwise. *)
Theorem X8_one_task_submitted_last lib net o log w :
  let run := OperatorV2.OnNewLog o lib net log w in
  (length (submitted (since w (snd run))) <= 1)%nat
  /\ forall req, In (EvSubmitTask req) (since w (snd run)) ->
       (exists pre, since w (snd run) = pre ++ [EvSubmitTask req]
                    /\ submitted pre = [])
       /\ fst run = Returns (option_map Trace (net_SubmitTask net req)).
Proof.
  cbv zeta.
  destruct (OperatorV2.OnNewLog o lib net log w) as [r w'] eqn:E.
  cbn [fst snd].
  destruct (OnNewLog_run lib net o log w r w' E)
    as (evs & tail & Ht & Hevs & _ & Htail).
  rewrite (since_app _ _ _ Ht).
  destruct (retrieval_not_submitted evs Hevs) as [Hnone Hno].
  destruct Htail as [->|(number & resp & p & mdBytes & _ & _ & _ & _
                         & [(err & _ & -> & _)|(digest & _ & -> & Hr)])].
  - rewrite app_nil_r. split.
    + cbn [submitted]. rewrite Hnone. simpl. lia.
    + intros req [Hin|Hin]; [discriminate | destruct (Hno _ Hin)].
  - split.
    + cbn [submitted]. rewrite submitted_app, Hnone. simpl. lia.
    + intros req [Hin|Hin]; [discriminate|].
      apply in_app_or in Hin. destruct Hin as [Hin|Hin]; [destruct (Hno _ Hin)|].
      destruct Hin as [Hin|[Hin|[]]]; discriminate.
  - split.
    + cbn [submitted]. rewrite submitted_app, Hnone. simpl. lia.
    + intros req [Hin|Hin]; [discriminate|].
      apply in_app_or in Hin. destruct Hin as [Hin|Hin]; [destruct (Hno _ Hin)|].
      destruct Hin as [Hin|[Hin|[Hin|[Hin|[]]]]]; try discriminate.
      inversion Hin; subst req; clear Hin. split; [|exact Hr].
      eexists ((EvHeaderByNumber None :: evs) ++ [_; _; _]). split.
      * cbn [app]. rewrite <- !app_assoc. reflexivity.
      * cbn [app submitted]. rewrite submitted_app, Hnone. reflexivity.
Qed.

Lemma X8_one_task_submitted_last_witness :
  let run := OperatorV2.OnNewLog (Sample.operator false) Sample.lib Sample.net
               (Sample.log 101 0) Sample.world in
  length (submitted (since Sample.world (snd run))) = 1%nat
  /\ (length (submitted (since Sample.world (snd run))) <= 1)%nat
  /\ fst run = Returns None.
Proof.
  cbv zeta. split; [vm_compute; reflexivity|].
  destruct (X8_one_task_submitted_last Sample.lib Sample.net
              (Sample.operator false) (Sample.log 101 0) Sample.world)
    as [Hone _].
  split; [exact Hone | vm_compute; reflexivity].
Defined.

(** X9. An error of the prover is an error of the handler even when the
    prover also says skip: in live mode, when the proof request comes back
    with an error, [OnNewLog] returns that error (traced by the retrieval
    and by the handler) whatever the skip flag, after the head query and
    the proof request and nothing else. *)
Theorem X9_prover_error_overrides_skip lib net o log w number poe skip e :
  OperatorV2.Simulation o = false ->
  net_head net = inr number ->
  (3 <= length (Topics log))%nat ->
  net_GetPoe net (TxHash log) = (poe, skip, Some e) ->
  OperatorV2.OnNewLog o lib net log w
  = (Returns (Some (Trace (Trace e))),
     mkWorld (clock w) (offset_file w)
       (trace w ++ [EvHeaderByNumber None; EvInfo "fetching poe for batch";
                    EvGetPoe (TxHash log)])).
Proof.
  intros Hlive Hhead Htopics Hpoe.
  unfold OperatorV2.OnNewLog, OperatorV2.proverGetPoe. run.
  rewrite Hhead, Hlive. run.
  destruct (nth_error (Topics log) 2) as [t|] eqn:Ht.
  - run. rewrite Hpoe. run. rewrite <- !app_assoc. reflexivity.
  - apply nth_error_None in Ht. lia.
Qed.

Lemma X9_prover_error_overrides_skip_witness :
  let net := Sample.with_GetPoe (None, true, Some (Remote "busy")) Sample.net in
  OperatorV2.OnNewLog (Sample.operator false) Sample.lib net (Sample.log 101 0)
    Sample.world
  = (Returns (Some (Trace (Trace (Remote "busy")))),
     mkWorld 0 [] [EvHeaderByNumber None; EvInfo "fetching poe for batch";
                   EvGetPoe 9101]).
Proof.
  apply (X9_prover_error_overrides_skip Sample.lib
           (Sample.with_GetPoe (None, true, Some (Remote "busy")) Sample.net)
           (Sample.operator false) (Sample.log 101 0) Sample.world
           160 None true (Remote "busy")).
  - reflexivity.
  - reflexivity.
  - simpl. lia.
  - reflexivity.
Defined.

(** X10. An answer of the prover without error, without skip and without
    proof stops the handler with a nil dereference: in live mode, when the
    response is nil, or when the response has no proof (and its metadata
    encodes), [OnNewLog] panics after the head query and the proof request;
    nothing is printed, signed or submitted. *)
Theorem X10_answer_without_proof_panics lib net o log w number :
  OperatorV2.Simulation o = false ->
  net_head net = inr number ->
  (3 <= length (Topics log))%nat ->
  let w' := mkWorld (clock w) (offset_file w)
              (trace w ++ [EvHeaderByNumber None;
                           EvInfo "fetching poe for batch";
                           EvGetPoe (TxHash log)]) in
  (net_GetPoe net (TxHash log) = (None, false, None) ->
   OperatorV2.OnNewLog o lib net log w = (Panics NilDereference, w'))
  /\ (forall resp mdBytes,
         net_GetPoe net (TxHash log) = (Some resp, false, None) ->
         resp_Poe resp = None ->
         lib_Marshal lib (metadataOf resp) = inr mdBytes ->
         OperatorV2.OnNewLog o lib net log w = (Panics NilDereference, w')).
Proof.
  intros Hlive Hhead Htopics. cbv zeta.
  destruct (nth_error (Topics log) 2) as [t|] eqn:Ht;
    [|apply nth_error_None in Ht; lia].
  split.
  - intros Hpoe.
    unfold OperatorV2.OnNewLog, OperatorV2.proverGetPoe. run.
    rewrite Hhead, Hlive. run. rewrite Ht. run. rewrite Hpoe. run.
    rewrite <- !app_assoc. reflexivity.
  - intros resp mdBytes Hpoe Hnil Hmd.
    unfold OperatorV2.OnNewLog, OperatorV2.proverGetPoe. run.
    rewrite Hhead, Hlive. run. rewrite Ht. run. rewrite Hpoe. run.
    fold (metadataOf resp). rewrite Hmd, Hnil. run.
    rewrite <- !app_assoc. reflexivity.
Qed.

Lemma X10_answer_without_proof_panics_witness :
  let net := Sample.with_GetPoe (None, false, None) Sample.net in
  OperatorV2.OnNewLog (Sample.operator false) Sample.lib net (Sample.log 101 0)
    Sample.world
  = (Panics NilDereference,
     mkWorld 0 [] [EvHeaderByNumber None; EvInfo "fetching poe for batch";
                   EvGetPoe 9101]).
Proof.
  apply (proj1 (X10_answer_without_proof_panics Sample.lib
                  (Sample.with_GetPoe (None, false, None) Sample.net)
                  (Sample.operator false) (Sample.log 101 0) Sample.world 160
                  eq_refl eq_refl ltac:(simpl; lia))).
  reflexivity.
Defined.

Lemma reference_block_mod number :
  0 <= number < 2 ^ 63 ->
  Int.u32 (sub64 (Int64 number) 1) = (number - 1) mod 2 ^ 32.
Proof.
  intros H. unfold Int.u32, sub64, Int64.
  rewrite (i64_small number) by lia.
  rewrite i64_small by lia. reflexivity.
Qed.

(** X11. The reference block of the second variant, for every head: each
    header [OnNewLog] prints, digests or submits carries the head number
    minus one in 32 bits, (head - 1) mod 2^32. That is head - 1 for a head
    from 1 to 2^32, and 2^32 - 1 at head 0. *)
Theorem X11_reference_block_wraps_in_32_bits lib net o log w number e h :
  net_head net = inr number -> 0 <= number < 2 ^ 63 ->
  In e (since w (snd (OperatorV2.OnNewLog o lib net log w))) ->
  header_of e = Some h ->
  ReferenceBlockNumber h = (number - 1) mod 2 ^ 32
  /\ (1 <= number <= 2 ^ 32 -> ReferenceBlockNumber h = number - 1)
  /\ (number = 0 -> ReferenceBlockNumber h = 2 ^ 32 - 1).
Proof.
  intros Hhead Hrange Hin Hh.
  destruct (OperatorV2.OnNewLog o lib net log w) as [r w'] eqn:E.
  apply OnNewLog_headers in E. destruct E as (evs & Ht & Hevs).
  cbn [snd] in Hin. rewrite (since_app _ _ _ Ht) in Hin.
  destruct (Hevs e h Hin Hh) as (n & Hn & Href).
  rewrite Hhead in Hn. inversion Hn; subst n.
  rewrite Href, reference_block_mod by assumption.
  split; [reflexivity|]. split.
  - intros H1. change (2 ^ 32) with 4294967296 in *.
    apply Z.mod_small. lia.
  - intros ->. reflexivity.
Qed.

Lemma X11_reference_block_wraps_in_32_bits_witness :
  let net := Sample.with_head (inr (2 ^ 32 + 5)) Sample.net in
  exists h,
    In (EvPretty h)
       (since Sample.world
          (snd (OperatorV2.OnNewLog (Sample.operator false) Sample.lib net
                  (Sample.log 101 0) Sample.world)))
    /\ ReferenceBlockNumber h = 4.
Proof.
  cbv zeta.
  assert (exists h,
             In (EvPretty h)
                (since Sample.world
                   (snd (OperatorV2.OnNewLog (Sample.operator false) Sample.lib
                           (Sample.with_head (inr (2 ^ 32 + 5)) Sample.net)
                           (Sample.log 101 0) Sample.world)))) as [h Hin].
  { eexists. vm_compute. do 3 right. left. reflexivity. }
  exists h. split; [exact Hin|].
  destruct (X11_reference_block_wraps_in_32_bits Sample.lib
              (Sample.with_head (inr (2 ^ 32 + 5)) Sample.net)
              (Sample.operator false) (Sample.log 101 0) Sample.world
              (2 ^ 32 + 5) (EvPretty h) h eq_refl
              ltac:(vm_compute; split; [discriminate | reflexivity])
              Hin eq_refl) as [Href _].
  rewrite Href. reflexivity.
Defined.

(** ** The two modes of proof retrieval *)

Ltac mode_events :=
  match goal with
  | H : (_, _) = (_, _) |- _ => inversion H; subst; clear H
  end;
  cbn [trace]; rewrite <- ?app_assoc;
  eexists; split;
  [ first [ reflexivity | symmetry; apply app_nil_r ]
  | repeat constructor; try exact I; intros [] ].

(** In simulation mode the retrieval only talks to the chain client of
    the task fetcher; in live mode it never does. *)
Lemma proverGetPoe_mode lib net o txHash topics w r w' :
  OperatorV2.proverGetPoe o lib net txHash topics w = (r, w') ->
  exists evs, trace w' = trace w ++ evs
    /\ if OperatorV2.Simulation o
       then Forall isSourceEvent evs
       else Forall (fun e => ~ isSourceEvent e) evs.
Proof.
  unfold OperatorV2.proverGetPoe.
  destruct (OperatorV2.Simulation o); run;
    repeat (split_match; run); intros E; mode_events.
Qed.

Lemma source_not_prover evs :
  Forall isSourceEvent evs -> Forall (fun e => ~ isProverEvent e) evs.
Proof.
  intros H. eapply Forall_impl; [|exact H].
  intros e He. destruct e; simpl in *; tauto.
Qed.

(** In simulation mode the report is made locally: a registration does
    not reach the prover. *)
Lemma registerAttestationReport_local lib net o pubkeyBytes w r w' :
  OperatorV2.Simulation o = true ->
  OperatorV2.registerAttestationReport o lib net pubkeyBytes w = (r, w') ->
  exists evs, trace w' = trace w ++ evs
              /\ Forall (fun e => ~ isProverEvent e) evs.
Proof.
  intros Hsim.
  unfold OperatorV2.registerAttestationReport,
    OperatorV2.proverGetAttestationReport.
  rewrite Hsim. run. repeat (split_match; run); intros E; mode_events.
Qed.

Lemma checkNext_local lib net o pubkeyBytes w r w' :
  OperatorV2.Simulation o = true ->
  OperatorV2.checkNext o lib net pubkeyBytes w = (r, w') ->
  exists evs, trace w' = trace w ++ evs
              /\ Forall (fun e => ~ isProverEvent e) evs.
Proof.
  intros Hsim. unfold OperatorV2.checkNext. run.
  destruct (net_AttestValiditySeconds net); run; [intros E; mode_events|].
  destruct (net_AttestedProvers net _); run; [intros E; mode_events|].
  unfold Unix, Sleep. run.
  match goal with
  | |- context [if ?c then _ else _] => destruct c
  end; run; intros E;
    apply (registerAttestationReport_local _ _ _ _ _ _ _ Hsim) in E;
    destruct E as (evs & Ht & Hevs); cbn [trace] in Ht;
    rewrite <- ?app_assoc in Ht; eexists; (split; [exact Ht|]);
    repeat (apply Forall_app; split); try assumption;
    repeat constructor; intros [].
Qed.

(** The events of the handler around the retrieval reach neither the
    prover nor the chain client of the task fetcher. *)
Lemma OnNewLog_mode lib net o log w r w' :
  OperatorV2.OnNewLog o lib net log w = (r, w') ->
  exists evs, trace w' = trace w ++ evs
    /\ if OperatorV2.Simulation o
       then Forall (fun e => ~ isProverEvent e) evs
       else Forall (fun e => ~ isSourceEvent e) evs.
Proof.
  intros E.
  destruct (OnNewLog_run lib net o log w r w' E)
    as (evs & tail & Ht & _ & Hevs & Htail).
  exists (EvHeaderByNumber None :: evs ++ tail). split; [exact Ht|].
  assert (Forall (fun e => ~ isProverEvent e) tail
          /\ Forall (fun e => ~ isSourceEvent e) tail) as [Hp Hs].
  { destruct Htail as [->|(number & resp & p & mdBytes & _ & _ & _ & _
                           & [(err & _ & -> & _)|(digest & _ & -> & _)])];
      split; repeat constructor; intros []. }
  assert (if OperatorV2.Simulation o
          then Forall isSourceEvent evs
          else Forall (fun e => ~ isSourceEvent e) evs) as Hmode.
  { destruct Hevs as [->|Hevs].
    - destruct (OperatorV2.Simulation o); constructor.
    - destruct (OperatorV2.proverGetPoe o lib net (TxHash log) (Topics log)
                  (after (EvHeaderByNumber None) w)) as [rp wp] eqn:Ep.
      apply proverGetPoe_mode in Ep. destruct Ep as (evs' & Ht' & Hm).
      cbn [snd] in Hevs. unfold after in Ht'. cbn [trace] in Ht'.
      rewrite Hevs, <- app_assoc in Ht'. cbn [app] in Ht'.
      apply app_inv_head in Ht'. inversion Ht'; subst evs'. exact Hm. }
  destruct (OperatorV2.Simulation o).
  - constructor; [intros []|]. apply Forall_app. split; [|assumption].
    apply source_not_prover. assumption.
  - constructor; [intros []|]. apply Forall_app. split; assumption.
Qed.

(** X12. The two modes keep apart. An operator in simulation mode never
    calls the prover, neither when it handles a log nor in a renewal step
    (the proof is rebuilt from the chain, the report is made locally); an
    operator in live mode never queries the chain client of the task
    fetcher when it handles a log. *)
Theorem X12_modes_keep_apart lib net o :
  (OperatorV2.Simulation o = true ->
   (forall log w e,
       In e (since w (snd (OperatorV2.OnNewLog o lib net log w))) ->
       ~ isProverEvent e)
   /\ (forall pubkeyBytes w e,
          In e (since w (snd (OperatorV2.checkNext o lib net pubkeyBytes w))) ->
          ~ isProverEvent e))
  /\ (OperatorV2.Simulation o = false ->
      forall log w e,
        In e (since w (snd (OperatorV2.OnNewLog o lib net log w))) ->
        ~ isSourceEvent e).
Proof.
  split.
  - intros Hsim. split.
    + intros log w e.
      destruct (OperatorV2.OnNewLog o lib net log w) as [r w'] eqn:E.
      apply OnNewLog_mode in E. destruct E as (evs & Ht & Hm).
      rewrite Hsim in Hm. cbn [snd]. rewrite (since_app _ _ _ Ht).
      intros Hin. rewrite Forall_forall in Hm. exact (Hm e Hin).
    + intros pubkeyBytes w e.
      destruct (OperatorV2.checkNext o lib net pubkeyBytes w) as [r w'] eqn:E.
      apply (checkNext_local _ _ _ _ _ _ _ Hsim) in E.
      destruct E as (evs & Ht & Hm).
      cbn [snd]. rewrite (since_app _ _ _ Ht).
      intros Hin. rewrite Forall_forall in Hm. exact (Hm e Hin).
  - intros Hlive log w e.
    destruct (OperatorV2.OnNewLog o lib net log w) as [r w'] eqn:E.
    apply OnNewLog_mode in E. destruct E as (evs & Ht & Hm).
    rewrite Hlive in Hm. cbn [snd]. rewrite (since_app _ _ _ Ht).
    intros Hin. rewrite Forall_forall in Hm. exact (Hm e Hin).
Qed.

Lemma X12_modes_keep_apart_witness :
  let data := abi.commitBatch Sample.selector 0 []
                [x02 :: Sample.blockRecord 7 ++ Sample.blockRecord 8] [] in
  let net := Sample.with_calldata (inr data) Sample.net in
  let evs := since Sample.world
               (snd (OperatorV2.OnNewLog (Sample.operator true) Sample.lib net
                       (Sample.log 101 0) Sample.world)) in
  In (EvSourceHeaderByNumber 8) evs
  /\ forall e, In e evs -> ~ isProverEvent e.
Proof.
  cbv zeta. split.
  - vm_compute. do 3 right. left. reflexivity.
  - intros e.
    apply (proj1 (proj1 (X12_modes_keep_apart Sample.lib
                           (Sample.with_calldata
                              (inr (abi.commitBatch Sample.selector 0 []
                                      [x02 :: Sample.blockRecord 7
                                           ++ Sample.blockRecord 8] []))
                              Sample.net)
                           (Sample.operator true)) eq_refl)).
Defined.

(** ** The block range of a simulated batch *)

Lemma track_firstAndLast blocks :
  fold_left track blocks (0, 0) = firstAndLast blocks.
Proof.
  unfold firstAndLast.
  induction blocks as [|b rest IH]; [reflexivity|].
  cbn [dropZeros]. destruct (Z.eqb_spec b 0) as [->|Hb].
  - exact IH.
  - apply track_first_last. assumption.
Qed.

(** X13. The scan of the chunks of a batch, with its zero sentinel: over
    chunks that hold the records their count byte announces, the two
    loops of [proverGetPoe] leave in [startBlock] the first block number
    that is not 0 and in [endBlock] the last block number after that one;
    [endBlock] stays 0 when no block follows, and both stay 0 when every
    block number is 0 or the batch is empty. *)
Theorem X13_scan_keeps_first_nonzero_and_last chunks :
  Forall chunkReadable chunks ->
  OperatorV2.scanChunks chunks 0 0 = Returns (firstAndLast (committed chunks))
  /\ (committed chunks = [] -> OperatorV2.scanChunks chunks 0 0 = Returns (0, 0))
  /\ (forall first middle final,
         committed chunks = first :: middle ++ [final] -> first <> 0 ->
         OperatorV2.scanChunks chunks 0 0 = Returns (first, final))
  /\ (forall zeros first,
         committed chunks = repeat 0 zeros ++ [first] ->
         OperatorV2.scanChunks chunks 0 0 = Returns (first, 0)).
Proof.
  intros Hread.
  assert (OperatorV2.scanChunks chunks 0 0
          = Returns (firstAndLast (committed chunks))) as Hscan
    by (rewrite scanChunks_spec by assumption; f_equal;
        apply track_firstAndLast).
  split; [exact Hscan|]. rewrite Hscan. split; [|split].
  - intros ->. reflexivity.
  - intros first middle final -> Hfirst. unfold firstAndLast.
    cbn [dropZeros]. destruct (Z.eqb_spec first 0); [contradiction|].
    rewrite last_last. reflexivity.
  - intros zeros first ->. unfold firstAndLast. f_equal.
    induction zeros as [|k IH]; cbn [repeat app dropZeros].
    + destruct (Z.eqb_spec first 0) as [->|]; reflexivity.
    + exact IH.
Qed.

Lemma X13_scan_keeps_first_nonzero_and_last_witness :
  let chunks := [Bytes.mkSlice (x02 :: Sample.blockRecord 0 ++ Sample.blockRecord 7) [];
                 Bytes.mkSlice [x00] [];
                 Bytes.mkSlice (x02 :: Sample.blockRecord 8 ++ Sample.blockRecord 9) []] in
  committed chunks = [0; 7; 8; 9]
  /\ OperatorV2.scanChunks chunks 0 0 = Returns (7, 9).
Proof.
  cbv zeta. split; [vm_compute; reflexivity|].
  refine (proj1 (X13_scan_keeps_first_nonzero_and_last
                   [Bytes.mkSlice (x02 :: Sample.blockRecord 0
                                       ++ Sample.blockRecord 7) [];
                    Bytes.mkSlice [x00] [];
                    Bytes.mkSlice (x02 :: Sample.blockRecord 8
                                       ++ Sample.blockRecord 9) []] _)).
  repeat constructor.
  - exists x02, (Sample.blockRecord 0 ++ Sample.blockRecord 7).
    split; [reflexivity|]. right. vm_compute. discriminate.
  - exists x00, []. split; [reflexivity|]. left. reflexivity.
  - exists x02, (Sample.blockRecord 8 ++ Sample.blockRecord 9).
    split; [reflexivity|]. right. vm_compute. discriminate.
Defined.

Lemma slice_selector (data : list byte) :
  (4 <= length data)%nat ->
  Bytes.slice data 4 (Z.of_nat (length data)) = Some (skipn 4 data).
Proof.
  intros H. rewrite slice_from by lia. f_equal.
  apply firstn_all2. rewrite length_skipn. lia.
Qed.

(** X14. What simulation-mode retrieval answers: for call data of at
    least four bytes whose chunks decode and hold their records, it asks
    the chain for the transaction, then for the headers of the start and
    the end block of the scan, in that order, and returns, without skip and
    without error, the response with batch hash topic 2, previous root the
    root of the start block's header, new root the root of the end block's
    header, the two block numbers, and batch id 0. *)
Theorem X14_simulation_response lib net o txHash topics w cfg data chunks
    r1 r2 bh :
  OperatorV2.Simulation o = true ->
  OperatorV2.taskFetcher o = Some cfg ->
  net_tx net txHash = inr data ->
  (4 <= length data)%nat ->
  lib_Unpack lib (skipn 4 data) = inr chunks ->
  Forall chunkReadable chunks ->
  let startBlock := fst (firstAndLast (committed chunks)) in
  let endBlock := snd (firstAndLast (committed chunks)) in
  net_header_root net startBlock = inr r1 ->
  net_header_root net endBlock = inr r2 ->
  nth_error topics 2 = Some bh ->
  OperatorV2.proverGetPoe o lib net txHash topics w
  = (Returns (Some {| resp_Poe := Some {| BatchHash := bh;
                                          NewStateRoot := r2;
                                          PrevStateRoot := r1 |};
                      BatchId := 0;
                      StartBlock := Int.u64 startBlock;
                      EndBlock := Int.u64 endBlock |}, false, None),
     mkWorld (clock w) (offset_file w)
             (trace w ++ [EvSourceTransactionByHash txHash;
                          EvSourceHeaderByNumber startBlock;
                          EvSourceHeaderByNumber endBlock])).
Proof.
  intros Hsim Hcfg Htx Hlen Hun Hread. cbv zeta. intros Hr1 Hr2 Hbh.
  unfold OperatorV2.proverGetPoe. rewrite Hsim, Hcfg. run.
  rewrite Htx. run. rewrite slice_selector by assumption. run. rewrite Hun.
  rewrite scanChunks_spec by assumption. rewrite track_firstAndLast.
  destruct (firstAndLast (committed chunks)) as [s e]. cbn [fst snd] in *.
  run. rewrite Hr1. run. rewrite Hr2. run. rewrite Hbh. run.
  rewrite <- !app_assoc. reflexivity.
Qed.

Lemma X14_simulation_response_witness :
  let chunks := [x02 :: Sample.blockRecord 7 ++ Sample.blockRecord 8;
                 x01 :: Sample.blockRecord 9] in
  let data := abi.commitBatch Sample.selector 0 [] chunks [] in
  let net := Sample.with_calldata (inr data) Sample.net in
  OperatorV2.proverGetPoe (Sample.operator true) Sample.lib net 9101
    [11; 12; 13] Sample.world
  = (Returns (Some {| resp_Poe := Some {| BatchHash := 13;
                                          NewStateRoot := 1009;
                                          PrevStateRoot := 1007 |};
                      BatchId := 0; StartBlock := 7; EndBlock := 9 |},
              false, None),
     mkWorld 0 [] [EvSourceTransactionByHash 9101; EvSourceHeaderByNumber 7;
                   EvSourceHeaderByNumber 9]).
Proof.
  cbv zeta.
  pose (chunks := [Bytes.mkSlice (x02 :: Sample.blockRecord 7 ++ Sample.blockRecord 8)
                     (repeat x00 7 ++ abi.encBytes (x01 :: Sample.blockRecord 9)
                        ++ abi.encBytes []);
                   Bytes.mkSlice (x01 :: Sample.blockRecord 9)
                     (repeat x00 3 ++ abi.encBytes [])]).
  assert (lib_Unpack Sample.lib
            (skipn 4 (abi.commitBatch Sample.selector 0 []
                        [x02 :: Sample.blockRecord 7 ++ Sample.blockRecord 8;
                         x01 :: Sample.blockRecord 9] []))
          = inr chunks) as Hun by (vm_compute; reflexivity).
  refine (X14_simulation_response Sample.lib
            (Sample.with_calldata
               (inr (abi.commitBatch Sample.selector 0 []
                       [x02 :: Sample.blockRecord 7 ++ Sample.blockRecord 8;
                        x01 :: Sample.blockRecord 9] []))
               Sample.net)
            (Sample.operator true) 9101 [11; 12; 13] Sample.world
            Sample.tracer _ chunks 1007 1009 13
            eq_refl eq_refl eq_refl _ Hun _ _ _ eq_refl).
  - vm_compute. lia.
  - repeat constructor.
    + exists x02, (Sample.blockRecord 7 ++ Sample.blockRecord 8).
      split; [reflexivity|]. right. vm_compute. discriminate.
    + exists x01, (Sample.blockRecord 9).
      split; [reflexivity|]. right. vm_compute. discriminate.
  - vm_compute. reflexivity.
  - vm_compute. reflexivity.
Defined.

Lemma slice_reversed (s : list byte) lo hi :
  hi < lo -> Bytes.slice s lo hi = None.
Proof.
  intros H. unfold Bytes.slice.
  destruct (Z.leb_spec lo hi); [lia|].
  rewrite andb_false_r. reflexivity.
Qed.

(** X15. Call data shorter than the four-byte selector stops the
    simulation-mode retrieval: [tx.Data()[4:]] panics right after the
    transaction was fetched, before anything is decoded or any header is
    asked for, and the handler panics with it. *)
Theorem X15_short_call_data_panics lib net o txHash cfg data :
  OperatorV2.Simulation o = true ->
  OperatorV2.taskFetcher o = Some cfg ->
  net_tx net txHash = inr data ->
  (length data < 4)%nat ->
  (forall topics w,
      OperatorV2.proverGetPoe o lib net txHash topics w
      = (Panics SliceOutOfRange, after (EvSourceTransactionByHash txHash) w))
  /\ (forall log number w,
         TxHash log = txHash -> net_head net = inr number ->
         OperatorV2.OnNewLog o lib net log w
         = (Panics SliceOutOfRange,
            after (EvSourceTransactionByHash txHash)
              (after (EvHeaderByNumber None) w))).
Proof.
  intros Hsim Hcfg Htx Hlen.
  assert (forall topics w,
             OperatorV2.proverGetPoe o lib net txHash topics w
             = (Panics SliceOutOfRange,
                after (EvSourceTransactionByHash txHash) w)) as Hget.
  { intros topics w. unfold OperatorV2.proverGetPoe.
    rewrite Hsim, Hcfg. run. rewrite Htx. run.
    rewrite slice_reversed by lia. reflexivity. }
  split; [exact Hget|].
  intros log number w Hlog Hhead. unfold OperatorV2.OnNewLog. run.
  rewrite Hhead. run. rewrite Hlog, Hget. reflexivity.
Qed.

Lemma X15_short_call_data_panics_witness :
  net_tx Sample.net 9101 = inr []
  /\ OperatorV2.OnNewLog (Sample.operator true) Sample.lib Sample.net
       (Sample.log 101 0) Sample.world
     = (Panics SliceOutOfRange,
        mkWorld 0 [] [EvHeaderByNumber None; EvSourceTransactionByHash 9101]).
Proof.
  split; [reflexivity|].
  apply (proj2 (X15_short_call_data_panics Sample.lib Sample.net
                  (Sample.operator true) 9101 Sample.tracer []
                  eq_refl eq_refl eq_refl ltac:(simpl; lia))
           (Sample.log 101 0) 160 Sample.world eq_refl eq_refl).
Defined.

(** The scan panics on an access out of range, and on nothing else. *)
Lemma scanBlocks_panics chunk todo : forall i s e p,
  OperatorV2.scanBlocks chunk todo i s e = Panics p ->
  p = SliceOutOfRange.
Proof.
  induction todo as [|k IH]; intros i s e p; cbn [OperatorV2.scanBlocks];
    [discriminate|].
  destruct (Bytes.reslice chunk 1 _) as [records|]; [|congruence].
  destruct (Bytes.reslice records _ _) as [b|]; [|congruence].
  destruct (s =? 0); apply IH.
Qed.

Lemma scanChunks_panics chunks : forall s e p,
  OperatorV2.scanChunks chunks s e = Panics p ->
  p = SliceOutOfRange \/ p = IndexOutOfRange.
Proof.
  induction chunks as [|chunk rest IH]; intros s e p;
    cbn [OperatorV2.scanChunks]; [discriminate|].
  destruct (Bytes.index (Bytes.elems chunk) 0) as [count|];
    [|intros E; right; congruence].
  destruct (OperatorV2.scanBlocks chunk _ 0 s e) as [[s1 e1]|q] eqn:Eb.
  - apply IH.
  - intros E. left. apply scanBlocks_panics in Eb. congruence.
Qed.

(** What a simulation-mode retrieval that returns has in its hands. *)
Lemma simulation_answer lib net o txHash topics w resp skip err :
  OperatorV2.Simulation o = true ->
  fst (OperatorV2.proverGetPoe o lib net txHash topics w)
  = Returns (resp, skip, err) ->
  skip = false
  /\ ((err = None
       /\ exists r p, resp = Some r /\ resp_Poe r = Some p /\ BatchId r = 0
                      /\ nth_error topics 2 = Some (BatchHash p))
      \/ (resp = None /\ exists e, err = Some (Trace e))).
Proof.
  intros Hsim. unfold OperatorV2.proverGetPoe. rewrite Hsim. run.
  repeat (split_match; run); cbn [fst]; intros E; inversion E; subst;
    (split; [reflexivity|]);
    first [ right; split; [reflexivity|]; eexists; reflexivity
          | left; split; [reflexivity|]; eexists _, _;
            repeat split; try reflexivity; assumption ].
Qed.

(** X16. Simulation mode never skips and never answers without a proof:
    whenever the simulation-mode retrieval returns, the skip flag is false,
    and either there is no error and the response carries a proof whose
    batch hash is topic 2, with batch id 0, or there is an error and no
    response. So the handler of an operator with a task fetcher never
    dereferences nil in simulation mode. *)
Theorem X16_simulation_never_skips lib net o :
  OperatorV2.Simulation o = true ->
  (forall txHash topics w resp skip err,
      fst (OperatorV2.proverGetPoe o lib net txHash topics w)
      = Returns (resp, skip, err) ->
      skip = false
      /\ ((err = None
           /\ exists r p, resp = Some r /\ resp_Poe r = Some p /\ BatchId r = 0
                          /\ nth_error topics 2 = Some (BatchHash p))
          \/ (resp = None /\ exists e, err = Some (Trace e))))
  /\ (forall cfg log w,
         OperatorV2.taskFetcher o = Some cfg ->
         fst (OperatorV2.OnNewLog o lib net log w) <> Panics NilDereference).
Proof.
  intros Hsim. split.
  - intros txHash topics w resp skip err. apply simulation_answer. exact Hsim.
  - intros cfg log w Hcfg. unfold OperatorV2.OnNewLog. run.
    destruct (net_head net) as [e|number]; run; [discriminate|].
    match goal with
    | |- context [OperatorV2.proverGetPoe ?o ?l ?n ?t ?tp ?w0] =>
        pose proof (simulation_answer l n o t tp w0) as Hans;
        assert (fst (OperatorV2.proverGetPoe o l n t tp w0)
                <> Panics NilDereference) as Hnil;
        [| destruct (OperatorV2.proverGetPoe o l n t tp w0) as [rp wp] ]
    end.
    { unfold OperatorV2.proverGetPoe. rewrite Hsim, Hcfg. run.
      repeat (split_match; run); cbn [fst]; try discriminate.
      match goal with
      | H : OperatorV2.scanChunks _ _ _ = Panics _ |- _ =>
          apply scanChunks_panics in H; destruct H; subst; discriminate
      end. }
    cbn [fst] in *. destruct rp as [[[resp skip] err]|pn].
    + destruct (Hans resp skip err Hsim eq_refl)
        as [-> [(-> & r & p & -> & Hp & _)|(-> & e & ->)]]; run.
      * destruct (lib_Marshal lib _); run; [discriminate|].
        rewrite Hp. run.
        destruct (lib_Digest lib _); run; [discriminate|].
        destruct (net_SubmitTask net _); run; discriminate.
      * discriminate.
    + run. intros E. apply Hnil. inversion E. reflexivity.
Qed.

Lemma X16_simulation_never_skips_witness :
  let chunks := [x02 :: Sample.blockRecord 7 ++ Sample.blockRecord 8] in
  let data := abi.commitBatch Sample.selector 0 [] chunks [] in
  let net := Sample.with_calldata (inr data) Sample.net in
  exists r p,
    fst (OperatorV2.proverGetPoe (Sample.operator true) Sample.lib net 9101
           [11; 12; 13] Sample.world) = Returns (Some r, false, None)
    /\ resp_Poe r = Some p /\ BatchId r = 0 /\ BatchHash p = 13.
Proof.
  cbv zeta.
  assert (exists r,
             fst (OperatorV2.proverGetPoe (Sample.operator true) Sample.lib
                    (Sample.with_calldata
                       (inr (abi.commitBatch Sample.selector 0 []
                               [x02 :: Sample.blockRecord 7
                                    ++ Sample.blockRecord 8] []))
                       Sample.net)
                    9101 [11; 12; 13] Sample.world)
             = Returns (Some r, false, None)) as [r Hr]
    by (eexists; vm_compute; reflexivity).
  destruct (proj1 (X16_simulation_never_skips Sample.lib
                     (Sample.with_calldata
                        (inr (abi.commitBatch Sample.selector 0 []
                                [x02 :: Sample.blockRecord 7
                                     ++ Sample.blockRecord 8] []))
                        Sample.net)
                     (Sample.operator true) eq_refl)
              9101 [11; 12; 13] Sample.world (Some r) false None Hr)
    as [_ [(_ & r' & p & Hsome & Hp & Hid & Hbh)|(Hnone & _)]];
    [|discriminate].
  inversion Hsome; subst r'. exists r, p.
  repeat split; try assumption. inversion Hbh. reflexivity.
Defined.

(** ** Registering the attestation report *)

Ltac since_trace :=
  erewrite since_app by (cbn [trace]; rewrite <- ?app_assoc; reflexivity).

Ltac in_cases H :=
  simpl in H;
  repeat match type of H with
  | _ \/ _ => destruct H as [H|H]
  | False => destruct H
  | _ = _ => first [discriminate H | inversion H; subst; clear H]
  end.

(** X17. What [registerAttestationReport] sends is the report made for
    the given public key: the function never panics; it returns nil
    exactly when the report is obtained, the chain id is read, the
    transactor is built, the submission is accepted and its transaction is
    confirmed; the only liveness proof it ever submits is the report
    obtained for the public key (once at most), and the only transaction it
    waits for is the one of that submission. *)
Theorem X17_liveness_proof_is_the_generated_report lib net o pubkeyBytes w :
  let run := OperatorV2.registerAttestationReport o lib net pubkeyBytes w in
  (exists res, fst run = Returns res)
  /\ (fst run = Returns None <->
      exists report chainId tx,
        generated o lib net pubkeyBytes report
        /\ net_ChainID net = inr chainId
        /\ lib_NewKeyedTransactorWithChainID lib chainId = None
        /\ net_SubmitLivenessProof net report = inr tx
        /\ net_WaitTx net tx = None)
  /\ (length (livenessProofs (since w (snd run))) <= 1)%nat
  /\ (forall report, In (EvSubmitLivenessProof report) (since w (snd run)) ->
        generated o lib net pubkeyBytes report)
  /\ (forall tx, In (EvWaitTx tx) (since w (snd run)) ->
        exists report, generated o lib net pubkeyBytes report
                       /\ net_SubmitLivenessProof net report = inr tx).
Proof.
  cbv zeta.
  unfold OperatorV2.registerAttestationReport,
    OperatorV2.proverGetAttestationReport, generated.
  destruct (OperatorV2.Simulation o); run;
    (match goal with
     | |- context [lib_generateSimulationQuote ?l ?p] =>
         destruct (lib_generateSimulationQuote l p) as [e1|report] eqn:Hrep
     | |- context [net_GenerateAttestaionReport ?n ?p] =>
         destruct (net_GenerateAttestaionReport n p) as [e1|report] eqn:Hrep
     end; run;
     [| destruct (net_ChainID net) as [e2|chainId] eqn:Hc; run;
        [| destruct (lib_NewKeyedTransactorWithChainID lib chainId)
             as [e3|] eqn:Hk; run;
           [| destruct (net_SubmitLivenessProof net report)
                as [e4|tx] eqn:Hs; run;
              [| destruct (net_WaitTx net tx) as [e5|] eqn:Hw; run ]]]]);
    (split; [eexists; reflexivity|]);
    (split;
     [ split;
       [ first [ discriminate
               | intros _; exists report, chainId, tx;
                 repeat split; assumption ]
       | first [ reflexivity
               | intros (r0 & c0 & t0 & H1 & H2 & H3 & H4 & H5); congruence ] ]
     | ]);
    try since_trace; try (unfold since; cbn [trace]; rewrite skipn_all);
    (split; [simpl; lia|]);
    (split;
     [ intros rep Hin; in_cases Hin; reflexivity
     | intros t0 Hin; in_cases Hin;
       (eexists; split; [reflexivity | eassumption]) ]).
Qed.

Lemma X17_liveness_proof_is_the_generated_report_witness :
  let run := OperatorV2.registerAttestationReport (Sample.operator false)
               Sample.lib Sample.net Sample.pubkey Sample.world in
  fst run = Returns None
  /\ In (EvSubmitLivenessProof Sample.pubkey) (since Sample.world (snd run))
  /\ generated (Sample.operator false) Sample.lib Sample.net Sample.pubkey
       Sample.pubkey.
Proof.
  cbv zeta. split; [vm_compute; reflexivity|].
  assert (In (EvSubmitLivenessProof Sample.pubkey)
             (since Sample.world
                (snd (OperatorV2.registerAttestationReport
                        (Sample.operator false) Sample.lib Sample.net
                        Sample.pubkey Sample.world)))) as Hin
    by (vm_compute; do 2 right; left; reflexivity).
  split; [exact Hin|].
  exact (proj1 (proj2 (proj2 (proj2
           (X17_liveness_proof_is_the_generated_report Sample.lib Sample.net
              (Sample.operator false) Sample.pubkey Sample.world))))
           Sample.pubkey Hin).
Defined.

Lemma livenessProofs_app a b :
  livenessProofs (a ++ b) = livenessProofs a ++ livenessProofs b.
Proof.
  induction a as [|e a IH]; [reflexivity|].
  destruct e; simpl; rewrite ?IH; reflexivity.
Qed.

(** A registration returns; it submits at most one liveness proof, the
    report obtained for the public key, and does nothing but obtain the
    report, read the chain id, submit, wait and log. *)
Lemma registerAttestationReport_events lib net o pubkeyBytes w r w' :
  OperatorV2.registerAttestationReport o lib net pubkeyBytes w = (r, w') ->
  exists res evs,
    r = Returns res /\ trace w' = trace w ++ evs
    /\ Forall isRegisterEvent evs
    /\ (length (livenessProofs evs) <= 1)%nat
    /\ (forall report, In (EvSubmitLivenessProof report) evs ->
          generated o lib net pubkeyBytes report).
Proof.
  unfold OperatorV2.registerAttestationReport,
    OperatorV2.proverGetAttestationReport, generated.
  destruct (OperatorV2.Simulation o); run;
    (match goal with
     | |- context [lib_generateSimulationQuote ?l ?p] =>
         destruct (lib_generateSimulationQuote l p) as [e1|report] eqn:Hrep
     | |- context [net_GenerateAttestaionReport ?n ?p] =>
         destruct (net_GenerateAttestaionReport n p) as [e1|report] eqn:Hrep
     end; run;
     [| destruct (net_ChainID net) as [e2|chainId] eqn:Hc; run;
        [| destruct (lib_NewKeyedTransactorWithChainID lib chainId)
             as [e3|] eqn:Hk; run;
           [| destruct (net_SubmitLivenessProof net report)
                as [e4|tx] eqn:Hs; run;
              [| destruct (net_WaitTx net tx) as [e5|] eqn:Hw; run ]]]]);
    intros E; inversion E; subst r w'; clear E; cbn [trace];
    rewrite <- ?app_assoc; eexists _, _;
    (split; [reflexivity|]);
    (split; [first [reflexivity | symmetry; apply app_nil_r]|]);
    (split; [repeat constructor|]);
    (split; [simpl; lia|]);
    intros rep Hin; in_cases Hin; reflexivity.
Qed.

Lemma pubkey_halves (pk : list byte) :
  length pk = 64%nat ->
  Bytes.slice pk 0 32 = Some (firstn 32 pk)
  /\ Bytes.slice pk 32 64 = Some (skipn 32 pk).
Proof.
  intros Hlen. unfold Bytes.slice. rewrite Hlen.
  change (Z.of_nat 64) with 64. split.
  - reflexivity.
  - change ((0 <=? 32) && (32 <=? 64) && (64 <=? 64)) with true.
    cbv iota. change (Z.to_nat (64 - 32)) with 32%nat.
    change (Z.to_nat 32) with 32%nat.
    f_equal. apply firstn_all2. rewrite length_skipn. lia.
Qed.

Lemma pubkey_length_check (pk : list byte) :
  negb (Z.of_nat (length pk) =? 64) = negb (Nat.eqb (length pk) 64).
Proof.
  f_equal. destruct (Nat.eqb_spec (length pk) 64) as [->|H].
  - reflexivity.
  - apply Z.eqb_neq. lia.
Qed.

(** X18. Registration at start-up, second variant.
    [RegisterAttestationReport] never panics (the key is sliced only after
    its length was checked); a key that is not 64 bytes long is refused
    before any remote call; the verifier is asked about the two halves of
    the key; a liveness proof is submitted then only if the verifier
    answered "not registered", and it is the report obtained for the key;
    and the renewal goroutine is started exactly when the function returns
    nil. *)
Theorem X18_startup_registration lib net o w :
  let run := OperatorV2.RegisterAttestationReport o lib net w in
  let pk := OperatorV2.PubKey o in
  (exists res, fst run = Returns res)
  /\ (In EvGoRenewal (since w (snd run)) <-> fst run = Returns None)
  /\ (length pk <> 64%nat ->
      run = (Returns (Some (Errorf "invalid pubkey")),
             after (EvInfo "checking tee liveness...") w))
  /\ (forall x y, In (EvVerifyLivenessProof x y) (since w (snd run)) ->
        length pk = 64%nat /\ x = firstn 32 pk /\ y = skipn 32 pk)
  /\ (forall report, In (EvSubmitLivenessProof report) (since w (snd run)) ->
        net_VerifyLivenessProof net (firstn 32 pk) (skipn 32 pk) = inr false
        /\ generated o lib net pk report).
Proof.
  cbv zeta. unfold OperatorV2.RegisterAttestationReport. run.
  rewrite pubkey_length_check.
  destruct (Nat.eqb_spec (length (OperatorV2.PubKey o)) 64) as [Hlen|Hlen];
    cbn [negb]; run.
  2: { split; [eexists; reflexivity|].
       since_trace.
       split; [split; [intros Hin; in_cases Hin | discriminate]|].
       split; [reflexivity|].
       split; intros; match goal with H : In _ _ |- _ => in_cases H end. }
  destruct (pubkey_halves _ Hlen) as [Hx Hy]. rewrite Hx, Hy. run.
  set (x := firstn 32 (OperatorV2.PubKey o)).
  set (y := skipn 32 (OperatorV2.PubKey o)).
  destruct (net_VerifyLivenessProof net x y) as [e|[|]] eqn:Hv; run.
  - split; [eexists; reflexivity|]. since_trace.
    split; [split; [intros Hin; in_cases Hin | discriminate]|].
    split; [intros; contradiction|].
    split.
    + intros x0 y0 Hin. in_cases Hin. auto.
    + intros rep Hin. in_cases Hin.
  - split; [eexists; reflexivity|]. since_trace.
    split; [split; [reflexivity | intros _; simpl; auto 6]|].
    split; [intros; contradiction|].
    split.
    + intros x0 y0 Hin. in_cases Hin. auto.
    + intros rep Hin. in_cases Hin.
  - match goal with
    | |- context [OperatorV2.registerAttestationReport ?o ?l ?n ?p ?w0] =>
        destruct (OperatorV2.registerAttestationReport o l n p w0)
          as [r1 w1] eqn:E
    end.
    apply registerAttestationReport_events in E.
    destruct E as (res & evs & -> & Ht & Hevs & _ & Hgen). cbn [trace] in Ht.
    assert (forall e, In e evs -> isRegisterEvent e) as Hreg
      by (apply Forall_forall; assumption).
    destruct res as [e|]; run;
      (split; [eexists; reflexivity|]);
      erewrite since_app
        by (cbn [trace]; rewrite ?Ht, <- ?app_assoc; reflexivity).
    + split; [split; [|discriminate]|].
      { intros Hin. cbn [app] in Hin. destruct Hin as [Hin|[Hin|Hin]];
          try discriminate. apply Hreg in Hin. destruct Hin. }
      split; [intros; contradiction|].
      split.
      * intros x0 y0 Hin. cbn [app] in Hin.
        destruct Hin as [Hin|[Hin|Hin]]; try discriminate.
        -- inversion Hin; subst. auto.
        -- apply Hreg in Hin. destruct Hin.
      * intros rep Hin. cbn [app] in Hin.
        destruct Hin as [Hin|[Hin|Hin]]; try discriminate. auto.
    + split; [split; [reflexivity|]|].
      { intros _. cbn [app]. do 2 right. apply in_or_app. right. left.
        reflexivity. }
      split; [intros; contradiction|].
      split.
      * intros x0 y0 Hin. cbn [app] in Hin.
        destruct Hin as [Hin|[Hin|Hin]]; try discriminate.
        -- inversion Hin; subst. auto.
        -- apply in_app_or in Hin. destruct Hin as [Hin|Hin];
             [apply Hreg in Hin; destruct Hin | in_cases Hin].
      * intros rep Hin. cbn [app] in Hin.
        destruct Hin as [Hin|[Hin|Hin]]; try discriminate.
        apply in_app_or in Hin. destruct Hin as [Hin|Hin];
          [auto | in_cases Hin].
Qed.

Lemma X18_startup_registration_witness :
  let run := OperatorV2.RegisterAttestationReport (Sample.operator false)
               Sample.lib Sample.net Sample.world in
  fst run = Returns None /\ In EvGoRenewal (since Sample.world (snd run)).
Proof.
  cbv zeta.
  assert (fst (OperatorV2.RegisterAttestationReport (Sample.operator false)
                 Sample.lib Sample.net Sample.world) = Returns None) as Hnil
    by (vm_compute; reflexivity).
  split; [exact Hnil|].
  apply (proj1 (proj2 (X18_startup_registration Sample.lib Sample.net
                         (Sample.operator false) Sample.world))).
  exact Hnil.
Defined.

(** X19. Registration at start-up, first variant.
    [RegisterAttestationReport] never panics; a key that is not 64 bytes
    long is refused before any remote call; for a key the verifier knows
    it returns nil after that one query, without asking the prover and
    without a transaction; and whenever it sends a registration, the
    verifier had answered "not registered" and the report sent is the one
    the prover generated for the key. *)
Theorem X19_known_prover_is_not_registered_again lib net o w :
  let run := OperatorV1.RegisterAttestationReport o lib net w in
  let pk := OperatorV1.PubKey o in
  (exists res, fst run = Returns res)
  /\ (length pk <> 64%nat ->
      run = (Returns (Some (Errorf "invalid pubkey")), w))
  /\ (length pk = 64%nat ->
      net_IsProverRegistered net (firstn 32 pk) (skipn 32 pk) = inr true ->
      run = (Returns None,
             after (EvIsProverRegistered (firstn 32 pk) (skipn 32 pk)) w))
  /\ (forall report, In (EvRegister report) (since w (snd run)) ->
        net_IsProverRegistered net (firstn 32 pk) (skipn 32 pk) = inr false
        /\ net_GenerateAttestaionReport net pk = inr report).
Proof.
  cbv zeta. unfold OperatorV1.RegisterAttestationReport. run.
  rewrite pubkey_length_check.
  destruct (Nat.eqb_spec (length (OperatorV1.PubKey o)) 64) as [Hlen|Hlen];
    cbn [negb]; run.
  2: { split; [eexists; reflexivity|]. split; [reflexivity|].
       split; [intros; contradiction|].
       unfold since. rewrite skipn_all. intros report []. }
  destruct (pubkey_halves _ Hlen) as [Hx Hy]. rewrite Hx, Hy. run.
  set (x := firstn 32 (OperatorV1.PubKey o)).
  set (y := skipn 32 (OperatorV1.PubKey o)).
  destruct (net_IsProverRegistered net x y) as [e|[|]] eqn:Hv; run;
    [| |
     destruct (net_GenerateAttestaionReport net (OperatorV1.PubKey o))
       as [e1|report] eqn:Hrep; run;
     [| destruct (net_ChainID net) as [e2|chainId] eqn:Hc; run;
        [| destruct (lib_NewKeyedTransactorWithChainID lib chainId)
             as [e3|] eqn:Hk; run;
           [| destruct (net_Register net report) as [e4|tx] eqn:Hs; run;
              [| destruct (net_WaitTx net tx) as [e5|] eqn:Hw; run ]]]]];
    (split; [eexists; reflexivity|]);
    (split; [intros; contradiction|]);
    (split; [first [reflexivity | discriminate]|]);
    since_trace; intros rep Hin; in_cases Hin; split; reflexivity.
Qed.

Lemma X19_known_prover_is_not_registered_again_witness :
  OperatorV1.RegisterAttestationReport Sample.operator1 Sample.lib Sample.net
    Sample.world
  = (Returns None,
     after (EvIsProverRegistered (firstn 32 Sample.pubkey)
              (skipn 32 Sample.pubkey)) Sample.world).
Proof.
  apply (proj1 (proj2 (proj2
           (X19_known_prover_is_not_registered_again Sample.lib Sample.net
              Sample.operator1 Sample.world)))).
  - reflexivity.
  - reflexivity.
Defined.

(** ** Start-up of the second variant *)

(** A successful registration check stores the id the registry gives. *)
Lemma checkIsRegistered_id o net w o1 w1 :
  OperatorV2.checkIsRegistered o net w = (Returns (None, o1), w1) ->
  net_IsOperatorRegistered net = inr true
  /\ exists id, net_GetOperatorId net = (id, None) /\ o1 = withOperatorId o id.
Proof.
  unfold OperatorV2.checkIsRegistered. run.
  destruct (net_IsOperatorRegistered net) as [err|[|]]; run;
    [discriminate | | discriminate].
  destruct (net_GetOperatorId net) as [id [e|]]; intros E; inversion E; subst.
  split; [reflexivity|]. exists id. split; reflexivity.
Qed.

(** When [Start] reaches the event loop, the mode of the contract is the
    configured one, the operator is registered, and the operator the
    loop runs with holds the id read from the registry. *)
Lemma Start_started lib net o w r w' :
  OperatorV2.Start o lib net w = (r, w') ->
  In EvRun (since w w') ->
  net_Simulation net = inr (OperatorV2.Simulation o)
  /\ net_IsOperatorRegistered net = inr true
  /\ exists id,
       net_GetOperatorId net = (id, None)
       /\ r = Returns (option_map Trace (net_Run net), withOperatorId o id).
Proof.
  unfold OperatorV2.Start. run.
  destruct (net_Simulation net) as [err|isSimulation]; run.
  { intros E. inversion E; subst. since_trace. no_run. }
  destruct (Bool.eqb isSimulation (OperatorV2.Simulation o)) eqn:Hmode;
    cbn [negb]; run.
  2: { intros E. inversion E; subst. since_trace. no_run. }
  apply Bool.eqb_prop in Hmode. subst isSimulation.
  match goal with
  | |- context [OperatorV2.checkIsRegistered ?a ?b ?x] =>
      destruct (OperatorV2.checkIsRegistered a b x) as [rc w1] eqn:Ec
  end.
  pose proof Ec as Hc. apply checkIsRegistered_startup in Hc.
  destruct Hc as (evs1 & Ht1 & Hs1 & _).
  cbn [trace] in Ht1. rewrite <- !app_assoc in Ht1.
  destruct rc as [[[e|] o1]|p]; run.
  { intros E. inversion E; subst. erewrite since_app by exact Ht1. no_run. }
  2: { intros E. inversion E; subst. erewrite since_app by exact Ht1. no_run. }
  destruct (checkIsRegistered_id _ _ _ _ _ Ec) as (Hreg & id & Hid & ->).
  destruct (OperatorV2.RegisterAttestationReport (withOperatorId o id) lib net w1)
    as [rr w2] eqn:Er.
  apply RegisterAttestationReport_startup in Er.
  destruct Er as (evs2 & Ht2 & Hs2 & _).
  assert (trace w2 = trace w ++ ([EvInfo "starting operator..."] ++ [EvSimulation]
                                 ++ evs1) ++ evs2) as Ht12
    by (rewrite Ht2, Ht1, <- !app_assoc; reflexivity).
  destruct rr as [[e|]|p]; run.
  { intros E. inversion E; subst. erewrite since_app by exact Ht12. no_run. }
  2: { intros E. inversion E; subst. erewrite since_app by exact Ht12. no_run. }
  cbn [withOperatorId OperatorV2.taskFetcher].
  destruct (OperatorV2.taskFetcher o); run.
  2: { intros E. inversion E; subst. cbn [trace].
       erewrite since_app by (rewrite Ht12, <- !app_assoc; reflexivity).
       no_run. }
  destruct (net_Run net) as [e|]; intros E; inversion E; subst;
    intros _; (split; [reflexivity|]); (split; [exact Hreg|]);
    exists id; (split; [exact Hid | reflexivity]).
Qed.

(** X20. The operator id of a task is the one read at start-up: when
    [Start] reaches the event loop, the registry gave an operator id
    without error, the operator the loop runs with is the given one with
    that id stored, and every task its handler submits carries that id. *)
Theorem X20_tasks_carry_the_registered_id lib net o w r w' :
  OperatorV2.Start o lib net w = (r, w') ->
  In EvRun (since w w') ->
  exists id,
    net_GetOperatorId net = (id, None)
    /\ r = Returns (option_map Trace (net_Run net), withOperatorId o id)
    /\ forall log w1 req,
         In (EvSubmitTask req)
            (since w1 (snd (OperatorV2.OnNewLog (withOperatorId o id) lib net
                              log w1))) ->
         task_OperatorId req = id.
Proof.
  intros E Hrun.
  destruct (Start_started lib net o w r w' E Hrun) as (_ & _ & id & Hid & Hr).
  exists id. split; [exact Hid|]. split; [exact Hr|].
  intros log w1 req.
  destruct (OperatorV2.OnNewLog (withOperatorId o id) lib net log w1)
    as [r1 w2] eqn:E1.
  cbn [snd].
  destruct (OnNewLog_run lib net _ log w1 r1 w2 E1)
    as (evs & tail & Ht & Hevs & _ & Htail).
  rewrite (since_app _ _ _ Ht). intros Hin.
  destruct (retrieval_not_submitted evs Hevs) as [_ Hno].
  destruct Hin as [Hin|Hin]; [discriminate|].
  apply in_app_or in Hin. destruct Hin as [Hin|Hin]; [destruct (Hno _ Hin)|].
  destruct Htail as [->|(number & resp & p & mdBytes & _ & _ & _ & _
                         & [(err & _ & -> & _)|(digest & _ & -> & _)])];
    in_cases Hin.
  reflexivity.
Qed.

Lemma X20_tasks_carry_the_registered_id_witness :
  let run := OperatorV2.Start (Sample.operator false) Sample.lib Sample.net
               Sample.world in
  In EvRun (since Sample.world (snd run))
  /\ exists id,
       net_GetOperatorId Sample.net = (id, None)
       /\ fst run = Returns (option_map Trace (net_Run Sample.net),
                             withOperatorId (Sample.operator false) id).
Proof.
  cbv zeta.
  assert (In EvRun
            (since Sample.world
               (snd (OperatorV2.Start (Sample.operator false) Sample.lib
                       Sample.net Sample.world)))) as Hrun
    by (vm_compute; repeat (first [left; reflexivity | right])).
  split; [exact Hrun|].
  destruct (X20_tasks_carry_the_registered_id Sample.lib Sample.net
              (Sample.operator false) Sample.world _ _
              (surjective_pairing _) Hrun) as (id & Hid & Hr & _).
  exists id. split; [exact Hid | exact Hr].
Defined.

(** X21. The mode of the contract is checked first: when the verifier
    contract answers a simulation flag that differs from the configured
    one, [Start] returns the mismatch error after that single query,
    before any registry, prover or transaction call; and whenever [Start]
    reaches the event loop, the two flags were equal. *)
Theorem X21_mode_mismatch_stops_the_start lib net o w :
  (forall remote,
      net_Simulation net = inr remote -> remote <> OperatorV2.Simulation o ->
      OperatorV2.Start o lib net w
      = (Returns (Some (Errorf "simulation mode not match with the contract"), o),
         mkWorld (clock w) (offset_file w)
           (trace w ++ [EvInfo "starting operator..."; EvSimulation])))
  /\ (In EvRun (since w (snd (OperatorV2.Start o lib net w))) ->
      net_Simulation net = inr (OperatorV2.Simulation o)).
Proof.
  split.
  - intros remote Hsim Hne. unfold OperatorV2.Start. run.
    rewrite Hsim. run.
    destruct (Bool.eqb remote (OperatorV2.Simulation o)) eqn:Hmode.
    + apply Bool.eqb_prop in Hmode. contradiction.
    + cbn [negb]. run. rewrite <- !app_assoc. reflexivity.
  - intros Hrun.
    destruct (OperatorV2.Start o lib net w) as [r w'] eqn:E.
    exact (proj1 (Start_started lib net o w r w' E Hrun)).
Qed.

Lemma X21_mode_mismatch_stops_the_start_witness :
  OperatorV2.Start (Sample.operator true) Sample.lib Sample.net Sample.world
  = (Returns (Some (Errorf "simulation mode not match with the contract"),
              Sample.operator true),
     mkWorld 0 [] [EvInfo "starting operator..."; EvSimulation]).
Proof.
  apply (proj1 (X21_mode_mismatch_stops_the_start Sample.lib Sample.net
                  (Sample.operator true) Sample.world) false).
  - reflexivity.
  - discriminate.
Defined.

(** ** Start-up of the first variant *)

(** X22. The first variant begins with its two registrations: [Start]
    first registers with the delegation layer and returns at once when
    that fails; then registers with the registry coordinator, with a
    signature expiry one million seconds after the clock, and returns when
    that fails; the event loop is reached only after both calls
    succeeded. *)
Theorem X22_first_variant_registers_first lib net o w :
  let run := OperatorV1.Start o lib net w in
  let expiry := add64 (clock w / 10 ^ 9) 1000000 in
  (forall e, net_RegisterAsOperator net = Some e ->
      run = (Returns (Some (Trace e)),
             mkWorld (clock w) (offset_file w)
               (trace w ++ [EvRegisterAsOperator;
                            EvError (Errorf "Error registering operator with eigenlayer")])))
  /\ (forall e,
         net_RegisterAsOperator net = None ->
         net_RegisterOperatorInQuorum net = Some e ->
         run = (Returns (Some (Trace (Trace e))),
                mkWorld (clock w) (offset_file w)
                  (trace w ++ [EvRegisterAsOperator;
                               EvRegisterOperatorInQuorum expiry])))
  /\ (In EvRun (since w (snd run)) ->
      net_RegisterAsOperator net = None
      /\ net_RegisterOperatorInQuorum net = None
      /\ exists evs,
           since w (snd run)
           = EvRegisterAsOperator :: EvRegisterOperatorInQuorum expiry
             :: EvInfo "Registered operator with avs registry coordinator."
             :: evs)
  /\ (0 <= clock w -> clock w / 10 ^ 9 + 1000000 < 2 ^ 63 ->
      expiry = clock w / 10 ^ 9 + 1000000).
Proof.
  cbv zeta. split; [|split; [|split]].
  - intros e He. unfold OperatorV1.Start, OperatorV1.RegisterOperatorWithEigenlayer.
    run. rewrite He. run. rewrite <- !app_assoc. reflexivity.
  - intros e H1 H2.
    unfold OperatorV1.Start, OperatorV1.RegisterOperatorWithEigenlayer,
      OperatorV1.RegisterOperatorWithAvs, Unix.
    run. rewrite H1. run. rewrite H2. run. rewrite <- !app_assoc. reflexivity.
  - unfold OperatorV1.Start, OperatorV1.RegisterOperatorWithEigenlayer,
      OperatorV1.RegisterOperatorWithAvs, Unix. run.
    destruct (net_RegisterAsOperator net) as [e|]; run.
    { since_trace. no_run. }
    destruct (net_RegisterOperatorInQuorum net) as [e|]; run.
    { since_trace. no_run. }
    match goal with
    | |- context [OperatorV1.RegisterAttestationReport ?a ?b ?c ?x] =>
        destruct (OperatorV1.RegisterAttestationReport a b c x)
          as [rr w2] eqn:Er
    end.
    apply RegisterAttestationReport1_startup in Er.
    destruct Er as (res & evs1 & -> & Ht1 & Hs1).
    cbn [trace] in Ht1. rewrite <- !app_assoc in Ht1.
    destruct res as [e|]; run.
    { erewrite since_app by exact Ht1. no_run. }
    match goal with
    | |- context [OperatorV1.checkIsRegistered ?a ?b ?x] =>
        destruct (OperatorV1.checkIsRegistered a b x) as [rc w3] eqn:Ec
    end.
    apply checkIsRegistered1_startup in Ec.
    destruct Ec as (Ht3 & res & -> & _ & _). cbn [trace] in Ht3.
    assert (trace w3
            = trace w
                ++ EvRegisterAsOperator
                :: EvRegisterOperatorInQuorum (add64 (clock w / 10 ^ 9) 1000000)
                :: EvInfo "Registered operator with avs registry coordinator."
                :: evs1 ++ [EvInfo "Start Operator..."; EvIsOperatorRegistered])
      as Ht13 by (rewrite Ht3, Ht1, <- !app_assoc; reflexivity).
    destruct res as [e|]; run.
    { erewrite since_app by exact Ht13. no_run. }
    destruct (OperatorV1.taskFetcher o); run.
    2: { erewrite since_app by exact Ht13. no_run. }
    destruct (net_Run net) as [e|]; cbn [snd]; intros _;
      (split; [reflexivity|]); (split; [reflexivity|]);
      erewrite since_app
        by (cbn [trace]; rewrite Ht13, <- !app_assoc; reflexivity);
      eexists; reflexivity.
  - intros H0 Hfit. unfold add64. apply i64_small.
    assert (0 <= clock w / 10 ^ 9) by (apply Z.div_pos; lia). lia.
Qed.

Lemma X22_first_variant_registers_first_witness :
  let w := mkWorld (1700000000 * 10 ^ 9) [] [] in
  let run := OperatorV1.Start Sample.operator1 Sample.lib Sample.net w in
  In EvRun (since w (snd run))
  /\ exists evs,
       since w (snd run)
       = EvRegisterAsOperator :: EvRegisterOperatorInQuorum 1701000000
         :: EvInfo "Registered operator with avs registry coordinator."
         :: evs.
Proof.
  cbv zeta.
  assert (In EvRun
            (since (mkWorld (1700000000 * 10 ^ 9) [] [])
               (snd (OperatorV1.Start Sample.operator1 Sample.lib Sample.net
                       (mkWorld (1700000000 * 10 ^ 9) [] [])))))
    as Hrun by (vm_compute; repeat (first [left; reflexivity | right])).
  split; [exact Hrun|].
  exact (proj2 (proj2 (proj1 (proj2 (proj2
           (X22_first_variant_registers_first Sample.lib Sample.net
              Sample.operator1 (mkWorld (1700000000 * 10 ^ 9) [] []))))
           Hrun))).
Defined.

(** ** The handler of the first variant *)

Lemma u64_i64 x : Int.u64 (Int.i64 x) = x mod 2 ^ 64.
Proof.
  unfold Int.u64, Int.i64. rewrite Zminus_mod_idemp_l. f_equal. lia.
Qed.

Lemma be_value_acc s : forall acc,
  0 <= acc ->
  0 <= fold_left (fun a b => Z.lor (Z.shiftl a 8) (Bytes.to_Z b)) s acc.
Proof.
  induction s as [|b s IH]; intros acc Hacc; cbn [fold_left]; [assumption|].
  apply IH. apply Z.lor_nonneg. split.
  - apply Z.shiftl_nonneg. assumption.
  - pose proof (to_Z_range b). lia.
Qed.

Lemma be_value_nonneg s : 0 <= Bytes.be_value s.
Proof. apply be_value_acc. lia. Qed.

Lemma slice_prefix (s : list byte) (n : nat) :
  (n <= length s)%nat -> Bytes.slice s 0 (Z.of_nat n) = Some (firstn n s).
Proof.
  intros H. unfold Bytes.slice.
  replace ((0 <=? 0) && (0 <=? Z.of_nat n)
           && (Z.of_nat n <=? Z.of_nat (length s))) with true
    by (symmetry; rewrite !andb_true_iff, !Z.leb_le; lia).
  rewrite Z.sub_0_r, Nat2Z.id. reflexivity.
Qed.

Section First.

Variables (lib : Lib) (net : Net).

(** The run of the handler of the first variant on a log with 32 bytes of
    data or more: the proof of the block the data names is asked for, and
    then either nothing more happens, or the header is digested and the
    digest fails, or the header is digested, signed and submitted. *)
Lemma OnNewLog1_run o log w r w' :
  (32 <= length (Data log))%nat ->
  OperatorV1.OnNewLog o lib net log w = (r, w') ->
  exists tail,
    trace w' = trace w ++ EvGetPoeByBlock (taskBlock log) :: tail
    /\ (tail = []
        \/ exists p,
             net_GetPoeByBlock net (taskBlock log) = (Some p, None)
             /\ ((exists err,
                     lib_Digest lib (headerOf1 lib p) = inl err
                     /\ tail = [EvDigest (headerOf1 lib p)]
                     /\ r = Returns (Some (Trace err)))
                 \/ (exists digest,
                       let req := {| req_StateHeader := headerOf1 lib p;
                                     req_Signature := lib_SignMessage lib digest;
                                     req_Pubkey := OperatorV1.PubKey o;
                                     req_OperatorId := OperatorV1.operatorId o |} in
                       lib_Digest lib (headerOf1 lib p) = inr digest
                       /\ tail = [EvDigest (headerOf1 lib p);
                                  EvSignMessage digest;
                                  EvSubmitStateHeader req]
                       /\ r = Returns (option_map Trace
                                         (net_SubmitStateHeader net req))))).
Proof.
  intros Hlen. unfold OperatorV1.OnNewLog.
  pose proof (slice_prefix (Data log) 32 Hlen) as Hprefix.
  change (Z.of_nat 32) with 32 in Hprefix. run. rewrite Hprefix. run.
  cbv zeta. unfold Int64. rewrite !u64_i64. fold (taskBlock log).
  destruct (net_GetPoeByBlock net (taskBlock log)) as [poe [e|]] eqn:Hpoe; run.
  { intros E. inversion E; subst. exists []. cbn [trace]. auto. }
  destruct poe as [p|]; run.
  2: { intros E. inversion E; subst. exists []. cbn [trace]. auto. }
  fold (headerOf1 lib p).
  destruct (lib_Digest lib (headerOf1 lib p)) as [err|digest] eqn:Hd; run.
  - intros E. inversion E; subst. cbn [trace]. rewrite <- !app_assoc.
    eexists. split; [reflexivity|]. right. exists p. split; [reflexivity|].
    left. exists err. repeat split; try reflexivity; assumption.
  - set (req := {| req_StateHeader := headerOf1 lib p;
                   req_Signature := lib_SignMessage lib digest;
                   req_Pubkey := OperatorV1.PubKey o;
                   req_OperatorId := OperatorV1.operatorId o |}).
    destruct (net_SubmitStateHeader net req) as [err|] eqn:Hs; run;
      intros E; inversion E; subst r w'; clear E; cbn [trace];
      rewrite <- !app_assoc; eexists; (split; [reflexivity|]);
      right; exists p; (split; [reflexivity|]);
      right; exists digest; cbv zeta; fold req; rewrite Hs;
      repeat split; try reflexivity; assumption.
Qed.

End First.

(** X23. The block the first variant asks the prover about is read from
    the data of the log: for a log with 32 bytes of data or more, the
    first call of [OnNewLog] is the proof request for the number its first
    32 bytes spell (big-endian), reduced to 64 bits; a number below 2^64 is
    asked for as it is, and bytes after the 32nd are not looked at. *)
Theorem X23_first_variant_reads_the_block_from_the_data lib net o log w :
  (32 <= length (Data log))%nat ->
  (exists tail,
      since w (snd (OperatorV1.OnNewLog o lib net log w))
      = EvGetPoeByBlock (taskBlock log) :: tail)
  /\ (Bytes.be_value (firstn 32 (Data log)) < 2 ^ 64 ->
      taskBlock log = Bytes.be_value (firstn 32 (Data log)))
  /\ (forall more,
         taskBlock (mkLog (log_Address log) (Topics log) (Data log ++ more)
                      (BlockNumber log) (TxHash log) (Index log))
         = taskBlock log).
Proof.
  intros Hlen. split; [|split].
  - destruct (OperatorV1.OnNewLog o lib net log w) as [r w'] eqn:E.
    destruct (OnNewLog1_run lib net o log w r w' Hlen E) as (tail & Ht & _).
    exists tail. cbn [snd]. apply since_app. exact Ht.
  - intros Hsmall. unfold taskBlock. apply Z.mod_small.
    split; [apply be_value_nonneg | assumption].
  - intros more. unfold taskBlock. cbn [Data].
    rewrite firstn_app.
    replace (32 - length (Data log))%nat with O by lia.
    rewrite firstn_O, app_nil_r. reflexivity.
Qed.

Lemma X23_first_variant_reads_the_block_from_the_data_witness :
  exists tail,
    since Sample.world
      (snd (OperatorV1.OnNewLog Sample.operator1 Sample.lib Sample.net
              (Sample.log 101 0) Sample.world))
    = EvGetPoeByBlock 7 :: tail.
Proof.
  apply (proj1 (X23_first_variant_reads_the_block_from_the_data Sample.lib
                  Sample.net Sample.operator1 (Sample.log 101 0) Sample.world
                  ltac:(vm_compute; lia))).
Defined.

(** X24. What the first variant submits is the header it signed: every
    request [OnNewLog] submits carries the header built from the proof of
    the block the log names (identifier 1, no metadata, the packed proof,
    quorum 0, threshold byte 0, reference block 0), the signature of the
    digest of that very header, the public key and the operator id; it is
    the last event of the call, whose result is the result of the
    submission. *)
Theorem X24_first_variant_submits_the_signed_header lib net o log w req :
  In (EvSubmitStateHeader req)
     (since w (snd (OperatorV1.OnNewLog o lib net log w))) ->
  exists p digest,
    (32 <= length (Data log))%nat
    /\ net_GetPoeByBlock net (taskBlock log) = (Some p, None)
    /\ req_StateHeader req = headerOf1 lib p
    /\ lib_Digest lib (req_StateHeader req) = inr digest
    /\ req_Signature req = lib_SignMessage lib digest
    /\ req_Pubkey req = OperatorV1.PubKey o
    /\ req_OperatorId req = OperatorV1.operatorId o
    /\ since w (snd (OperatorV1.OnNewLog o lib net log w))
       = [EvGetPoeByBlock (taskBlock log); EvDigest (headerOf1 lib p);
          EvSignMessage digest; EvSubmitStateHeader req]
    /\ fst (OperatorV1.OnNewLog o lib net log w)
       = Returns (option_map Trace (net_SubmitStateHeader net req)).
Proof.
  destruct (Nat.le_gt_cases 32 (length (Data log))) as [Hlen|Hshort].
  2: { rewrite OnNewLog1_short_data by lia. cbn [snd].
       unfold since. rewrite skipn_all. intros []. }
  destruct (OperatorV1.OnNewLog o lib net log w) as [r w'] eqn:E.
  cbn [fst snd].
  destruct (OnNewLog1_run lib net o log w r w' Hlen E) as (tail & Ht & Htail).
  rewrite (since_app _ _ _ Ht). intros Hin.
  destruct Htail as [->|(p & Hpoe & [(err & _ & -> & _)|(digest & Hd & -> & Hr)])];
    in_cases Hin.
  exists p, digest. cbn [req_StateHeader req_Signature req_Pubkey req_OperatorId].
  repeat split; try assumption; reflexivity.
Qed.

Lemma X24_first_variant_submits_the_signed_header_witness :
  let req := {| req_StateHeader := headerOf1 Sample.lib Sample.poe;
                req_Signature := 1;
                req_Pubkey := Sample.pubkey;
                req_OperatorId := 77 |} in
  since Sample.world
    (snd (OperatorV1.OnNewLog Sample.operator1 Sample.lib Sample.net
            (Sample.log 101 0) Sample.world))
  = [EvGetPoeByBlock 7; EvDigest (headerOf1 Sample.lib Sample.poe);
     EvSignMessage 0; EvSubmitStateHeader req]
  /\ exists digest,
       lib_Digest Sample.lib (req_StateHeader req) = inr digest
       /\ req_Signature req = lib_SignMessage Sample.lib digest.
Proof.
  cbv zeta. split; [vm_compute; reflexivity|].
  destruct (X24_first_variant_submits_the_signed_header Sample.lib Sample.net
              Sample.operator1 (Sample.log 101 0) Sample.world
              {| req_StateHeader := headerOf1 Sample.lib Sample.poe;
                 req_Signature := 1;
                 req_Pubkey := Sample.pubkey;
                 req_OperatorId := 77 |})
    as (p & digest & _ & _ & _ & Hd & Hs & _).
  - vm_compute. do 3 right. left. reflexivity.
  - exists digest. split; assumption.
Defined.

(** ** Renewal rounds *)

(** A renewal step submits at most one liveness proof, the report
    obtained for the public key. *)
Lemma checkNext_events lib net o pubkeyBytes w r w' :
  OperatorV2.checkNext o lib net pubkeyBytes w = (r, w') ->
  exists res evs,
    r = Returns res /\ trace w' = trace w ++ evs
    /\ (length (livenessProofs evs) <= 1)%nat
    /\ (forall report, In (EvSubmitLivenessProof report) evs ->
          generated o lib net pubkeyBytes report).
Proof.
  unfold OperatorV2.checkNext. run.
  destruct (net_AttestValiditySeconds net); run.
  { intros E. inversion E; subst. cbn [trace]. eexists _, _.
    split; [reflexivity|]. split; [reflexivity|].
    split; [simpl; lia | intros rep Hin; in_cases Hin]. }
  destruct (net_AttestedProvers net _); run.
  { intros E. inversion E; subst. cbn [trace]. rewrite <- !app_assoc.
    eexists _, _.
    split; [reflexivity|]. split; [reflexivity|].
    split; [simpl; lia | intros rep Hin; in_cases Hin]. }
  unfold Unix, Sleep. run.
  match goal with
  | |- context [if ?c then _ else _] => destruct c
  end; run; intros E; apply registerAttestationReport_events in E;
    destruct E as (res & evs & -> & Ht & _ & Hone & Hgen); cbn [trace] in Ht;
    rewrite <- ?app_assoc in Ht; eexists _, _;
    (split; [reflexivity|]); (split; [exact Ht|]);
    (split; [rewrite ?livenessProofs_app; simpl; exact Hone|]);
    intros rep Hin;
    repeat (apply in_app_or in Hin; destruct Hin as [Hin|Hin]);
    try (in_cases Hin; fail); auto.
Qed.

(** X25. The renewal loop submits at most one liveness proof per round:
    over any number of rounds the liveness proofs submitted are no more
    than the rounds begun, and each of them is the report obtained for the
    public key in the surroundings of one of these rounds. *)
Theorem X25_one_liveness_proof_per_round o lib nets pubkeyBytes :
  forall rounds i w,
    let evs := since w (snd (OperatorV2.renewalLoop o lib nets pubkeyBytes
                               i rounds w)) in
    (length (livenessProofs evs) <= rounds)%nat
    /\ forall report, In (EvSubmitLivenessProof report) evs ->
         exists j, (i <= j < i + rounds)%nat
                   /\ generated o lib (nets j) pubkeyBytes report.
Proof.
  cbv zeta. induction rounds as [|k IH]; intros i w.
  - cbn [OperatorV2.renewalLoop]. unfold ret, since. cbn [snd].
    rewrite skipn_all. split; [simpl; lia | intros report []].
  - cbn [OperatorV2.renewalLoop]. unfold OperatorV2.renewalRound. run.
    destruct (OperatorV2.checkNext o lib (nets i) pubkeyBytes w)
      as [r w1] eqn:E.
    apply checkNext_events in E.
    destruct E as (res & evs & -> & Ht & Hone & Hgen).
    assert (forall w2 extra,
               trace w2 = trace w1 ++ extra -> livenessProofs extra = [] ->
               (forall report, ~ In (EvSubmitLivenessProof report) extra) ->
               let evs2 := since w (snd (OperatorV2.renewalLoop o lib nets
                                           pubkeyBytes (S i) k w2)) in
               (length (livenessProofs evs2) <= S k)%nat
               /\ forall report, In (EvSubmitLivenessProof report) evs2 ->
                    exists j, (i <= j < i + S k)%nat
                              /\ generated o lib (nets j) pubkeyBytes report)
      as Hrest.
    { intros w2 extra Hw2 Hnone Hnotin. cbv zeta.
      destruct (IH (S i) w2) as [Hlen Hin2].
      destruct (renewalLoop_frame o lib pubkeyBytes nets k (S i) w2)
        as (w3 & evs3 & E3 & Ht3 & _).
      rewrite E3 in *. cbn [snd] in *.
      rewrite (since_app _ _ _ Ht3) in Hlen, Hin2.
      assert (trace w3 = trace w ++ evs ++ extra ++ evs3) as Hall
        by (rewrite Ht3, Hw2, Ht, <- !app_assoc; reflexivity).
      rewrite (since_app _ _ _ Hall). split.
      - rewrite !livenessProofs_app, !length_app, Hnone. simpl. lia.
      - intros report Hin.
        apply in_app_or in Hin. destruct Hin as [Hin|Hin].
        + exists i. split; [lia | auto].
        + apply in_app_or in Hin. destruct Hin as [Hin|Hin];
            [destruct (Hnotin _ Hin)|].
          destruct (Hin2 report Hin) as (j & Hj & Hg).
          exists j. split; [lia | exact Hg]. }
    destruct res as [e|]; run.
    + apply (Hrest _ [EvError e]); [reflexivity | reflexivity |].
      intros report [Hin|[]]. discriminate.
    + apply (Hrest _ []); [symmetry; apply app_nil_r | reflexivity |].
      intros report [].
Qed.

Lemma X25_one_liveness_proof_per_round_witness :
  let w := mkWorld (1700000800 * 10 ^ 9) [] [] in
  let evs := since w (snd (OperatorV2.renewalLoop (Sample.operator true)
                             Sample.lib (fun _ => Sample.net) Sample.pubkey
                             0 2 w)) in
  livenessProofs evs = [Sample.pubkey; Sample.pubkey]
  /\ (length (livenessProofs evs) <= 2)%nat.
Proof.
  cbv zeta. split; [vm_compute; reflexivity|].
  exact (proj1 (X25_one_liveness_proof_per_round (Sample.operator true)
                  Sample.lib (fun _ => Sample.net) Sample.pubkey 2 0
                  (mkWorld (1700000800 * 10 ^ 9) [] []))).
Defined.

(** ** What a nil result of the handler means *)

(** X26. A nil result of the second variant is never a swallowed failure:
    when [OnNewLog] returns nil, the head was read, and either the prover
    asked to skip the log (without error) and nothing was submitted, or
    exactly one task was submitted and the aggregator accepted it. *)
Theorem X26_nil_means_skipped_or_accepted lib net o log w w' :
  OperatorV2.OnNewLog o lib net log w = (Returns None, w') ->
  (exists number, net_head net = inr number)
  /\ ((exists poe,
          fst (OperatorV2.proverGetPoe o lib net (TxHash log) (Topics log)
                 (after (EvHeaderByNumber None) w))
          = Returns (poe, true, None)
          /\ submitted (since w w') = [])
      \/ (exists req,
            submitted (since w w') = [req]
            /\ net_SubmitTask net req = None)).
Proof.
  unfold OperatorV2.OnNewLog. run.
  destruct (net_head net) as [err|number] eqn:Hhead; run; [discriminate|].
  match goal with
  | |- context [OperatorV2.proverGetPoe ?o ?l ?n ?t ?tp ?w0] =>
      destruct (OperatorV2.proverGetPoe o l n t tp w0) as [rp wp] eqn:Ep
  end.
  pose proof Ep as Hframe. apply proverGetPoe_frame in Hframe.
  destruct Hframe as (_ & _ & evs & Ht & Hevs). cbn [trace] in Ht.
  rewrite <- app_assoc in Ht.
  destruct (retrieval_not_submitted evs Hevs) as [Hnone _].
  destruct rp as [[[poe skip] err]|pn]; run; [|discriminate].
  destruct err as [e|]; run; [discriminate|].
  destruct skip; run.
  { intros E. inversion E; subst w'. split; [eauto|]. left. exists poe.
    split; [reflexivity|]. rewrite (since_app _ _ _ Ht).
    rewrite submitted_app, Hnone. reflexivity. }
  destruct poe as [resp|]; run; [|discriminate].
  destruct (lib_Marshal lib _) as [err|mdBytes]; run; [discriminate|].
  destruct (resp_Poe resp) as [p|]; run; [|discriminate].
  destruct (lib_Digest lib _) as [err|digest]; run; [discriminate|].
  match goal with
  | |- context [net_SubmitTask net ?q] =>
      destruct (net_SubmitTask net q) as [err|] eqn:Hs; run; [discriminate|];
      intros E; inversion E; subst w'; clear E;
      split; [eauto|]; right; exists q; split; [|exact Hs]
  end.
  erewrite since_app
    by (cbn [trace]; rewrite Ht, <- !app_assoc; reflexivity).
  rewrite !submitted_app, Hnone. reflexivity.
Qed.

Lemma X26_nil_means_skipped_or_accepted_witness :
  let net := Sample.with_GetPoe (None, true, None) Sample.net in
  let run := OperatorV2.OnNewLog (Sample.operator false) Sample.lib net
               (Sample.log 101 0) Sample.world in
  fst run = Returns None
  /\ exists number, net_head net = inr number.
Proof.
  cbv zeta. split; [reflexivity|].
  exact (proj1 (X26_nil_means_skipped_or_accepted Sample.lib
                  (Sample.with_GetPoe (None, true, None) Sample.net)
                  (Sample.operator false) (Sample.log 101 0) Sample.world _
                  eq_refl)).
Defined.

(** ** When the handler returns *)

(** With a task fetcher, simulation-mode retrieval dereferences no nil
    pointer. *)
Lemma simulation_no_nil lib net o cfg txHash topics w :
  OperatorV2.Simulation o = true ->
  OperatorV2.taskFetcher o = Some cfg ->
  fst (OperatorV2.proverGetPoe o lib net txHash topics w)
  <> Panics NilDereference.
Proof.
  intros Hsim Hcfg. unfold OperatorV2.proverGetPoe. rewrite Hsim, Hcfg. run.
  repeat (split_match; run); cbn [fst]; try discriminate.
  match goal with
  | H : OperatorV2.scanChunks _ _ _ = Panics _ |- _ =>
      apply scanChunks_panics in H; destruct H; subst; discriminate
  end.
Qed.

(** Once the retrieval has returned a proof, or an error, or a skip, the
    rest of the handler returns. *)
Lemma OnNewLog_returns lib net o log w :
  (forall w0 resp,
      fst (OperatorV2.proverGetPoe o lib net (TxHash log) (Topics log) w0)
      = Returns (resp, false, None) ->
      exists r p, resp = Some r /\ resp_Poe r = Some p) ->
  (forall w0 p,
      fst (OperatorV2.proverGetPoe o lib net (TxHash log) (Topics log) w0)
      <> Panics p) ->
  exists res, fst (OperatorV2.OnNewLog o lib net log w) = Returns res.
Proof.
  intros Hproof Hreturns. unfold OperatorV2.OnNewLog. run.
  destruct (net_head net) as [e|number]; run; [eexists; reflexivity|].
  match goal with
  | |- context [OperatorV2.proverGetPoe ?o ?l ?n ?t ?tp ?w0] =>
      specialize (Hproof w0); specialize (Hreturns w0);
      destruct (OperatorV2.proverGetPoe o l n t tp w0) as [rp wp]
  end.
  cbn [fst] in *. destruct rp as [[[resp skip] err]|pn].
  2: { destruct (Hreturns pn eq_refl). }
  destruct err as [e|]; run; [eexists; reflexivity|].
  destruct skip; run; [eexists; reflexivity|].
  destruct (Hproof resp eq_refl) as (r & p & -> & Hp). run.
  destruct (lib_Marshal lib _); run; [eexists; reflexivity|].
  rewrite Hp. run.
  destruct (lib_Digest lib _); run; [eexists; reflexivity|].
  destruct (net_SubmitTask net _); run; eexists; reflexivity.
Qed.

(** X27. The second variant's handler returns (it does not panic) on
    every log with three topics or more, in live mode when the prover
    keeps its word (an answer without error and without skip carries a
    response with a proof), and in simulation mode when the operator has
    its task fetcher, the call data of the transaction has its four-byte
    selector, and the chunks it decodes to hold the block records their
    count byte announces. *)
Theorem X27_handler_returns lib net o log w :
  (3 <= length (Topics log))%nat ->
  (OperatorV2.Simulation o = false ->
   forall poe, net_GetPoe net (TxHash log) = (poe, false, None) ->
               exists r p, poe = Some r /\ resp_Poe r = Some p) ->
  (OperatorV2.Simulation o = true ->
   OperatorV2.taskFetcher o <> None
   /\ forall data,
        net_tx net (TxHash log) = inr data ->
        (4 <= length data)%nat
        /\ forall chunks, lib_Unpack lib (skipn 4 data) = inr chunks ->
                          Forall chunkReadable chunks) ->
  exists res, fst (OperatorV2.OnNewLog o lib net log w) = Returns res.
Proof.
  intros Htopics Hlive Hsimulation.
  destruct (nth_error (Topics log) 2) as [bh|] eqn:Hbh;
    [|apply nth_error_None in Hbh; lia].
  apply OnNewLog_returns.
  - intros w0 resp.
    destruct (OperatorV2.Simulation o) eqn:Hsim.
    + intros Hr. apply simulation_answer in Hr; [|exact Hsim].
      destruct Hr as [_ [(_ & r & p & -> & Hp & _)|(_ & e & He)]];
        [eauto | discriminate].
    + specialize (Hlive eq_refl). unfold OperatorV2.proverGetPoe.
      rewrite Hsim, Hbh. run.
      destruct (net_GetPoe net (TxHash log)) as [[poe skip] [e|]];
        cbn [fst]; intros E; inversion E; subst.
      apply Hlive. reflexivity.
  - intros w0 p.
    destruct (OperatorV2.Simulation o) eqn:Hsim.
    + destruct (Hsimulation eq_refl) as [Hcfg Hdata].
      destruct (OperatorV2.taskFetcher o) as [cfg|] eqn:Hfetcher;
        [|congruence].
      pose proof (simulation_no_nil lib net o cfg (TxHash log) (Topics log)
                    w0 Hsim Hfetcher) as Hnil.
      pose proof (simulation_in_range lib net o Hsim (TxHash log)
                    (Topics log) w0 Htopics) as Hrange.
      intros Hp. destruct p.
      * apply Hrange; [| |left; exact Hp].
        -- intros data Hd. apply (Hdata data Hd).
        -- intros data input chunks Hd Hslice Hun.
           destruct (Hdata data Hd) as [Hlen Hchunks].
           rewrite slice_selector in Hslice by assumption.
           inversion Hslice; subst input. exact (Hchunks chunks Hun).
      * apply Hrange; [| |right; exact Hp].
        -- intros data Hd. apply (Hdata data Hd).
        -- intros data input chunks Hd Hslice Hun.
           destruct (Hdata data Hd) as [Hlen Hchunks].
           rewrite slice_selector in Hslice by assumption.
           inversion Hslice; subst input. exact (Hchunks chunks Hun).
      * exact (Hnil Hp).
    + unfold OperatorV2.proverGetPoe. rewrite Hsim, Hbh. run.
      destruct (net_GetPoe net (TxHash log)) as [[poe skip] [e|]];
        cbn [fst]; discriminate.
Qed.

Lemma X27_handler_returns_witness :
  exists res,
    fst (OperatorV2.OnNewLog (Sample.operator false) Sample.lib Sample.net
           (Sample.log 101 0) Sample.world) = Returns res.
Proof.
  apply (X27_handler_returns Sample.lib Sample.net (Sample.operator false)
           (Sample.log 101 0) Sample.world).
  - simpl. lia.
  - intros _ poe Hpoe. inversion Hpoe; subst poe.
    exists Sample.response, Sample.poe. split; reflexivity.
  - discriminate.
Defined.

(** ** What a nil result of [Start] means *)

Lemma run_is_last w w0 w' evs before :
  trace w0 = trace w ++ evs ->
  trace w' = trace w0 ++ before ++ [EvRun] ->
  In EvRun (since w w').
Proof.
  intros H0 H'.
  rewrite (since_app w w' (evs ++ before ++ [EvRun])).
  - apply in_or_app. right. apply in_or_app. right. left. reflexivity.
  - rewrite H', H0, <- !app_assoc. reflexivity.
Qed.

(** X28. [Start] returns nil only when the event loop has run and come
    back without error, in both variants: a failure of the mode check, of
    the registration check or of the attestation registration is never
    turned into a nil result. *)
Theorem X28_start_returns_nil_only_after_the_loop lib net :
  (forall o w o' w',
      OperatorV2.Start o lib net w = (Returns (None, o'), w') ->
      In EvRun (since w w') /\ net_Run net = None)
  /\ (forall o w w',
         OperatorV1.Start o lib net w = (Returns None, w') ->
         In EvRun (since w w') /\ net_Run net = None).
Proof.
  split.
  - intros o w o' w'. unfold OperatorV2.Start. run.
    destruct (net_Simulation net) as [err|isSimulation]; run; [discriminate|].
    destruct (negb _); run; [discriminate|].
    match goal with
    | |- context [OperatorV2.checkIsRegistered ?a ?b ?x] =>
        destruct (OperatorV2.checkIsRegistered a b x) as [rc w1] eqn:Ec
    end.
    apply checkIsRegistered_startup in Ec.
    destruct Ec as (evs1 & Ht1 & _). cbn [trace] in Ht1.
    rewrite <- !app_assoc in Ht1.
    destruct rc as [[[e|] o1]|p]; run; [discriminate| |discriminate].
    destruct (OperatorV2.RegisterAttestationReport o1 lib net w1)
      as [rr w2] eqn:Er.
    apply RegisterAttestationReport_startup in Er.
    destruct Er as (evs2 & Ht2 & _).
    destruct rr as [[e|]|p]; run; [discriminate| |discriminate].
    destruct (OperatorV2.taskFetcher o1); run; [|discriminate].
    destruct (net_Run net) as [e|]; intros E; inversion E; subst;
      clear E. split; [|reflexivity].
    apply (run_is_last w w2 _
             ([EvInfo "starting operator..."] ++ [EvSimulation] ++ evs1 ++ evs2)
             [EvMetricsStart; EvGoMetrics; EvInfo "Started Operator..."]).
    + rewrite Ht2, Ht1, <- !app_assoc. reflexivity.
    + cbn [trace]. rewrite <- !app_assoc. reflexivity.
  - intros o w w'.
    unfold OperatorV1.Start, OperatorV1.RegisterOperatorWithEigenlayer,
      OperatorV1.RegisterOperatorWithAvs, Unix. run.
    destruct (net_RegisterAsOperator net) as [e|]; run; [discriminate|].
    destruct (net_RegisterOperatorInQuorum net) as [e|]; run; [discriminate|].
    match goal with
    | |- context [OperatorV1.RegisterAttestationReport ?a ?b ?c ?x] =>
        destruct (OperatorV1.RegisterAttestationReport a b c x)
          as [rr w2] eqn:Er
    end.
    apply RegisterAttestationReport1_startup in Er.
    destruct Er as (res & evs1 & -> & Ht1 & _).
    cbn [trace] in Ht1. rewrite <- !app_assoc in Ht1.
    destruct res as [e|]; run; [discriminate|].
    match goal with
    | |- context [OperatorV1.checkIsRegistered ?a ?b ?x] =>
        destruct (OperatorV1.checkIsRegistered a b x) as [rc w3] eqn:Ec
    end.
    apply checkIsRegistered1_startup in Ec.
    destruct Ec as (Ht3 & res & -> & _ & _). cbn [trace] in Ht3.
    destruct res as [e|]; run; [discriminate|].
    destruct (OperatorV1.taskFetcher o); run; [|discriminate].
    destruct (net_Run net) as [e|]; intros E; inversion E; subst;
      clear E. split; [|reflexivity].
    apply (run_is_last w w3 _
             ([EvRegisterAsOperator]
                ++ [EvRegisterOperatorInQuorum (add64 (clock w / 10 ^ 9) 1000000)]
                ++ [EvInfo "Registered operator with avs registry coordinator."]
                ++ evs1 ++ [EvInfo "Start Operator..."; EvIsOperatorRegistered])
             []).
    + rewrite Ht3, Ht1, <- !app_assoc. reflexivity.
    + reflexivity.
Qed.

Lemma X28_start_returns_nil_only_after_the_loop_witness :
  let run := OperatorV2.Start (Sample.operator false) Sample.lib Sample.net
               Sample.world in
  fst run = Returns (None, Sample.operator false)
  /\ In EvRun (since Sample.world (snd run))
  /\ net_Run Sample.net = None.
Proof.
  cbv zeta.
  assert (OperatorV2.Start (Sample.operator false) Sample.lib Sample.net
            Sample.world
          = (Returns (None, Sample.operator false),
             snd (OperatorV2.Start (Sample.operator false) Sample.lib
                    Sample.net Sample.world))) as Hrun
    by (vm_compute; reflexivity).
  split; [rewrite Hrun; reflexivity|].
  exact (proj1 (X28_start_returns_nil_only_after_the_loop Sample.lib Sample.net)
           (Sample.operator false) Sample.world (Sample.operator false) _ Hrun).
Defined.

(** ** What a nil result of the first variant's handler means *)

(** X29. A nil result of the first variant means an accepted submission:
    when [OnNewLog] returns nil, the log had 32 bytes of data or more, the
    prover gave a proof for the block the data names, the header digested,
    and exactly these four things happened: the proof request, the digest,
    the signature, and the submission of the signed header, which the
    aggregator accepted. *)
Theorem X29_first_variant_nil_means_accepted lib net o log w w' :
  OperatorV1.OnNewLog o lib net log w = (Returns None, w') ->
  exists p digest,
    let req := {| req_StateHeader := headerOf1 lib p;
                  req_Signature := lib_SignMessage lib digest;
                  req_Pubkey := OperatorV1.PubKey o;
                  req_OperatorId := OperatorV1.operatorId o |} in
    (32 <= length (Data log))%nat
    /\ net_GetPoeByBlock net (taskBlock log) = (Some p, None)
    /\ lib_Digest lib (headerOf1 lib p) = inr digest
    /\ net_SubmitStateHeader net req = None
    /\ since w w'
       = [EvGetPoeByBlock (taskBlock log); EvDigest (headerOf1 lib p);
          EvSignMessage digest; EvSubmitStateHeader req].
Proof.
  intros E.
  destruct (Nat.le_gt_cases 32 (length (Data log))) as [Hlen|Hshort].
  2: { rewrite OnNewLog1_short_data in E by lia. discriminate. }
  destruct (OnNewLog1_run lib net o log w _ w' Hlen E) as (tail & Ht & Htail).
  rewrite (since_app _ _ _ Ht).
  destruct Htail as [->|(p & Hpoe & [(err & _ & _ & Hr)|(digest & Hd & -> & Hr)])].
  - exfalso. revert E. unfold OperatorV1.OnNewLog. run.
    pose proof (slice_prefix (Data log) 32 Hlen) as Hprefix.
    change (Z.of_nat 32) with 32 in Hprefix. rewrite Hprefix. run.
    destruct (net_GetPoeByBlock net _) as [poe [e|]]; run; [discriminate|].
    destruct poe as [p|]; run; [|discriminate].
    destruct (lib_Digest lib _); run; [discriminate|].
    destruct (net_SubmitStateHeader net _); run; [discriminate|].
    intros E. inversion E as [Hw]. rewrite <- Hw in Ht. cbn [trace] in Ht.
    rewrite <- !app_assoc in Ht. apply app_inv_head in Ht. discriminate.
  - discriminate.
  - exists p, digest. cbv zeta in *.
    destruct (net_SubmitStateHeader net _) as [e|] eqn:Hs; [discriminate|].
    repeat split; try assumption; reflexivity.
Qed.

Lemma X29_first_variant_nil_means_accepted_witness :
  exists p digest,
    net_GetPoeByBlock Sample.net (taskBlock (Sample.log 101 0)) = (Some p, None)
    /\ lib_Digest Sample.lib (headerOf1 Sample.lib p) = inr digest.
Proof.
  destruct (X29_first_variant_nil_means_accepted Sample.lib Sample.net
              Sample.operator1 (Sample.log 101 0) Sample.world
              (snd (OperatorV1.OnNewLog Sample.operator1 Sample.lib Sample.net
                      (Sample.log 101 0) Sample.world)))
    as (p & digest & _ & Hpoe & Hd & _).
  - vm_compute. reflexivity.
  - exists p, digest. split; assumption.
Defined.
